(** * pygit: object store, index reader and tree reader

    A shallow embedding of [pygit.py].  Python [bytes] are lists of
    [Byte.byte], Python [str] values are lists of Unicode code points,
    Python integers are [Z] (indices, modes) or [N] (unsigned struct
    fields), exceptions are values of the type [exn] and the working
    directory is an explicit state of directories and files. *)

From Stdlib Require Import ZArith NArith Strings.Byte Ascii String Lia.
From stdpp Require Import gmap list.

Local Open Scope Z_scope.

(** ** Basic data *)

Abbreviation bytes := (list byte).

(** A Python [str]: a sequence of code points. *)
Abbreviation pystr := (list N).

(** The code points of an ASCII literal. *)
Definition str (s : string) : list N :=
  map (fun a => N_of_ascii a) (list_ascii_of_string s).

(** [b'...'] literals made of ASCII characters. *)
Definition blit (s : string) : list byte := list_byte_of_string s.

Definition NUL : byte := x00.

Definition byte_val (b : byte) : N := Byte.to_N b.

Definition byte_of_N (n : N) : byte :=
  match Byte.of_N (n mod 256) with Some b => b | None => x00 end.

(** ** Big-endian integers *)

(** Big-endian serialisation of an unsigned number on [k] bytes. *)
Fixpoint be_bytes (k : nat) (x : N) : list byte :=
  match k with
  | O => []
  | S k' => byte_of_N (N.shiftr x (8 * N.of_nat k')) :: be_bytes k' x
  end.

(** Big-endian value of a byte string. *)
Definition be_val (bs : list byte) : N :=
  fold_left (fun acc b => acc * 256 + byte_val b)%N bs 0%N.

(** ** hashlib.sha1 *)

Module SHA1.

Definition mask32 (x : N) : N := N.land x 0xFFFFFFFF.

Definition add32 (x y : N) : N := mask32 (x + y).

Definition rotl (n x : N) : N :=
  mask32 (N.lor (N.shiftl x n) (N.shiftr x (32 - n))).

Definition not32 (x : N) : N := N.lxor x 0xFFFFFFFF.

Fixpoint words_of (bs : list byte) : list N :=
  match bs with
  | b0 :: b1 :: b2 :: b3 :: rest => be_val [b0; b1; b2; b3] :: words_of rest
  | _ => []
  end.

(** Message padding: a 1 bit, zeros up to 56 mod 64, the bit length on
    64 bits. *)
Definition pad (msg : list byte) : list byte :=
  let len := N.of_nat (length msg) in
  let zeros := N.to_nat ((119 - len mod 64) mod 64) in
  msg ++ x80 :: repeat x00 zeros ++ be_bytes 8 (8 * len).

Fixpoint chunks (fuel : nat) (ws : list N) : list (list N) :=
  match fuel with
  | O => []
  | S fuel' =>
      match ws with
      | [] => []
      | _ => take 16 ws :: chunks fuel' (drop 16 ws)
      end
  end.

(** The 80 words of the message schedule; [win] holds the sixteen most
    recent words, oldest first. *)
Fixpoint schedule (n : nat) (win : list N) : list N :=
  match n with
  | O => []
  | S n' =>
      match win with
      | [] => []
      | w0 :: rest =>
          let w := rotl 1 (N.lxor (N.lxor (N.lxor (nth 13 win 0%N) (nth 8 win 0%N))
                                          (nth 2 win 0%N)) w0) in
          w0 :: schedule n' (rest ++ [w])
      end
  end.

Definition state : Type := N * N * N * N * N.

Definition f_k (t : nat) (b c d : N) : N * N :=
  if (t <? 20)%nat then (N.lor (N.land b c) (N.land (not32 b) d), 0x5A827999%N)
  else if (t <? 40)%nat then (N.lxor (N.lxor b c) d, 0x6ED9EBA1%N)
  else if (t <? 60)%nat then
    (N.lor (N.lor (N.land b c) (N.land b d)) (N.land c d), 0x8F1BBCDC%N)
  else (N.lxor (N.lxor b c) d, 0xCA62C1D6%N).

Definition round (s : state) (tw : nat * N) : state :=
  let '(a, b, c, d, e) := s in
  let '(t, w) := tw in
  let '(f, k) := f_k t b c d in
  let temp := add32 (add32 (add32 (add32 (rotl 5 a) f) e) k) w in
  (temp, a, rotl 30 b, c, d).

Definition process_block (h : state) (block : list N) : state :=
  let '(h0, h1, h2, h3, h4) := h in
  let ws := schedule 80 block in
  let '(a, b, c, d, e) := fold_left round (combine (seq 0 80) ws) h in
  (add32 h0 a, add32 h1 b, add32 h2 c, add32 h3 d, add32 h4 e).

Definition init : state :=
  (0x67452301, 0xEFCDAB89, 0x98BADCFE, 0x10325476, 0xC3D2E1F0)%N.

Definition digest (msg : list byte) : list byte :=
  let ws := words_of (pad msg) in
  let '(h0, h1, h2, h3, h4) := fold_left process_block (chunks (length ws) ws) init in
  be_bytes 4 h0 ++ be_bytes 4 h1 ++ be_bytes 4 h2 ++ be_bytes 4 h3 ++ be_bytes 4 h4.

End SHA1.

(** [bytes.hex()]: two lowercase hexadecimal digits per byte. *)
Definition hex_digit (n : N) : N := (if n <? 10 then 48 + n else 87 + n)%N.

Definition hex (bs : list byte) : list N :=
  flat_map (fun b => [hex_digit (byte_val b / 16); hex_digit (byte_val b mod 16)]) bs.

(** [hashlib.sha1(data).digest()] and [.hexdigest()]. *)
Definition sha1_digest (data : list byte) : list byte := SHA1.digest data.
Definition sha1_hexdigest (data : list byte) : list N := hex (SHA1.digest data).


(** ** Exceptions *)

(** The [ValueError]s the program raises, by the message they carry. *)
Inductive value_error : Type :=
| PrefixTooShort                              (* hash prefix must be 2 or more characters *)
| ObjectNotFound (prefix : list N)            (* object {!r} not found *)
| MultipleObjects (count : nat) (prefix : list N)
                                              (* multiple objects ({}) with prefix {!r} *)
| SubsectionNotFound                          (* bytes.index: subsection not found *)
| UnpackCount (expected got : nat)            (* too many / not enough values to unpack *)
| InvalidLiteral (base : Z) (s : list N).     (* invalid literal for int() *)

(** The [assert] statements of the program. *)
Inductive assertion : Type :=
| InvalidIndexChecksum                        (* invalid index checksum *)
| InvalidIndexSignature (signature : list byte)
| UnknownIndexVersion (version : N)
| EntryCountAssertion (decoded : nat) (num_entries : N)
| ExpectedSize (size : Z) (got : nat)         (* expected size {}, got {} bytes *)
| ExpectedTree (obj_type : list N).

Inductive exn : Type :=
| ValueError (e : value_error)
| AssertionError (a : assertion)
| TypeError
| FileNotFoundError (path : list N)
| NotADirectoryError (path : list N)
| FileExistsError (path : list N)
| IsADirectoryError (path : list N)
| UnicodeDecodeError
| UnicodeEncodeError
| StructError
| ZlibError.

(** A computation that returns a value or raises. *)
Definition result (A : Type) : Type := exn + A.

Definition raise {A} (e : exn) : result A := inl e.
Definition ret {A} (a : A) : result A := inr a.

Definition bind {A B} (r : result A) (k : A -> result B) : result B :=
  match r with
  | inl e => inl e
  | inr a => k a
  end.

Notation "'let*' x := e 'in' k" := (bind e (fun x => k))
  (at level 10, x pattern, e at level 100, k at level 200).

(** [assert c, a] *)
Definition py_assert (c : bool) (a : assertion) : result unit :=
  if c then ret tt else raise (AssertionError a).

(** ** Sequences: slices and searches *)

#[global] Instance byte_eq_decision : EqDecision byte := Byte.byte_eq_dec.

(** A slice bound as Python normalises it: negative bounds count from the
    end, and every bound is clamped to [0, len]. *)
Definition norm_index (len : nat) (k : Z) : nat :=
  if k <? 0 then Z.to_nat (Z.max 0 (k + Z.of_nat len))
  else Nat.min (Z.to_nat k) len.

(** [s[lo:hi]] *)
Definition slice {A} (s : list A) (lo hi : Z) : list A :=
  let lo' := norm_index (length s) lo in
  let hi' := norm_index (length s) hi in
  take (hi' - lo') (drop lo' s).

(** [s[lo:]] *)
Definition slice_from {A} (s : list A) (lo : Z) : list A :=
  drop (norm_index (length s) lo) s.

(** [s[:hi]] *)
Definition slice_to {A} (s : list A) (hi : Z) : list A :=
  take (norm_index (length s) hi) s.

(** Position of the first [b] in [l], counting from [k]; [-1] if none. *)
Fixpoint find_at (b : byte) (l : list byte) (k : Z) : Z :=
  match l with
  | [] => -1
  | x :: r => if decide (x = b) then k else find_at b r (k + 1)
  end.

(** [data.find(b, start)] for a one-byte needle. *)
Definition bytes_find (data : list byte) (b : byte) (start : Z) : Z :=
  let i := norm_index (length data) start in
  find_at b (drop i data) (Z.of_nat i).

(** [data.index(b, start)]: as [find], but raises when nothing is found. *)
Definition bytes_index (data : list byte) (b : byte) (start : Z) : result Z :=
  let k := bytes_find data b start in
  if k <? 0 then raise (ValueError SubsectionNotFound) else ret k.

(** [s.startswith(p)] *)
Fixpoint startswith (s p : list N) : bool :=
  match p, s with
  | [], _ => true
  | _ :: _, [] => false
  | c :: p', d :: s' => (c =? d)%N && startswith s' p'
  end.

(** ** Text: UTF-8, split, int, format *)

Definition is_cont (b : byte) : bool :=
  ((0x80 <=? byte_val b) && (byte_val b <? 0xC0))%N.

Definition cont_bits (b : byte) : N := (byte_val b - 0x80)%N.

(** [bs.decode()]: strict UTF-8. *)
Fixpoint utf8_decode (bs : list byte) : result (list N) :=
  match bs with
  | [] => ret []
  | b0 :: r0 =>
      let v0 := byte_val b0 in
      if (v0 <? 0x80)%N then
        let* s := utf8_decode r0 in ret (v0 :: s)
      else if (v0 <? 0xC0)%N then raise UnicodeDecodeError
      else
        match r0 with
        | [] => raise UnicodeDecodeError
        | b1 :: r1 =>
            if negb (is_cont b1) then raise UnicodeDecodeError
            else if (v0 <? 0xE0)%N then
              let c := ((v0 - 0xC0) * 64 + cont_bits b1)%N in
              if (c <? 0x80)%N then raise UnicodeDecodeError
              else let* s := utf8_decode r1 in ret (c :: s)
            else
              match r1 with
              | [] => raise UnicodeDecodeError
              | b2 :: r2 =>
                  if negb (is_cont b2) then raise UnicodeDecodeError
                  else if (v0 <? 0xF0)%N then
                    let c := (((v0 - 0xE0) * 64 + cont_bits b1) * 64 + cont_bits b2)%N in
                    if ((c <? 0x800) || ((0xD800 <=? c) && (c <? 0xE000)))%N
                    then raise UnicodeDecodeError
                    else let* s := utf8_decode r2 in ret (c :: s)
                  else
                    match r2 with
                    | [] => raise UnicodeDecodeError
                    | b3 :: r3 =>
                        if negb (is_cont b3) then raise UnicodeDecodeError
                        else if (v0 <? 0xF8)%N then
                          let c := ((((v0 - 0xF0) * 64 + cont_bits b1) * 64
                                     + cont_bits b2) * 64 + cont_bits b3)%N in
                          if ((c <? 0x10000) || (0x10FFFF <? c))%N
                          then raise UnicodeDecodeError
                          else let* s := utf8_decode r3 in ret (c :: s)
                        else raise UnicodeDecodeError
                    end
              end
        end
  end.

(** The UTF-8 bytes of one code point; [None] for a surrogate or a value
    past U+10FFFF. *)
Definition utf8_char (c : N) : option (list byte) :=
  (if c <? 0x80 then Some [byte_of_N c]
   else if c <? 0x800 then Some [byte_of_N (0xC0 + c / 64); byte_of_N (0x80 + c mod 64)]
   else if (0xD800 <=? c) && (c <? 0xE000) then None
   else if c <? 0x10000 then
     Some [byte_of_N (0xE0 + c / 4096); byte_of_N (0x80 + (c / 64) mod 64);
           byte_of_N (0x80 + c mod 64)]
   else if c <? 0x110000 then
     Some [byte_of_N (0xF0 + c / 262144); byte_of_N (0x80 + (c / 4096) mod 64);
           byte_of_N (0x80 + (c / 64) mod 64); byte_of_N (0x80 + c mod 64)]
   else None)%N.

(** [s.encode()] *)
Fixpoint utf8_encode (s : list N) : result (list byte) :=
  match s with
  | [] => ret []
  | c :: r =>
      match utf8_char c with
      | None => raise UnicodeEncodeError
      | Some bs => let* rest := utf8_encode r in ret (bs ++ rest)
      end
  end.

(** The characters [str.split()] and [int()] treat as white space. *)
Definition is_space (c : N) : bool :=
  (((9 <=? c) && (c <=? 13)) || ((28 <=? c) && (c <=? 32))
   || (c =? 0x85) || (c =? 0xA0) || (c =? 0x1680)
   || ((0x2000 <=? c) && (c <=? 0x200A))
   || (c =? 0x2028) || (c =? 0x2029) || (c =? 0x202F) || (c =? 0x205F)
   || (c =? 0x3000))%N.

(** [s.split()]: the maximal runs of characters that are not white space.
    [tok] is the run being read, last character first. *)
Fixpoint split_run (tok : list N) (s : list N) : list (list N) :=
  match s with
  | [] => match tok with [] => [] | _ => [rev tok] end
  | c :: r =>
      if is_space c then
        match tok with
        | [] => split_run [] r
        | _ => rev tok :: split_run [] r
        end
      else split_run (c :: tok) r
  end.

Definition py_split (s : list N) : list (list N) := split_run [] s.

(** [a, b = xs] *)
Definition unpack2 {A} (xs : list A) : result (A * A) :=
  match xs with
  | [a; b] => ret (a, b)
  | _ => raise (ValueError (UnpackCount 2 (length xs)))
  end.

(** The digit zero of every script that has decimal digits (Unicode
    14.0, the data of CPython 3.11); the digits one to nine follow each
    of them. *)
Definition decimal_zeros : list N :=
  [0x30; 0x660; 0x6f0; 0x7c0; 0x966; 0x9e6; 0xa66; 0xae6; 0xb66; 0xbe6;
   0xc66; 0xce6; 0xd66; 0xde6; 0xe50; 0xed0; 0xf20; 0x1040; 0x1090; 0x17e0;
   0x1810; 0x1946; 0x19d0; 0x1a80; 0x1a90; 0x1b50; 0x1bb0; 0x1c40; 0x1c50;
   0xa620; 0xa8d0; 0xa900; 0xa9d0; 0xa9f0; 0xaa50; 0xabf0; 0xff10; 0x104a0;
   0x10d30; 0x11066; 0x110f0; 0x11136; 0x111d0; 0x112f0; 0x11450; 0x114d0;
   0x11650; 0x116c0; 0x11730; 0x118e0; 0x11950; 0x11c50; 0x11d50; 0x11da0;
   0x16a60; 0x16ac0; 0x16b50; 0x1d7ce; 0x1d7d8; 0x1d7e2; 0x1d7ec; 0x1d7f6;
   0x1e140; 0x1e2f0; 0x1e950; 0x1fbf0]%N.

Definition unicode_decimal (c : N) : option N :=
  match List.find (fun z => (z <=? c) && (c <? z + 10))%N decimal_zeros with
  | Some z => Some (c - z)%N
  | None => None
  end.

(** What [int()] makes of a character before it reads the number: ASCII
    stays, other white space becomes a space, other decimal digits become
    ASCII digits, anything else a question mark. *)
Definition int_fold (c : N) : N :=
  if (c <? 127)%N then c
  else if is_space c then 32%N
  else match unicode_decimal c with
       | Some d => (48 + d)%N
       | None => 63%N
       end.

(** The white space of C, which [int()] skips around the number. *)
Definition is_c_space (c : N) : bool := (((9 <=? c) && (c <=? 13)) || (c =? 32))%N.

Fixpoint lstrip (s : list N) : list N :=
  match s with
  | c :: r => if is_c_space c then lstrip r else s
  | [] => []
  end.

Definition strip (s : list N) : list N := rev (lstrip (rev (lstrip s))).

Definition digit_value (c : N) : option Z :=
  if ((48 <=? c) && (c <=? 57))%N then Some (Z.of_N c - 48)
  else if ((97 <=? c) && (c <=? 122))%N then Some (Z.of_N c - 87)
  else if ((65 <=? c) && (c <=? 90))%N then Some (Z.of_N c - 55)
  else None.

(** Digits with single underscores between them; [prev] tells whether the
    previous character was a digit. *)
Fixpoint int_digits (base acc : Z) (prev : bool) (s : list N) : option Z :=
  match s with
  | [] => if prev then Some acc else None
  | c :: r =>
      if (c =? 95)%N then
        if prev then int_digits base acc false r else None
      else
        match digit_value c with
        | Some d => if d <? base then int_digits base (acc * base + d) true r else None
        | None => None
        end
  end.

(** The letter of the prefix [int] accepts for a base: 0o, 0x, 0b. *)
Definition int_prefix (base : Z) (c : N) : bool :=
  ((base =? 8) && ((c =? 111) || (c =? 79))%N)
  || ((base =? 16) && ((c =? 120) || (c =? 88))%N)
  || ((base =? 2) && ((c =? 98) || (c =? 66))%N).

Definition int_unsigned (base : Z) (s : list N) : option Z :=
  match s with
  | z :: c :: r =>
      if (z =? 48)%N && int_prefix base c then
        match r with
        | u :: r' => if (u =? 95)%N then int_digits base 0 false r'
                     else int_digits base 0 false r
        | [] => int_digits base 0 false r
        end
      else int_digits base 0 false s
  | _ => int_digits base 0 false s
  end.

(** [int(s, base)] for an explicit base between 2 and 36: white space
    around, a sign, the prefix of the base, digits.  The limit CPython
    puts on the number of decimal digits (4300 by default) is not
    modelled; the length of a byte string has at most 19 digits. *)
Definition py_int (base : Z) (s : list N) : result Z :=
  let r :=
    match strip (map int_fold s) with
    | c :: t =>
        if (c =? 45)%N then Z.opp <$> int_unsigned base t
        else if (c =? 43)%N then int_unsigned base t
        else int_unsigned base (c :: t)
    | [] => int_unsigned base []
    end in
  match r with
  | Some v => ret v
  | None => raise (ValueError (InvalidLiteral base s))
  end.

(** The decimal digits of [n] in front of [acc]. *)
Fixpoint dec_digits (fuel : nat) (n : N) (acc : list N) : list N :=
  match fuel with
  | O => acc
  | S fuel' =>
      let acc' := (48 + n mod 10)%N :: acc in
      if (n <? 10)%N then acc' else dec_digits fuel' (n / 10) acc'
  end.

(** ["{}".format(n)] for a length [n]. *)
Definition format_nat (n : nat) : list N :=
  let m := N.of_nat n in dec_digits (S (N.to_nat (N.log2 m))) m [].

(** ** The file system

    A state of the working directory: the directories that exist and the
    content of every regular file, both keyed by the path as the program
    writes it.  Paths are compared literally: ".", ".." and doubled or
    trailing separators are not resolved, and there are no links.  The
    functions below do what the system calls do on relative paths in
    their plain spelling (names other than "." and "..", single
    separators); a path in another spelling is another key of the
    state. *)

Record fs : Type := mkfs {
  dirs : gset (list N);
  files : gmap (list N) (list byte)
}.

Definition slash : N := 47%N.

Fixpoint drop_while {A} (p : A -> bool) (l : list A) : list A :=
  match l with
  | x :: r => if p x then drop_while p r else l
  | [] => []
  end.

Fixpoint take_while {A} (p : A -> bool) (l : list A) : list A :=
  match l with
  | x :: r => if p x then x :: take_while p r else []
  | [] => []
  end.

Definition is_slash (c : N) : bool := (c =? slash)%N.

(** [s.rstrip('/')] *)
Definition rstrip_slash (s : list N) : list N := rev (drop_while is_slash (rev s)).

(** [posixpath.split]: head and tail around the last separator. *)
Definition path_split (p : list N) : list N * list N :=
  let tail := rev (take_while (fun c => negb (is_slash c)) (rev p)) in
  let head := take (length p - length tail) p in
  let head := if forallb is_slash head then head else rstrip_slash head in
  (head, tail).

(** [os.path.dirname] *)
Definition dirname (p : list N) : list N := fst (path_split p).

Definition starts_with_slash (p : list N) : bool :=
  match p with
  | c :: _ => is_slash c
  | [] => false
  end.

(** One step of [os.path.join]: an absolute component replaces what is
    before it; otherwise it is appended, after a separator unless the
    path so far is empty or ends with one. *)
Definition join2 (a b : list N) : list N :=
  if starts_with_slash b then b
  else
    match a with
    | [] => b
    | _ => if starts_with_slash (rev a) then a ++ b else a ++ slash :: b
    end.

(** [os.path.join(a, *ps)] *)
Definition join (a : list N) (ps : list (list N)) : list N := fold_left join2 ps a.

Definition isdir (st : fs) (p : list N) : bool := bool_decide (p ∈ dirs st).
Definition isfile (st : fs) (p : list N) : bool := bool_decide (is_Some (files st !! p)).

(** [os.path.exists] *)
Definition path_exists (st : fs) (p : list N) : bool := isdir st p || isfile st p.

(** The name of [p] inside the directory [d], when [p] is an entry of it. *)
Fixpoint strip_prefix (d p : list N) : option (list N) :=
  match d, p with
  | [], _ => Some p
  | _ :: _, [] => None
  | c :: d', c' :: p' => if (c =? c')%N then strip_prefix d' p' else None
  end.

Definition child_name (d p : list N) : option (list N) :=
  match strip_prefix (d ++ [slash]) p with
  | Some n =>
      match n with
      | [] => None
      | _ => if forallb (fun c => negb (is_slash c)) n then Some n else None
      end
  | None => None
  end.

(** The names of the entries of [d], in the order of the state's key
    set. *)
Definition children (st : fs) (d : list N) : list (list N) :=
  omap (child_name d) (elements (dirs st ∪ dom (files st))).

(** [os.listdir(d)] *)
Definition listdir (st : fs) (d : list N) : result (list (list N)) :=
  if isdir st d then ret (children st d)
  else if isfile st d then raise (NotADirectoryError d)
  else raise (FileNotFoundError d).

(** The directories above [p], nearest first: [dirname p], the [dirname]
    of that, and so on while the path gets shorter and is not empty. *)
Fixpoint ancestors_fuel (fuel : nat) (p : list N) : list (list N) :=
  match fuel with
  | O => []
  | S fuel' =>
      let d := dirname p in
      match d with
      | [] => []
      | _ => if (length d <? length p)%nat then d :: ancestors_fuel fuel' d else []
      end
  end.

Definition ancestors (p : list N) : list (list N) := ancestors_fuel (length p) p.

(** [read_file(path)]: [open] raises IsADirectoryError on a directory,
    NotADirectoryError when the path leads through a regular file, and
    FileNotFoundError when nothing is there. *)
Definition read_file (st : fs) (path : list N) : result (list byte) :=
  match files st !! path with
  | Some data => ret data
  | None => if isdir st path then raise (IsADirectoryError path)
            else if existsb (isfile st) (ancestors path) then raise (NotADirectoryError path)
            else raise (FileNotFoundError path)
  end.

(** Whether an entry may be created at [p]: its parent is the working
    directory or an existing directory. *)
Definition parent_error (st : fs) (p : list N) : option exn :=
  let parent := dirname p in
  match parent with
  | [] => None
  | _ => if isdir st parent then None
         else if isfile st parent then Some (NotADirectoryError p)
         else Some (FileNotFoundError p)
  end.

(** [write_file(path, data)] *)
Definition write_file (path : list N) (data : list byte) (st : fs) : result unit * fs :=
  if isdir st path then (raise (IsADirectoryError path), st)
  else match parent_error st path with
       | Some e => (raise e, st)
       | None => (ret tt, mkfs (dirs st) (<[path := data]> (files st)))
       end.

(** [os.mkdir(p)] *)
Definition mkdir (p : list N) (st : fs) : result unit * fs :=
  if path_exists st p then (raise (FileExistsError p), st)
  else match parent_error st p with
       | Some e => (raise e, st)
       | None => (ret tt, mkfs ({[p]} ∪ dirs st) (files st))
       end.

(** The body of [os.makedirs(name, exist_ok=True)]; [self] is the
    recursive call, made on the head of the path. *)
Definition makedirs_body (self : list N -> fs -> result unit * fs)
    (name : list N) (st : fs) : result unit * fs :=
  let '(head, tail) := path_split name in
  let '(head, tail) := match tail with [] => path_split head | _ => (head, tail) end in
  let go st1 :=
    match mkdir name st1 with
    | (inl e, st2) => if isdir st2 name then (ret tt, st2) else (raise e, st2)
    | r => r
    end in
  match head, tail with
  | _ :: _, _ :: _ =>
      if path_exists st head then go st
      else
        match self head st with
        | (inl (FileExistsError _), st1) | (inr _, st1) =>
            if decide (tail = [46%N]) then (ret tt, st1) else go st1
        | r => r
        end
  | _, _ => go st
  end.

(** The head is shorter than the path, so the length of the path bounds
    the depth of the recursion. *)
Fixpoint makedirs_fuel (fuel : nat) : list N -> fs -> result unit * fs :=
  match fuel with
  | O => fun name st => (raise (FileNotFoundError name), st)
  | S fuel' => makedirs_body (makedirs_fuel fuel')
  end.

Definition makedirs (name : list N) (st : fs) : result unit * fs :=
  makedirs_fuel (S (length name)) name st.

(** ** struct.unpack *)

(** [struct.unpack('!4sLL', b)]: the buffer must have exactly 12 bytes. *)
Definition unpack_4sLL (b : list byte) : result (list byte * N * N) :=
  if (length b =? 12)%nat then
    ret (take 4 b, be_val (take 4 (drop 4 b)), be_val (take 4 (drop 8 b)))
  else raise StructError.

Module INDEXENTRY.
Record t : Type := mk {
  ctime_s : N; ctime_n : N; mtime_s : N; mtime_n : N;
  dev : N; ino : N; mode : N; uid : N; gid : N; size : N;
  sha1 : list byte; flags : N; path : list N
}.
End INDEXENTRY.

(** [struct.unpack('!LLLLLLLLLL20sH', b)]: ten unsigned 32-bit fields, 20
    bytes, one unsigned 16-bit field, all big-endian; the buffer must have
    exactly 62 bytes.  The result is [INDEXENTRY] applied to these twelve
    fields, still waiting for the path. *)
Definition unpack_fields (b : list byte) : result (list N -> INDEXENTRY.t) :=
  if (length b =? 62)%nat then
    let L (k : nat) := be_val (take 4 (drop (4 * k) b)) in
    ret (INDEXENTRY.mk (L 0%nat) (L 1%nat) (L 2%nat) (L 3%nat) (L 4%nat) (L 5%nat)
           (L 6%nat) (L 7%nat) (L 8%nat) (L 9%nat)
           (take 20 (drop 40 b)) (be_val (take 2 (drop 60 b))))
  else raise StructError.

(** ** The index reader *)

(** [((62 + len(path) + 8) // 8) * 8] *)
Definition entry_len (path_len : Z) : Z := ((62 + path_len + 8) / 8) * 8.

(** The [while] loop of [read_index]; [None] when [fuel] iterations did
    not reach its end. *)
Fixpoint read_index_loop (fuel : nat) (entry_data : list byte) (i : Z)
    (entries : list INDEXENTRY.t) : option (result (list INDEXENTRY.t)) :=
  if i + 62 <? Z.of_nat (length entry_data) then
    match fuel with
    | O => None
    | S fuel' =>
        let fields_end := i + 62 in
        match unpack_fields (slice entry_data i fields_end) with
        | inl e => Some (raise e)
        | inr fields =>
            match bytes_index entry_data NUL fields_end with
            | inl e => Some (raise e)
            | inr path_end =>
                let path := slice entry_data fields_end path_end in
                match utf8_decode path with
                | inl e => Some (raise e)
                | inr p =>
                    read_index_loop fuel' entry_data
                      (i + entry_len (Z.of_nat (length path))) (entries ++ [fields p])
                end
            end
        end
    end
  else Some (ret entries).

(** Lines 53 to 75 of [read_index], on the bytes of the index file. *)
Definition read_index_bytes (data : list byte) : option (result (list INDEXENTRY.t)) :=
  let digest := sha1_digest (slice_to data (-20)) in
  match py_assert (bool_decide (digest = slice_to data (-20))) InvalidIndexChecksum with
  | inl e => Some (raise e)
  | inr _ =>
  match unpack_4sLL (slice_to data 12) with
  | inl e => Some (raise e)
  | inr (signature, version, num_entries) =>
  match py_assert (bool_decide (signature = blit "DIRC")) (InvalidIndexSignature signature) with
  | inl e => Some (raise e)
  | inr _ =>
  match py_assert (version =? 2)%N (UnknownIndexVersion version) with
  | inl e => Some (raise e)
  | inr _ =>
      let entry_data := slice data 12 (-20) in
      match read_index_loop (length entry_data) entry_data 0 [] with
      | None => None
      | Some (inl e) => Some (raise e)
      | Some (inr entries) =>
          match py_assert (N.of_nat (length entries) =? num_entries)%N
                  (EntryCountAssertion (length entries) num_entries) with
          | inl e => Some (raise e)
          | inr _ => Some (ret entries)
          end
      end
  end end end end.

Definition index_path : list N := join (str ".git") [str "index"].

(** [read_index()] *)
Definition read_index (st : fs) : option (result (list INDEXENTRY.t)) :=
  match read_file st index_path with
  | inl (FileNotFoundError _) => Some (ret [])
  | inl e => Some (raise e)
  | inr data => read_index_bytes data
  end.

(** ** The tree reader: the loop of [read_tree] *)

Definition tree_entry : Type := Z * list N * list N.

Fixpoint read_tree_loop (n : nat) (data : list byte) (i : Z) (entries : list tree_entry)
    : result (list tree_entry) :=
  match n with
  | O => ret entries
  | S n' =>
      let end_ := bytes_find data NUL i in
      if end_ =? -1 then ret entries
      else
        let* h := utf8_decode (slice data i end_) in
        let* (mode_str, path) := unpack2 (py_split h) in
        let* mode := py_int 8 mode_str in
        let digest := slice data (end_ + 1) (end_ + 21) in
        read_tree_loop n' data (end_ + 1 + 20) (entries ++ [(mode, path, hex digest)])
  end.

(** ** The object store *)

Section ObjectStore.

(** [zlib.compress] and [zlib.decompress]. *)
Variable zlib_compress : list byte -> list byte.
Variable zlib_decompress : list byte -> result (list byte).

(** [os.path.join('.git', 'objects', sha1[:2], sha1[2:])] *)
Definition object_path (sha1 : list N) : list N :=
  join (str ".git") [str "objects"; slice_to sha1 2; slice_from sha1 2].

(** The bytes that are hashed and stored: the header
    ["{} {}".format(obj_type, len(data)).encode()], a NUL, the data. *)
Definition full_data (data : list byte) (obj_type : list N) : result (list byte) :=
  let* header := utf8_encode (obj_type ++ str " " ++ format_nat (length data)) in
  ret (header ++ NUL :: data).

(** [hash_object(data, obj_type, write)] *)
Definition hash_object (data : list byte) (obj_type : list N) (write : bool) (st : fs)
    : result (list N) * fs :=
  match full_data data obj_type with
  | inl e => (raise e, st)
  | inr full_data =>
      let sha1 := sha1_hexdigest full_data in
      if write then
        let path := object_path sha1 in
        if negb (path_exists st path) then
          match makedirs (dirname path) st with
          | (inl e, st1) => (raise e, st1)
          | (inr _, st1) =>
              match write_file path (zlib_compress full_data) st1 with
              | (inl e, st2) => (raise e, st2)
              | (inr _, st2) => (ret sha1, st2)
              end
          end
        else (ret sha1, st)
      else (ret sha1, st)
  end.

(** [find_object(sha1_prefix)] *)
Definition find_object (sha1_prefix : list N) (st : fs) : result (list N) :=
  if (length sha1_prefix <? 2)%nat then raise (ValueError PrefixTooShort)
  else
    let obj_dir := join (str ".git") [str "objects"; slice_to sha1_prefix 2] in
    let rest := slice_from sha1_prefix 2 in
    let* names := listdir st obj_dir in
    let objects := List.filter (fun name => startswith name rest) names in
    match objects with
    | [] => raise (ValueError (ObjectNotFound sha1_prefix))
    | name :: others =>
        if (2 <=? length objects)%nat
        then raise (ValueError (MultipleObjects (length objects) sha1_prefix))
        else ret (join obj_dir [name])
    end.

(** [read_object(sha1_prefix)] *)
Definition read_object (sha1_prefix : list N) (st : fs) : result (list N * list byte) :=
  let* path := find_object sha1_prefix st in
  let* raw := read_file st path in
  let* full_data := zlib_decompress raw in
  let* null_index := bytes_index full_data NUL 0 in
  let header := slice_to full_data null_index in
  let* h := utf8_decode header in
  let* (obj_type, size_str) := unpack2 (py_split h) in
  let* size := py_int 10 size_str in
  let data := slice_from full_data (null_index + 1) in
  let* _ := py_assert (size =? Z.of_nat (length data)) (ExpectedSize size (length data)) in
  ret (obj_type, data).

(** [read_tree(sha1, data)] *)
Definition read_tree (sha1 : option (list N)) (data : option (list byte)) (st : fs)
    : result (list tree_entry) :=
  let* data :=
    match sha1 with
    | Some h =>
        let* (obj_type, d) := read_object h st in
        let* _ := py_assert (bool_decide (obj_type = str "tree")) (ExpectedTree obj_type) in
        ret d
    | None =>
        match data with
        | None => raise TypeError
        | Some d => ret d
        end
    end in
  read_tree_loop 1000 data 0 [].

End ObjectStore.

(** The working directory inside a repository that [init] has just
    created. *)
Definition fresh_repo : fs :=
  mkfs {[ str ".git"; str ".git/objects"; str ".git/refs"; str ".git/refs/heads" ]}
       {[ str ".git/HEAD" := blit "ref: regs/heads/master" ]}.

(** ** The commands [init] and [cat_file] *)

(** What a command sends to the standard output: a line of text that
    [print] writes, or bytes that [sys.stdout.buffer.write] writes. *)
Inductive output : Type :=
| Print (text : list N)
| WriteBytes (data : list byte).

(** A statement that changes the working directory, or raises. *)
Definition action : Type := fs -> result unit * fs.

(** Two statements in sequence: the second one runs if the first one did
    not raise. *)
Definition and_then (a b : action) : action :=
  fun st =>
    match a st with
    | (inl e, st1) => (inl e, st1)
    | (inr _, st1) => b st1
    end.

(** [for x in xs: f(x)] *)
Fixpoint for_each {A} (f : A -> action) (xs : list A) : action :=
  match xs with
  | [] => fun st => (ret tt, st)
  | x :: r => and_then (f x) (for_each f r)
  end.

(** [init(repo)]: the outcome, the working directory the call leaves, and
    what it has printed. *)
Definition init (repo : list N) (st : fs) : result unit * fs * list output :=
  let statements :=
    and_then (mkdir repo)
      (and_then (mkdir (join repo [str ".git"]))
         (and_then
            (for_each (fun name => mkdir (join repo [str ".git"; name]))
               [str "objects"; str "refs"; str "refs/heads"])
            (write_file (join repo [str ".git"; str "HEAD"])
               (blit "ref: regs/heads/master")))) in
  match statements st with
  | (inl e, st') => (raise e, st', [])
  | (inr _, st') => (ret tt, st', [Print (str "initialized empty repository: " ++ repo)])
  end.

(** What [cat_file] raises: an exception of [read_object], or its own
    ValueError, "expected object type [mode], got [obj_type]". *)
Inductive cat_file_error : Type :=
| Raised (e : exn)
| ExpectedObjectType (mode obj_type : list N).

(** [cat_file(mode, sha1_prefix)], lines 208 to 221: what the call has
    written to the standard output, or what it raises.  The listing of the
    function ends at line 224, inside the branch that prints a tree in
    pretty mode; the result is [None] where the call goes past line 221. *)
Definition cat_file (zlib_decompress : list byte -> result (list byte))
    (mode sha1_prefix : list N) (st : fs) : option (cat_file_error + list output) :=
  match read_object zlib_decompress sha1_prefix st with
  | inl e => Some (inl (Raised e))
  | inr (obj_type, data) =>
      if bool_decide (mode ∈ [str "commit"; str "tree"; str "blob"]) then
        if negb (bool_decide (obj_type = mode))
        then Some (inl (ExpectedObjectType mode obj_type))
        else Some (inr [WriteBytes data])
      else if bool_decide (mode = str "size") then
        Some (inr [Print (format_nat (length data))])
      else if bool_decide (mode = str "type") then
        Some (inr [Print obj_type])
      else if bool_decide (mode = str "pretty") then
        if bool_decide (obj_type ∈ [str "commit"; str "blob"])
        then Some (inr [WriteBytes data])
        else None
      else None
  end.


(** * The vocabulary of the statements *)

(** What one iteration of the loop makes of the bytes of a record in front
    of the NUL. *)
Definition tree_header (hdr : list byte) : result (Z * list N) :=
  let* h := utf8_decode hdr in
  let* (mode_str, path) := unpack2 (py_split h) in
  let* mode := py_int 8 mode_str in
  ret (mode, path).

(** A record of a tree payload: header bytes, digest bytes, and the mode
    and path the header stands for. *)
Record tree_record : Type := {
  tr_header : list byte;
  tr_digest : list byte;
  tr_mode : Z;
  tr_path : list N
}.

(** The record is well formed: a header without NUL that the loop reads
    as this mode and this path, and a digest of 20 bytes. *)
Definition tr_ok (r : tree_record) : Prop :=
  (NUL ∉ tr_header r)
  /\ length (tr_digest r) = 20%nat
  /\ tree_header (tr_header r) = inr (tr_mode r, tr_path r).

Definition tr_bytes (r : tree_record) : list byte := tr_header r ++ NUL :: tr_digest r.

Definition tr_entry (r : tree_record) : tree_entry :=
  (tr_mode r, tr_path r, hex (tr_digest r)).

(** A codec that keeps the bytes as they are; it stands in for zlib where
    the store is run on examples. *)
Definition stored (x : list byte) : list byte := x.
Definition unstored (x : list byte) : result (list byte) := ret x.

(** The record header as the specification words it: the text is cut at
    its first space. *)
Fixpoint split_first_space (s : list N) : option (list N * list N) :=
  match s with
  | [] => None
  | c :: r =>
      if (c =? 32)%N then Some ([], r)
      else match split_first_space r with
           | Some (a, b) => Some (c :: a, b)
           | None => None
           end
  end.

(** The payload of these records, one after the other. *)
Definition tree_payload (recs : list tree_record) : list byte := flat_map tr_bytes recs.

Definition sample_record : tree_record :=
  {| tr_header := blit "100644 a"; tr_digest := repeat x00 20;
     tr_mode := 0x81A4; tr_path := str "a" |}.

(** A payload of 1001 well-formed records. *)
Definition big_tree_payload : list byte := tree_payload (repeat sample_record 1001).

(** The error kinds the specification names for the index decoder, and
    the exception of the program each one stands for. *)
Inductive index_error : Type :=
| TruncatedIndex | ChecksumMismatch | BadSignature | UnsupportedVersion | EntryCountMismatch.

Definition index_error_of (e : exn) : option index_error :=
  match e with
  | StructError => Some TruncatedIndex
  | AssertionError InvalidIndexChecksum => Some ChecksumMismatch
  | AssertionError (InvalidIndexSignature _) => Some BadSignature
  | AssertionError (UnknownIndexVersion _) => Some UnsupportedVersion
  | AssertionError (EntryCountAssertion _ _) => Some EntryCountMismatch
  | _ => None
  end.


(** A working directory whose index file holds [data]. *)
Definition repo_with_index (data : list byte) : fs :=
  mkfs (dirs fresh_repo) (<[index_path := data]> (files fresh_repo)).

(** The index file of a repository that tracks nothing: the header DIRC,
    version 2, zero entries, and the SHA-1 of these twelve bytes. *)
Definition empty_index_header : list byte :=
  blit "DIRC" ++ [x00; x00; x00; x02; x00; x00; x00; x00].

Definition empty_index : list byte := empty_index_header ++ sha1_digest empty_index_header.

(** The 62 fixed bytes of an index record, as the format lays them out. *)
Definition ir_fixed (e : INDEXENTRY.t) : list byte :=
  be_bytes 4 (INDEXENTRY.ctime_s e) ++ be_bytes 4 (INDEXENTRY.ctime_n e)
  ++ be_bytes 4 (INDEXENTRY.mtime_s e) ++ be_bytes 4 (INDEXENTRY.mtime_n e)
  ++ be_bytes 4 (INDEXENTRY.dev e) ++ be_bytes 4 (INDEXENTRY.ino e)
  ++ be_bytes 4 (INDEXENTRY.mode e) ++ be_bytes 4 (INDEXENTRY.uid e)
  ++ be_bytes 4 (INDEXENTRY.gid e) ++ be_bytes 4 (INDEXENTRY.size e)
  ++ INDEXENTRY.sha1 e ++ be_bytes 2 (INDEXENTRY.flags e).

Definition fields_ok (e : INDEXENTRY.t) : Prop :=
  (INDEXENTRY.ctime_s e < 2 ^ 32 /\ INDEXENTRY.ctime_n e < 2 ^ 32
   /\ INDEXENTRY.mtime_s e < 2 ^ 32 /\ INDEXENTRY.mtime_n e < 2 ^ 32
   /\ INDEXENTRY.dev e < 2 ^ 32 /\ INDEXENTRY.ino e < 2 ^ 32
   /\ INDEXENTRY.mode e < 2 ^ 32 /\ INDEXENTRY.uid e < 2 ^ 32
   /\ INDEXENTRY.gid e < 2 ^ 32 /\ INDEXENTRY.size e < 2 ^ 32
   /\ INDEXENTRY.flags e < 2 ^ 16)%N
  /\ length (INDEXENTRY.sha1 e) = 20%nat.

(** A record of the entry region: the entry it stands for, the bytes of
    its path, and the padding after the NUL that ends the path. *)
Record index_record : Type := {
  ir_entry : INDEXENTRY.t;
  ir_path : list byte;
  ir_pad : list byte
}.

Definition ir_bytes (r : index_record) : list byte :=
  ir_fixed (ir_entry r) ++ ir_path r ++ NUL :: ir_pad r.

(** The record is laid out as the format says: fields in range, a path
    without NUL that decodes to the path of the entry, and a total length
    of [entry_len], the next multiple of 8. *)
Definition ir_ok (r : index_record) : Prop :=
  fields_ok (ir_entry r)
  /\ (NUL ∉ ir_path r)
  /\ utf8_decode (ir_path r) = inr (INDEXENTRY.path (ir_entry r))
  /\ Z.of_nat (length (ir_bytes r)) = entry_len (Z.of_nat (length (ir_path r))).

(** The payload of an entry region: its records, one after the other. *)
Definition entry_region (recs : list index_record) : list byte := flat_map ir_bytes recs.

(** An entry for the path [a], and its record of 64 bytes. *)
Definition sample_entry : INDEXENTRY.t :=
  INDEXENTRY.mk 1 2 3 4 5 6 0x81A4 1000 1000 5 (repeat x0b 20) 1 (str "a").

Definition sample_index_record : index_record :=
  {| ir_entry := sample_entry; ir_path := blit "a"; ir_pad := [] |}.

(** The header of an index file of version 2 that announces [n] entries. *)
Definition index_header (n : N) : list byte := blit "DIRC" ++ be_bytes 4 2 ++ be_bytes 4 n.

(** The index file that holds these records: the header, the entry region
    and, as its trailer, the SHA-1 of both. *)
Definition index_file (recs : list index_record) : list byte :=
  (index_header (N.of_nat (length recs)) ++ entry_region recs)
  ++ sha1_digest (index_header (N.of_nat (length recs)) ++ entry_region recs).

(** The directory [find_object] lists for a prefix. *)
Definition shard_dir (sha1_prefix : list N) : list N :=
  join (str ".git") [str "objects"; slice_to sha1_prefix 2].

(** The store after [hash_object(b"hello", "blob")] in a new repository. *)
Definition hello_store : fs :=
  snd (hash_object stored (blit "hello") (str "blob") true fresh_repo).

(** A printable ASCII character other than the space. *)
Definition plain_char (c : N) : Prop := (32 < c < 127)%N.

(** A decimal digit. *)
Definition digit_char (c : N) : Prop := (48 <= c <= 57)%N.

(** A lowercase hexadecimal digit. *)
Definition hex_char (c : N) : Prop := (48 <= c <= 57 \/ 97 <= c <= 102)%N.

(** The directory of the object store. *)
Definition objects_dir : list N := str ".git/objects".

(** The stored form of an object whose type is ASCII text: the header
    [type, space, decimal length], a NUL, the payload. *)
Definition framed (obj_type : list N) (data : list byte) : list byte :=
  map byte_of_N (obj_type ++ str " " ++ format_nat (length data)) ++ NUL :: data.

(** No entry of the directory of the digest has a name that extends the
    rest of the digest. *)
Definition unambiguous (st : fs) (sha1 : list N) : Prop :=
  forall name, name ∈ children st (shard_dir sha1) ->
    startswith name (slice_from sha1 2) = true -> name = slice_from sha1 2.

(** The store can take the object whose stored form is [full]: the
    repository has its objects directory; the path of the digest's
    directory is not taken by a regular file, nor the path of the object
    by a directory; a file that is already stored under the digest holds
    this very object (digests are trusted to be free of collisions); and
    the digest is unambiguous in its directory. *)
Definition store_ready (zlib_compress : list byte -> list byte) (st : fs)
    (full : list byte) : Prop :=
  isdir st objects_dir = true
  /\ isfile st (shard_dir (sha1_hexdigest full)) = false
  /\ isdir st (object_path (sha1_hexdigest full)) = false
  /\ (forall content, files st !! object_path (sha1_hexdigest full) = Some content ->
        content = zlib_compress full /\ isdir st (shard_dir (sha1_hexdigest full)) = true)
  /\ unambiguous st (sha1_hexdigest full).

(** The object types of the store. *)
Definition object_types : list (list N) := [str "blob"; str "tree"; str "commit"].

(** The store after a write that found nothing at the path of the
    digest: the directory of the digest and the file of the object are
    there. *)
Definition store_add (zlib_compress : list byte -> list byte) (st : fs)
    (full : list byte) : fs :=
  mkfs ({[ shard_dir (sha1_hexdigest full) ]} ∪ dirs st)
       (<[ object_path (sha1_hexdigest full) := zlib_compress full ]> (files st)).

(** The layout of an object store: below the objects directory there are
    only directories with a name of two characters and, inside them,
    regular files that hold the compressed form of an object under the
    path of its digest. *)
Definition store_inv (zlib_compress : list byte -> list byte) (st : fs) : Prop :=
  isdir st objects_dir = true
  /\ forall rel : list N,
       (objects_dir ++ slash :: rel ∈ dirs st
        \/ is_Some (files st !! (objects_dir ++ slash :: rel))) ->
       (length rel = 2%nat /\ objects_dir ++ slash :: rel ∈ dirs st
        /\ files st !! (objects_dir ++ slash :: rel) = None)
       \/ (exists full : list byte,
             objects_dir ++ slash :: rel = object_path (sha1_hexdigest full)
             /\ files st !! (objects_dir ++ slash :: rel) = Some (zlib_compress full)
             /\ (objects_dir ++ slash :: rel ∉ dirs st)
             /\ shard_dir (sha1_hexdigest full) ∈ dirs st).

(** No other object with the digest of [full] is stored. *)
Definition no_collision (zlib_compress : list byte -> list byte) (st : fs)
    (full : list byte) : Prop :=
  forall full' : list byte,
    sha1_hexdigest full' = sha1_hexdigest full ->
    files st !! object_path (sha1_hexdigest full) = Some (zlib_compress full') ->
    zlib_compress full' = zlib_compress full.

(** The stores that calls of [hash_object] make of a new repository. *)
Inductive written (zlib_compress : list byte -> list byte) : fs -> Prop :=
| written_fresh : written zlib_compress fresh_repo
| written_hash_object (st st' : fs) (data : list byte) (obj_type : list N)
    (r : result (list N)) :
    written zlib_compress st ->
    obj_type ∈ object_types ->
    hash_object zlib_compress data obj_type true st = (r, st') ->
    written zlib_compress st'.

(** A name of a directory entry: not empty, without separator. *)
Definition entry_name (n : list N) : Prop :=
  n <> [] /\ Forall (fun c => is_slash c = false) n.

(** A path that does not end with a separator. *)
Definition ends_plain (p : list N) : Prop := exists a x, p = a ++ [x] /\ is_slash x = false.

(** [p] is the path [d] or a path below it. *)
Definition below (d p : list N) : Prop := p = d \/ exists rel, p = d ++ slash :: rel.

(** Nothing exists at [d] or below it. *)
Definition vacant (st : fs) (d : list N) : Prop :=
  forall p, below d p -> path_exists st p = false.

(** A working directory with nothing in it. *)
Definition empty_dir : fs := mkfs ∅ ∅.

(** The names of a path, cut at every separator. *)
Fixpoint path_names (cur p : list N) : list (list N) :=
  match p with
  | [] => [rev cur]
  | c :: r => if is_slash c then rev cur :: path_names [] r else path_names (c :: cur) r
  end.

(** A name that an entry of a directory can have on every system: ASCII
    text without NUL and without separator, at most 255 characters, and
    neither empty nor one of the names [.] and [..] that every directory
    already has. *)
Definition plain_name (n : list N) : bool :=
  negb (bool_decide (n = [])) && negb (bool_decide (n = str "."))
  && negb (bool_decide (n = str ".."))
  && forallb (fun c => (0 <? c)%N && (c <? 128)%N && negb (is_slash c)) n
  && (length n <=? 255)%nat.

(** A relative path in its one plain spelling: plain names with single
    separators between them. *)
Definition canonical_path (p : list N) : bool := forallb plain_name (path_names [] p).

(** The state records every entry under the plain spelling of its path,
    so that a path of this spelling names the entry of the working
    directory that the state holds under it, and no other. *)
Definition canonical (st : fs) : Prop :=
  forallb canonical_path (elements (dirs st ∪ dom (files st))) = true.

(** The working directory after [init(repo)] has run to its end: five
    directories and the file HEAD are added to what was there. *)
Definition initialized (repo : list N) (st : fs) : fs :=
  mkfs ({[ repo ++ str "/.git/refs/heads" ]}
          ∪ ({[ repo ++ str "/.git/refs" ]}
               ∪ ({[ repo ++ str "/.git/objects" ]}
                    ∪ ({[ repo ++ str "/.git" ]} ∪ ({[ repo ]} ∪ dirs st)))))
       (<[ repo ++ str "/.git/HEAD" := blit "ref: regs/heads/master" ]> (files st)).

(** The directories after [makedirs] has made the directory of a digest
    together with the two directories above it. *)
Definition with_shard (st : fs) (sd : list N) : fs :=
  mkfs ({[ sd ]} ∪ ({[ objects_dir ]} ∪ ({[ str ".git" ]} ∪ dirs st))) (files st).

(** The stored form of an object whose header gives the size [size]. *)
Definition framed_as (obj_type : list N) (size : nat) (data : list byte) : list byte :=
  map byte_of_N (obj_type ++ str " " ++ format_nat size) ++ NUL :: data.

(** [name] is the only entry of the directory of the prefix whose name
    starts with the rest of the prefix. *)
Definition only_match (st : fs) (sha1_prefix name : list N) : Prop :=
  startswith name (slice_from sha1_prefix 2) = true
  /\ forall other, other ∈ children st (shard_dir sha1_prefix) ->
       startswith other (slice_from sha1_prefix 2) = true -> other = name.

(** A store that keeps the blob [hello] in a file that is not named after
    its digest. *)
Definition misnamed_store : fs :=
  mkfs {[ str ".git"; str ".git/objects"; str ".git/objects/00" ]}
       {[ str ".git/objects/00/11" := stored (framed (str "blob") (blit "hello")) ]}.

(** A token of [str.split()]: not empty, without white space. *)
Definition word (w : list N) : Prop := w <> [] /\ Forall (fun c => is_space c = false) w.

(** The shape of an entry of the tree reader: the path is a word and the
    digest has at most forty hexadecimal digits. *)
Definition entry_shape (e : tree_entry) : Prop :=
  word (snd (fst e)) /\ Forall hex_char (snd e) /\ (length (snd e) <= 40)%nat.

(** The digest of the entry has all its forty digits. *)
Definition full_digest (e : tree_entry) : Prop := length (snd e) = 40%nat.

(** * Properties *)


(** A byte string that is given in full has no NUL: look at each byte. *)
Ltac nul_free :=
  let H := fresh "H" in
  intros H; apply list_elem_of_In in H; vm_compute in H; intuition discriminate.

(** ** The library functions on known values *)

Example sha1_abc :
  sha1_hexdigest (blit "abc") = str "a9993e364706816aba3e25717850c26c9cd0d89d".
Proof. vm_compute. reflexivity. Qed.

Example sha1_empty :
  sha1_hexdigest [] = str "da39a3ee5e6b4b0d3255bfef95601890afd80709".
Proof. vm_compute. reflexivity. Qed.

Example sha1_two_blocks :
  sha1_hexdigest (blit "abcdbcdecdefdefgefghfghighijhijkijkljklmklmnlmnomnopnopq")
  = str "84983e441c3bd26ebaae4aa1f95129e5e54670f1".
Proof. vm_compute. reflexivity. Qed.

(** The digest git gives the blob [hello]. *)
Example hash_object_hello :
  fst (hash_object stored (blit "hello") (str "blob") false fresh_repo)
  = inr (str "b6fc4c620b67d95f953a5c1c1230aaab5db5a1b0").
Proof. vm_compute. reflexivity. Qed.

Example py_int_octal :
  py_int 8 (str "100644") = inr 33188 /\ py_int 8 (str "0o17") = inr 15
  /\ py_int 8 (str "-7_7") = inr (-63)
  /\ py_int 8 (str "8") = inl (ValueError (InvalidLiteral 8 (str "8")))
  /\ py_int 8 (str "7_") = inl (ValueError (InvalidLiteral 8 (str "7_")))
  /\ py_int 8 [0x667%N] = inr 7.
Proof. repeat split; vm_compute; reflexivity. Qed.

Example py_split_runs :
  py_split (str "  100644   a.txt ") = [str "100644"; str "a.txt"]
  /\ py_split [] = [] /\ py_split (str "a") = [str "a"].
Proof. repeat split; vm_compute; reflexivity. Qed.

(** Two bytes for U+00E9, and a lone continuation byte. *)
Example utf8_decode_bytes :
  utf8_decode [xc3; xa9] = inr [233%N] /\ utf8_decode [xa9] = inl UnicodeDecodeError
  /\ utf8_encode [233%N] = inr [xc3; xa9].
Proof. repeat split; vm_compute; reflexivity. Qed.

Example format_nat_values :
  format_nat 0 = str "0" /\ format_nat 5 = str "5" /\ format_nat 1024 = str "1024".
Proof. repeat split; vm_compute; reflexivity. Qed.

Example path_functions :
  join (str ".git") [str "objects"; str "b6"; str "fc"] = str ".git/objects/b6/fc"
  /\ join (str ".git") [str "/tmp"] = str "/tmp"
  /\ dirname (str ".git/objects/b6/fc") = str ".git/objects/b6"
  /\ path_split (str "/a") = (str "/", str "a").
Proof. repeat split; vm_compute; reflexivity. Qed.

(** ** Slices and searches *)

Lemma norm_index_nonneg (len : nat) (k : Z) :
  0 <= k -> norm_index len k = Nat.min (Z.to_nat k) len.
Proof. intros H. unfold norm_index. destruct (Z.ltb_spec k 0); [lia | reflexivity]. Qed.

Lemma norm_index_neg (len : nat) (k : Z) :
  k < 0 -> norm_index len k = (len - Z.to_nat (- k))%nat.
Proof. intros H. unfold norm_index. destruct (Z.ltb_spec k 0); lia. Qed.

Lemma norm_index_le (len : nat) (k : Z) : (norm_index len k <= len)%nat.
Proof. unfold norm_index. destruct (Z.ltb_spec k 0); lia. Qed.

Lemma slice_middle {A} (pre mid post : list A) :
  slice (pre ++ mid ++ post) (Z.of_nat (length pre))
        (Z.of_nat (length pre) + Z.of_nat (length mid)) = mid.
Proof.
  unfold slice. rewrite !norm_index_nonneg by lia. rewrite !length_app.
  replace (Nat.min (Z.to_nat (Z.of_nat (length pre))) _) with (length pre) by lia.
  replace (Nat.min (Z.to_nat (Z.of_nat (length pre) + Z.of_nat (length mid))) _)
    with (length pre + length mid)%nat by lia.
  rewrite drop_app_length.
  replace (length pre + length mid - length pre)%nat with (length mid) by lia.
  apply take_app_length.
Qed.

Lemma slice_to_length {A} (s : list A) (hi : Z) :
  length (slice_to s hi) = norm_index (length s) hi.
Proof. unfold slice_to. rewrite length_take. pose proof (norm_index_le (length s) hi). lia. Qed.

Lemma find_at_skip (b : byte) (hdr rest : list byte) (k : Z) :
  b ∉ hdr -> find_at b (hdr ++ b :: rest) k = k + Z.of_nat (length hdr).
Proof.
  revert k. induction hdr as [|x hdr IH]; intros k Hnot; simpl.
  - rewrite decide_True by reflexivity. lia.
  - rewrite decide_False by (intros ->; apply Hnot; left).
    rewrite IH by (intros Hin; apply Hnot; right; exact Hin). lia.
Qed.

Lemma find_at_none (b : byte) (l : list byte) (k : Z) :
  b ∉ l -> find_at b l k = -1.
Proof.
  revert k. induction l as [|x l IH]; intros k Hnot; simpl; [reflexivity|].
  rewrite decide_False by (intros ->; apply Hnot; left).
  apply IH. intros Hin; apply Hnot; right; exact Hin.
Qed.

Lemma bytes_find_skip (pre hdr rest : list byte) (b : byte) :
  b ∉ hdr ->
  bytes_find (pre ++ hdr ++ b :: rest) b (Z.of_nat (length pre))
  = Z.of_nat (length pre) + Z.of_nat (length hdr).
Proof.
  intros Hnot. unfold bytes_find. rewrite norm_index_nonneg by lia. rewrite length_app.
  replace (Nat.min (Z.to_nat (Z.of_nat (length pre))) _) with (length pre) by lia.
  rewrite drop_app_length. apply find_at_skip, Hnot.
Qed.

Lemma bytes_find_past (data : list byte) (b : byte) (i : Z) :
  Z.of_nat (length data) <= i -> bytes_find data b i = -1.
Proof.
  intros H. unfold bytes_find. rewrite norm_index_nonneg by lia.
  rewrite drop_ge by lia. reflexivity.
Qed.

Lemma slice_after {A} (pre rest : list A) (k : nat) :
  slice (pre ++ rest) (Z.of_nat (length pre)) (Z.of_nat (length pre) + Z.of_nat k)
  = take k rest.
Proof.
  unfold slice. rewrite !norm_index_nonneg by lia. rewrite length_app.
  replace (Nat.min (Z.to_nat (Z.of_nat (length pre))) _) with (length pre) by lia.
  rewrite drop_app_length.
  destruct (Nat.le_gt_cases k (length rest)).
  - f_equal. lia.
  - rewrite !take_ge by lia. reflexivity.
Qed.

(** ** The tree reader *)

(** One iteration on a record: the header in front of the first NUL, then
    at most 20 bytes of digest. *)
Lemma read_tree_loop_record (n : nat) (pre hdr rest : list byte) (es : list tree_entry) :
  NUL ∉ hdr ->
  read_tree_loop (S n) (pre ++ hdr ++ NUL :: rest) (Z.of_nat (length pre)) es =
    match tree_header hdr with
    | inl e => inl e
    | inr (mode, path) =>
        read_tree_loop n (pre ++ hdr ++ NUL :: rest)
          (Z.of_nat (length pre) + Z.of_nat (length hdr) + 21)
          (es ++ [(mode, path, hex (take 20 rest))])
    end.
Proof.
  intros Hnul. cbn [read_tree_loop].
  rewrite bytes_find_skip by exact Hnul.
  destruct (Z.eqb_spec (Z.of_nat (length pre) + Z.of_nat (length hdr)) (-1)) as [E|_]; [lia|].
  rewrite slice_middle. unfold tree_header.
  destruct (utf8_decode hdr) as [e|h]; [reflexivity|]. cbn [bind].
  destruct (unpack2 (py_split h)) as [e|[mode_str path]]; [reflexivity|]. cbn [bind].
  destruct (py_int 8 mode_str) as [e|mode]; [reflexivity|]. cbn [bind ret].
  assert (slice (pre ++ hdr ++ NUL :: rest)
            (Z.of_nat (length pre) + Z.of_nat (length hdr) + 1)
            (Z.of_nat (length pre) + Z.of_nat (length hdr) + 21) = take 20 rest) as ->.
  { replace (pre ++ hdr ++ NUL :: rest) with ((pre ++ hdr ++ [NUL]) ++ rest)
      by (rewrite <- !app_assoc; reflexivity).
    replace (Z.of_nat (length pre) + Z.of_nat (length hdr) + 1)
      with (Z.of_nat (length (pre ++ hdr ++ [NUL])))
      by (rewrite !length_app; cbn [length]; lia).
    replace (Z.of_nat (length pre) + Z.of_nat (length hdr) + 21)
      with (Z.of_nat (length (pre ++ hdr ++ [NUL])) + Z.of_nat 20)
      by (rewrite !length_app; cbn [length]; lia).
    apply slice_after. }
  f_equal. lia.
Qed.

(** The loop stops at once when no NUL is left. *)
Lemma read_tree_loop_stop (n : nat) (pre tail : list byte) (es : list tree_entry) :
  NUL ∉ tail ->
  read_tree_loop n (pre ++ tail) (Z.of_nat (length pre)) es = inr es.
Proof.
  intros Hnul. destruct n as [|n]; [reflexivity|]. cbn [read_tree_loop].
  unfold bytes_find. rewrite norm_index_nonneg by lia. rewrite length_app.
  replace (Nat.min (Z.to_nat (Z.of_nat (length pre))) _) with (length pre) by lia.
  rewrite drop_app_length, find_at_none by exact Hnul. reflexivity.
Qed.

Lemma read_tree_loop_past (n : nat) (data : list byte) (i : Z) (es : list tree_entry) :
  Z.of_nat (length data) <= i -> read_tree_loop n data i es = inr es.
Proof.
  intros H. destruct n as [|n]; [reflexivity|]. cbn [read_tree_loop].
  rewrite bytes_find_past by exact H. reflexivity.
Qed.

(** [n] iterations over a run of well-formed records consume the first [n]
    of them. *)
Lemma read_tree_loop_records (recs : list tree_record) :
  Forall tr_ok recs ->
  forall (n : nat) (pre tail : list byte) (es : list tree_entry),
  read_tree_loop n (pre ++ flat_map tr_bytes recs ++ tail) (Z.of_nat (length pre)) es =
  read_tree_loop (n - length recs) (pre ++ flat_map tr_bytes recs ++ tail)
    (Z.of_nat (length (pre ++ flat_map tr_bytes recs)))
    (es ++ map tr_entry (take n recs)).
Proof.
  induction 1 as [|r recs [Hnul [Hlen Hhdr]] Hrecs IH]; intros n pre tail es.
  - simpl. rewrite take_nil, !app_nil_r, Nat.sub_0_r. reflexivity.
  - destruct n as [|n].
    + simpl. rewrite app_nil_r. reflexivity.
    + cbn [flat_map]. unfold tr_bytes at 1 3 4.
      rewrite <- !app_assoc. cbn [app].
      rewrite (read_tree_loop_record n pre (tr_header r)) by exact Hnul.
      rewrite Hhdr, take_app_length' by (symmetry; exact Hlen).
      replace (pre ++ tr_header r ++ NUL :: tr_digest r ++ flat_map tr_bytes recs ++ tail)
        with ((pre ++ tr_bytes r) ++ flat_map tr_bytes recs ++ tail)
        by (unfold tr_bytes; rewrite <- !app_assoc; reflexivity).
      replace (Z.of_nat (length pre) + Z.of_nat (length (tr_header r)) + 21)
        with (Z.of_nat (length (pre ++ tr_bytes r)))
        by (unfold tr_bytes; rewrite !length_app; cbn [length]; lia).
      rewrite IH. rewrite <- !app_assoc. cbn [length Nat.sub take map app].
      do 2 f_equal.
      unfold tr_bytes. rewrite <- !app_assoc. reflexivity.
Qed.

Lemma read_tree_data (zd : list byte -> result (list byte)) (data : list byte) (st : fs) :
  read_tree zd None (Some data) st = read_tree_loop 1000 data 0 [].
Proof. reflexivity. Qed.

(** C6, as stated, fails: the header [100644 a b] cut at its first space
    is the mode 0o100644 (0x81A4) and the path [a b], but the reader
    raises ValueError, because [split()] yields three tokens. *)
Lemma read_tree_path_with_space :
  split_first_space (str "100644 a b") = Some (str "100644", str "a b")
  /\ utf8_decode (blit "100644 a b") = inr (str "100644 a b")
  /\ py_int 8 (str "100644") = inr 0x81A4
  /\ read_tree unstored None (Some (blit "100644 a b" ++ NUL :: repeat x00 20)) fresh_repo
     = inl (ValueError (UnpackCount 2 3))
  /\ read_tree unstored None (Some (blit "100644 a b" ++ NUL :: repeat x00 20)) fresh_repo
     <> inr [(0x81A4, str "a b", hex (repeat x00 20))].
Proof. repeat split; try (vm_compute; reflexivity). vm_compute. discriminate. Qed.

(** C6, amended: one iteration of the tree reader takes the bytes from the
    current offset to the next NUL, decodes them, cuts them at white space
    into exactly two tokens, the mode (read in base 8) and the path, and
    takes the at most 20 bytes after the NUL as the digest, returned in
    hexadecimal; any other number of tokens raises ValueError.  The empty
    payload gives no entry, and [100644 a.txt], NUL and twenty zero bytes
    give the one entry (0o100644, a.txt, forty zeros); 0o100644 is
    0x81A4. *)
Theorem read_tree_record_split :
  (forall (n : nat) (pre hdr rest : list byte) (es : list tree_entry),
      NUL ∉ hdr ->
      read_tree_loop (S n) (pre ++ hdr ++ NUL :: rest) (Z.of_nat (length pre)) es =
        match utf8_decode hdr with
        | inl e => inl e
        | inr h =>
            match py_split h with
            | [mode_str; path] =>
                match py_int 8 mode_str with
                | inl e => inl e
                | inr mode =>
                    read_tree_loop n (pre ++ hdr ++ NUL :: rest)
                      (Z.of_nat (length pre) + Z.of_nat (length hdr) + 21)
                      (es ++ [(mode, path, hex (take 20 rest))])
                end
            | toks => inl (ValueError (UnpackCount 2 (length toks)))
            end
        end)
  /\ (forall zd st, read_tree zd None (Some []) st = inr [])
  /\ (forall zd st,
        read_tree zd None (Some (blit "100644 a.txt" ++ NUL :: repeat x00 20)) st
        = inr [(0x81A4, str "a.txt", str "0000000000000000000000000000000000000000")]).
Proof.
  split; [|split].
  - intros n pre hdr rest es Hnul.
    rewrite read_tree_loop_record by exact Hnul. unfold tree_header.
    destruct (utf8_decode hdr) as [e|h]; [reflexivity|]. cbn [bind].
    destruct (py_split h) as [|t1 [|t2 [|t3 toks]]]; try reflexivity.
    cbn [unpack2 bind ret]. destruct (py_int 8 t1); reflexivity.
  - intros zd st. reflexivity.
  - intros zd st. rewrite read_tree_data. vm_compute. reflexivity.
Qed.

Lemma read_tree_record_split_witness :
  (NUL ∉ blit "100644 a.txt")
  /\ read_tree_loop 1 ([] ++ blit "100644 a.txt" ++ NUL :: repeat x01 20) 0 []
     = inr [(0x81A4, str "a.txt", hex (repeat x01 20))].
Proof.
  assert (Hnul : NUL ∉ blit "100644 a.txt").
  { nul_free. }
  split; [exact Hnul|].
  pose proof (proj1 read_tree_record_split 0%nat [] _ (repeat x01 20) [] Hnul) as H.
  change (Z.of_nat (length (@nil byte))) with 0 in H. rewrite H.
  vm_compute. reflexivity.
Defined.

Lemma read_tree_loop_payload (n : nat) (recs : list tree_record) (tail : list byte) :
  Forall tr_ok recs -> NUL ∉ tail ->
  read_tree_loop n (tree_payload recs ++ tail) 0 [] = inr (map tr_entry (take n recs)).
Proof.
  intros Hok Hnul.
  pose proof (read_tree_loop_records recs Hok n [] tail []) as H.
  cbn [app length] in H. change (Z.of_nat 0) with 0 in H. unfold tree_payload. rewrite H.
  replace (flat_map tr_bytes recs ++ tail) with ((flat_map tr_bytes recs) ++ tail) by reflexivity.
  apply read_tree_loop_stop, Hnul.
Qed.

Lemma sample_record_ok : tr_ok sample_record.
Proof.
  split; [|split]; [|reflexivity|vm_compute; reflexivity].
  nul_free.
Qed.

(** C7, as stated, fails: a payload of 1001 well-formed records, which a
    loop of 1001 iterations decodes to 1001 entries, is read without any
    error, and the result is the first 1000 entries only. *)
Lemma read_tree_truncates_silently :
  read_tree_loop 1001 big_tree_payload 0 [] = inr (repeat (tr_entry sample_record) 1001)
  /\ read_tree unstored None (Some big_tree_payload) fresh_repo
     = inr (repeat (tr_entry sample_record) 1000).
Proof.
  assert (Hok : Forall tr_ok (repeat sample_record 1001))
    by (apply Forall_forall; intros r Hr; apply list_elem_of_In, repeat_spec in Hr;
        subst r; apply sample_record_ok).
  assert (Hnil : NUL ∉ @nil byte) by apply not_elem_of_nil.
  split.
  - pose proof (read_tree_loop_payload 1001 _ [] Hok Hnil) as H.
    rewrite app_nil_r in H. fold big_tree_payload in H. rewrite H.
    rewrite take_ge by (rewrite repeat_length; lia).
    rewrite map_repeat. reflexivity.
  - rewrite read_tree_data.
    pose proof (read_tree_loop_payload 1000 _ [] Hok Hnil) as H.
    rewrite app_nil_r in H. fold big_tree_payload in H. rewrite H.
    change 1001%nat with (1000 + 1)%nat. rewrite repeat_app, take_app_length'
      by (rewrite repeat_length; reflexivity).
    rewrite map_repeat. reflexivity.
Qed.

(** The loop adds at most one entry per iteration. *)
Lemma read_tree_loop_bound (n : nat) (data : list byte) :
  forall (i : Z) (es es' : list tree_entry),
  read_tree_loop n data i es = inr es' -> (length es' <= length es + n)%nat.
Proof.
  induction n as [|n IH]; intros i es es' H; cbn [read_tree_loop] in H.
  - injection H as <-. lia.
  - destruct (bytes_find data NUL i =? -1); [injection H as <-; lia|].
    destruct (utf8_decode _) as [e|h]; [discriminate|]. cbn [bind] in H.
    destruct (unpack2 (py_split h)) as [e|[mode_str path]]; [discriminate|]. cbn [bind] in H.
    destruct (py_int 8 mode_str) as [e|mode]; [discriminate|]. cbn [bind] in H.
    apply IH in H. rewrite length_app in H. cbn [length] in H. lia.
Qed.

(** C7, amended: the tree reader makes at most 1000 iterations.  It never
    returns more than 1000 entries, and on a payload made of well-formed
    records (followed by bytes without a NUL) it returns the first 1000
    entries - all of them when there are no more than 1000 - and raises
    nothing. *)
Theorem read_tree_at_most_1000 (zd : list byte -> result (list byte)) (st : fs) :
  (forall (data : list byte) (es : list tree_entry),
      read_tree zd None (Some data) st = inr es -> (length es <= 1000)%nat)
  /\ (forall (recs : list tree_record) (tail : list byte),
        Forall tr_ok recs -> NUL ∉ tail ->
        read_tree zd None (Some (tree_payload recs ++ tail)) st
        = inr (map tr_entry (take 1000 recs))).
Proof.
  split.
  - intros data es H. rewrite read_tree_data in H.
    apply read_tree_loop_bound in H. exact H.
  - intros recs tail Hok Hnul. rewrite read_tree_data.
    apply read_tree_loop_payload; assumption.
Qed.

Lemma read_tree_at_most_1000_witness :
  read_tree unstored None
    (Some (tree_payload [sample_record; sample_record] ++ [])) fresh_repo
  = inr (map tr_entry (take 1000 [sample_record; sample_record]))
  /\ (length (map tr_entry (take 1000 [sample_record; sample_record])) <= 1000)%nat.
Proof.
  pose proof (proj2 (read_tree_at_most_1000 unstored fresh_repo)
                [sample_record; sample_record] []) as H.
  assert (read_tree unstored None
            (Some (tree_payload [sample_record; sample_record] ++ [])) fresh_repo
          = inr (map tr_entry (take 1000 [sample_record; sample_record]))) as Hread.
  { apply H; [repeat constructor; apply sample_record_ok | apply not_elem_of_nil]. }
  split; [exact Hread|].
  exact (proj1 (read_tree_at_most_1000 unstored fresh_repo) _ _ Hread).
Defined.

(** C10, as stated, fails: nothing follows the NUL of the payload that is
    the single byte NUL, and one byte follows the NUL in [100644 a b],
    NUL, 01; on both the reader raises ValueError and returns no entry,
    because the text in front of the NUL is not cut into two tokens.  In
    a payload of 1000 well-formed records and one more header with three
    bytes after its NUL, the last record is not returned either. *)
Lemma read_tree_short_digest_raises :
  read_tree unstored None (Some [NUL]) fresh_repo = inl (ValueError (UnpackCount 2 0))
  /\ read_tree unstored None (Some (blit "100644 a b" ++ [NUL; x01])) fresh_repo
     = inl (ValueError (UnpackCount 2 3))
  /\ read_tree unstored None
       (Some (tree_payload (repeat sample_record 1000)
              ++ blit "100644 ab" ++ NUL :: [x01; x02; x03])) fresh_repo
     = inr (map tr_entry (repeat sample_record 1000)).
Proof.
  split; [vm_compute; reflexivity|]. split; [vm_compute; reflexivity|].
  assert (Hok : Forall tr_ok (repeat sample_record 1000))
    by (apply Forall_forall; intros r Hr; apply list_elem_of_In, repeat_spec in Hr;
        subst r; apply sample_record_ok).
  rewrite read_tree_data.
  pose proof (read_tree_loop_records _ Hok 1000 []
                (blit "100644 ab" ++ NUL :: [x01; x02; x03]) []) as H.
  rewrite repeat_length, Nat.sub_diag in H.
  rewrite take_ge in H by (rewrite repeat_length; lia).
  exact H.
Qed.

(** C10, amended: when fewer than 20 bytes follow the NUL that ends a
    record header which the reader cuts into a mode and a path (the
    records before it well formed, fewer than 1000 of them), the tree
    reader returns, after their entries, an entry whose digest is the
    hexadecimal form of the bytes that remain, and raises nothing. *)
Theorem read_tree_short_digest (zd : list byte -> result (list byte)) (st : fs)
    (recs : list tree_record) (hdr tail : list byte) (mode : Z) (path : list N) :
  Forall tr_ok recs -> (length recs < 1000)%nat ->
  NUL ∉ hdr -> tree_header hdr = inr (mode, path) ->
  (length tail < 20)%nat ->
  read_tree zd None (Some (tree_payload recs ++ hdr ++ NUL :: tail)) st
  = inr (map tr_entry recs ++ [(mode, path, hex tail)]).
Proof.
  intros Hok Hlen Hnul Hhdr Htail. rewrite read_tree_data.
  pose proof (read_tree_loop_records recs Hok 1000 [] (hdr ++ NUL :: tail) []) as H.
  cbn [app length] in H. change (Z.of_nat 0) with 0 in H. unfold tree_payload. rewrite H.
  destruct (1000 - length recs)%nat as [|m] eqn:Hm; [lia|].
  rewrite take_ge by lia.
  rewrite (read_tree_loop_record m (flat_map tr_bytes recs) hdr tail) by exact Hnul.
  rewrite Hhdr, take_ge by lia.
  apply read_tree_loop_past. rewrite !length_app. cbn [length]. lia.
Qed.

Lemma read_tree_short_digest_witness :
  read_tree unstored None
    (Some (tree_payload [sample_record] ++ blit "100644 ab" ++ NUL :: [x01; x02; x03]))
    fresh_repo
  = inr (map tr_entry [sample_record] ++ [(0x81A4, str "ab", hex [x01; x02; x03])]).
Proof.
  apply (read_tree_short_digest unstored fresh_repo [sample_record]).
  - repeat constructor; apply sample_record_ok.
  - simpl; lia.
  - nul_free.
  - vm_compute. reflexivity.
  - simpl; lia.
Defined.

(** ** The index reader *)

Lemma be_bytes_length (k : nat) (x : N) : length (be_bytes k x) = k.
Proof. induction k as [|k IH]; simpl; [reflexivity | rewrite IH; reflexivity]. Qed.

Lemma sha1_digest_length (data : list byte) : length (sha1_digest data) = 20%nat.
Proof.
  unfold sha1_digest, SHA1.digest.
  destruct (fold_left _ _ _) as [[[[h0 h1] h2] h3] h4].
  rewrite !length_app, !be_bytes_length. reflexivity.
Qed.

(** The checksum assertion compares the 20-byte digest with [data[:-20]],
    so it can only hold for a file of 40 bytes. *)
Lemma read_index_bytes_checksum (data : list byte) :
  length data <> 40%nat ->
  read_index_bytes data = Some (inl (AssertionError InvalidIndexChecksum)).
Proof.
  intros Hlen. unfold read_index_bytes.
  rewrite bool_decide_eq_false_2; [reflexivity|].
  intros Heq. apply (f_equal length) in Heq.
  rewrite sha1_digest_length, slice_to_length, norm_index_neg in Heq by lia.
  change (Z.to_nat (- -20)) with 20%nat in Heq. lia.
Qed.

Lemma read_index_file (st : fs) (data : list byte) :
  files st !! index_path = Some data -> read_index st = read_index_bytes data.
Proof. intros H. unfold read_index, read_file. rewrite H. reflexivity. Qed.

(** C8, as stated, fails: the empty index file is shorter than 32 bytes,
    and reading it raises the checksum assertion, not a truncation
    error. *)
Lemma read_index_empty_file :
  (length (@nil byte) < 32)%nat
  /\ read_index (repo_with_index []) = Some (inl (AssertionError InvalidIndexChecksum))
  /\ index_error_of (AssertionError InvalidIndexChecksum) <> Some TruncatedIndex.
Proof. split; [simpl; lia|]. split; [vm_compute; reflexivity | discriminate]. Qed.

(** A file of fewer than 20 bytes has no room for a checksum: [data[:-20]]
    is empty and [data[-20:]] is the whole file. *)
Lemma slices_of_short_file (data : list byte) :
  (length data < 20)%nat -> slice_to data (-20) = [] /\ slice_from data (-20) = data.
Proof.
  intros Hlen. unfold slice_to, slice_from. rewrite norm_index_neg by lia.
  replace (length data - Z.to_nat (- -20))%nat with 0%nat by lia.
  split; reflexivity.
Qed.

(** C8, amended: an index file shorter than 20 bytes is rejected with the
    error of the checksum assertion (invalid index checksum).  The reader
    never looks at the length of the file, and such a file has no room
    for the 20 bytes of a checksum: the digest is taken over the empty
    [data[:-20]], and the last bytes [data[-20:]], the whole file, are
    not this digest either. *)
Theorem read_index_short (st : fs) (data : list byte) :
  files st !! index_path = Some data ->
  (length data < 20)%nat ->
  read_index st = Some (inl (AssertionError InvalidIndexChecksum))
  /\ slice_to data (-20) = []
  /\ slice_from data (-20) <> sha1_digest (slice_to data (-20)).
Proof.
  intros Hfile Hlen. destruct (slices_of_short_file data Hlen) as [Hto Hfrom].
  split; [|split; [exact Hto|]].
  - rewrite (read_index_file st data Hfile). unfold read_index_bytes.
    rewrite bool_decide_eq_false_2; [reflexivity|].
    rewrite Hto. intros Heq. apply (f_equal length) in Heq.
    rewrite sha1_digest_length in Heq. discriminate Heq.
  - rewrite Hfrom. intros Heq. apply (f_equal length) in Heq.
    rewrite sha1_digest_length in Heq. lia.
Qed.

Lemma read_index_short_witness :
  read_index (repo_with_index (blit "DIRC")) = Some (inl (AssertionError InvalidIndexChecksum))
  /\ slice_to (blit "DIRC") (-20) = []
  /\ slice_from (blit "DIRC") (-20) <> sha1_digest (slice_to (blit "DIRC") (-20)).
Proof.
  apply (read_index_short (repo_with_index (blit "DIRC")) (blit "DIRC")).
  - apply lookup_insert_eq.
  - vm_compute. lia.
Defined.

(** C2: the last 20 bytes of [empty_index] are the SHA-1 of the bytes in
    front of them, and [read_index] rejects the file with the checksum
    assertion all the same. *)
Theorem read_index_rejects_valid_checksum :
  slice_from empty_index (-20) = sha1_digest (slice_to empty_index (-20))
  /\ read_index (repo_with_index empty_index)
     = Some (inl (AssertionError InvalidIndexChecksum)).
Proof. split; vm_compute; reflexivity. Qed.

Lemma index_header_length (n : N) : length (index_header n) = 12%nat.
Proof. unfold index_header. rewrite !length_app, !be_bytes_length. reflexivity. Qed.

Lemma index_file_length (recs : list index_record) :
  length (index_file recs) = (32 + length (entry_region recs))%nat.
Proof.
  unfold index_file. rewrite !length_app, sha1_digest_length, index_header_length. lia.
Qed.

Example empty_index_file : empty_index = index_file [].
Proof. vm_compute. reflexivity. Qed.




Lemma byte_val_of_N (n : N) : byte_val (byte_of_N n) = (n mod 256)%N.
Proof.
  unfold byte_val, byte_of_N.
  assert (n mod 256 < 256)%N as Hlt by (apply N.mod_lt; discriminate).
  destruct (Byte.of_N (n mod 256)) as [b|] eqn:E.
  - apply Byte.to_of_N in E. exact E.
  - apply Byte.of_N_None_iff in E. lia.
Qed.

Lemma be_val_be_bytes_4 (x : N) : (x < 2 ^ 32)%N -> be_val (be_bytes 4 x) = x.
Proof.
  intros Hx. unfold be_val. cbn [be_bytes fold_left].
  rewrite !byte_val_of_N, !N.shiftr_div_pow2.
  change (2 ^ (8 * N.of_nat 3))%N with 16777216%N.
  change (2 ^ (8 * N.of_nat 2))%N with 65536%N.
  change (2 ^ (8 * N.of_nat 1))%N with 256%N.
  change (2 ^ (8 * N.of_nat 0))%N with 1%N.
  change (2 ^ 32)%N with 4294967296%N in Hx.
  zify. Z.to_euclidean_division_equations. lia.
Qed.

Lemma be_val_be_bytes_2 (x : N) : (x < 2 ^ 16)%N -> be_val (be_bytes 2 x) = x.
Proof.
  intros Hx. unfold be_val. cbn [be_bytes fold_left].
  rewrite !byte_val_of_N, !N.shiftr_div_pow2.
  change (2 ^ (8 * N.of_nat 1))%N with 256%N.
  change (2 ^ (8 * N.of_nat 0))%N with 1%N.
  change (2 ^ 16)%N with 65536%N in Hx.
  zify. Z.to_euclidean_division_equations. lia.
Qed.

(** The length of a record is the least multiple of 8 that leaves room for
    the 62 fixed bytes, the path and one NUL. *)
Lemma entry_len_spec (path_len : Z) :
  0 <= path_len ->
  entry_len path_len mod 8 = 0
  /\ 62 + path_len + 1 <= entry_len path_len <= 62 + path_len + 8.
Proof. intros H. unfold entry_len. Z.to_euclidean_division_equations. lia. Qed.

Lemma ir_fixed_length (e : INDEXENTRY.t) :
  length (INDEXENTRY.sha1 e) = 20%nat -> length (ir_fixed e) = 62%nat.
Proof.
  intros H. unfold ir_fixed. rewrite !length_app, !be_bytes_length, H. reflexivity.
Qed.

Lemma unpack_fields_fixed (e : INDEXENTRY.t) :
  fields_ok e ->
  exists fields, unpack_fields (ir_fixed e) = inr fields /\ fields (INDEXENTRY.path e) = e.
Proof.
  intros [(H0 & H1 & H2 & H3 & H4 & H5 & H6 & H7 & H8 & H9 & Hf) Hsha].
  unfold unpack_fields. rewrite (ir_fixed_length e Hsha). cbn [Nat.eqb].
  eexists. split; [reflexivity|].
  assert (forall pre mid post : list byte,
             take (length mid) (drop (length pre) (pre ++ mid ++ post)) = mid) as Hfield.
  { intros pre mid post. rewrite drop_app_length. apply take_app_length. }
  assert (forall (n m : nat) (pre mid post : list byte),
             length pre = n -> length mid = m ->
             take m (drop n (pre ++ mid ++ post)) = mid) as Hfield'.
  { intros n m pre mid post <- <-. apply Hfield. }
  assert (forall (k : nat) (x : N) (pre post : list byte),
             length pre = (4 * k)%nat -> (x < 2 ^ 32)%N ->
             be_val (take 4 (drop (4 * k) (pre ++ be_bytes 4 x ++ post))) = x) as HL.
  { intros k x pre post Hpre Hx. rewrite <- Hpre.
    rewrite <- (be_bytes_length 4 x) at 1. rewrite Hfield. apply be_val_be_bytes_4, Hx. }
  destruct e as [a0 a1 a2 a3 a4 a5 a6 a7 a8 a9 sha fl p].
  unfold ir_fixed; cbn [INDEXENTRY.ctime_s INDEXENTRY.ctime_n INDEXENTRY.mtime_s
    INDEXENTRY.mtime_n INDEXENTRY.dev INDEXENTRY.ino INDEXENTRY.mode INDEXENTRY.uid
    INDEXENTRY.gid INDEXENTRY.size INDEXENTRY.sha1 INDEXENTRY.flags INDEXENTRY.path] in *.
  set (b0 := be_bytes 4 a0). set (b1 := be_bytes 4 a1).
  set (b2 := be_bytes 4 a2). set (b3 := be_bytes 4 a3).
  set (b4 := be_bytes 4 a4). set (b5 := be_bytes 4 a5).
  set (b6 := be_bytes 4 a6). set (b7 := be_bytes 4 a7).
  set (b8 := be_bytes 4 a8). set (b9 := be_bytes 4 a9).
  set (bf := be_bytes 2 fl).
  assert (length b0 = 4 /\ length b1 = 4 /\ length b2 = 4 /\ length b3 = 4
          /\ length b4 = 4 /\ length b5 = 4 /\ length b6 = 4 /\ length b7 = 4
          /\ length b8 = 4 /\ length b9 = 4 /\ length bf = 2)%nat
    as (L0 & L1 & L2 & L3 & L4 & L5 & L6 & L7 & L8 & L9 & Lf)
    by (repeat split; apply be_bytes_length).
  f_equal. f_equal.
  - apply (HL 0%nat a0 [] _ eq_refl H0).
  - apply (HL 1%nat a1 b0); [exact L0 | exact H1].
  - rewrite (app_assoc b0). apply (HL 2%nat a2); [rewrite !length_app; lia | exact H2].
  - rewrite (app_assoc b0), (app_assoc (b0 ++ b1)).
    apply (HL 3%nat a3); [rewrite !length_app; lia | exact H3].
  - rewrite (app_assoc b0), (app_assoc (b0 ++ b1)), (app_assoc ((b0 ++ b1) ++ b2)).
    apply (HL 4%nat a4); [rewrite !length_app; lia | exact H4].
  - rewrite (app_assoc b0), (app_assoc (b0 ++ b1)), (app_assoc ((b0 ++ b1) ++ b2)),
      (app_assoc (((b0 ++ b1) ++ b2) ++ b3)).
    apply (HL 5%nat a5); [rewrite !length_app; lia | exact H5].
  - rewrite (app_assoc b0), (app_assoc (b0 ++ b1)), (app_assoc ((b0 ++ b1) ++ b2)),
      (app_assoc (((b0 ++ b1) ++ b2) ++ b3)), (app_assoc ((((b0 ++ b1) ++ b2) ++ b3) ++ b4)).
    apply (HL 6%nat a6); [rewrite !length_app; lia | exact H6].
  - rewrite (app_assoc b0), (app_assoc (b0 ++ b1)), (app_assoc ((b0 ++ b1) ++ b2)),
      (app_assoc (((b0 ++ b1) ++ b2) ++ b3)), (app_assoc ((((b0 ++ b1) ++ b2) ++ b3) ++ b4)),
      (app_assoc (((((b0 ++ b1) ++ b2) ++ b3) ++ b4) ++ b5)).
    apply (HL 7%nat a7); [rewrite !length_app; lia | exact H7].
  - rewrite (app_assoc b0), (app_assoc (b0 ++ b1)), (app_assoc ((b0 ++ b1) ++ b2)),
      (app_assoc (((b0 ++ b1) ++ b2) ++ b3)), (app_assoc ((((b0 ++ b1) ++ b2) ++ b3) ++ b4)),
      (app_assoc (((((b0 ++ b1) ++ b2) ++ b3) ++ b4) ++ b5)),
      (app_assoc ((((((b0 ++ b1) ++ b2) ++ b3) ++ b4) ++ b5) ++ b6)).
    apply (HL 8%nat a8); [rewrite !length_app; lia | exact H8].
  - rewrite (app_assoc b0), (app_assoc (b0 ++ b1)), (app_assoc ((b0 ++ b1) ++ b2)),
      (app_assoc (((b0 ++ b1) ++ b2) ++ b3)), (app_assoc ((((b0 ++ b1) ++ b2) ++ b3) ++ b4)),
      (app_assoc (((((b0 ++ b1) ++ b2) ++ b3) ++ b4) ++ b5)),
      (app_assoc ((((((b0 ++ b1) ++ b2) ++ b3) ++ b4) ++ b5) ++ b6)),
      (app_assoc (((((((b0 ++ b1) ++ b2) ++ b3) ++ b4) ++ b5) ++ b6) ++ b7)).
    apply (HL 9%nat a9); [rewrite !length_app; lia | exact H9].
  - rewrite !app_assoc. rewrite <- (app_assoc _ sha bf).
    apply Hfield'; [rewrite !length_app; lia | exact Hsha].
  - rewrite !app_assoc.
    rewrite drop_app_length' by (rewrite !length_app; lia).
    rewrite take_ge by lia.
    apply be_val_be_bytes_2, Hf.
Qed.

Lemma ir_bytes_length (r : index_record) :
  fields_ok (ir_entry r) ->
  length (ir_bytes r) = (62 + length (ir_path r) + 1 + length (ir_pad r))%nat.
Proof.
  intros [_ Hsha]. unfold ir_bytes.
  rewrite !length_app, (ir_fixed_length _ Hsha). cbn [length]. lia.
Qed.

(** One iteration of the loop on a well-formed record. *)
Lemma read_index_loop_record (fuel : nat) (pre post : list byte) (r : index_record)
    (es : list INDEXENTRY.t) :
  ir_ok r ->
  read_index_loop (S fuel) (pre ++ ir_bytes r ++ post) (Z.of_nat (length pre)) es
  = read_index_loop fuel (pre ++ ir_bytes r ++ post)
      (Z.of_nat (length (pre ++ ir_bytes r))) (es ++ [ir_entry r]).
Proof.
  intros (Hfields & Hnul & Hpath & Hlen).
  pose proof (ir_bytes_length r Hfields) as Hbytes.
  pose proof (ir_fixed_length _ (proj2 Hfields)) as Hfixed.
  cbn [read_index_loop].
  destruct (Z.ltb_spec (Z.of_nat (length pre) + 62)
              (Z.of_nat (length (pre ++ ir_bytes r ++ post)))) as [_|Hge];
    [|rewrite !length_app in Hge; lia].
  assert (pre ++ ir_bytes r ++ post
          = (pre ++ ir_fixed (ir_entry r)) ++ ir_path r ++ NUL :: (ir_pad r ++ post)) as Hdata.
  { unfold ir_bytes. rewrite <- !app_assoc. reflexivity. }
  assert (Z.of_nat (length pre) + 62 = Z.of_nat (length (pre ++ ir_fixed (ir_entry r)))) as Hoff.
  { rewrite length_app, Hfixed. lia. }
  assert (slice (pre ++ ir_bytes r ++ post) (Z.of_nat (length pre))
            (Z.of_nat (length pre) + 62) = ir_fixed (ir_entry r)) as ->.
  { unfold ir_bytes. rewrite <- !app_assoc.
    replace 62 with (Z.of_nat (length (ir_fixed (ir_entry r)))) by lia.
    apply slice_middle. }
  destruct (unpack_fields_fixed _ Hfields) as (fields & -> & Hentry).
  assert (bytes_index (pre ++ ir_bytes r ++ post) NUL (Z.of_nat (length pre) + 62)
          = inr (Z.of_nat (length pre) + 62 + Z.of_nat (length (ir_path r)))) as ->.
  { unfold bytes_index. rewrite Hdata, Hoff, bytes_find_skip by exact Hnul.
    destruct (Z.ltb_spec (Z.of_nat (length (pre ++ ir_fixed (ir_entry r)))
                          + Z.of_nat (length (ir_path r))) 0); [lia | reflexivity]. }
  assert (slice (pre ++ ir_bytes r ++ post) (Z.of_nat (length pre) + 62)
            (Z.of_nat (length pre) + 62 + Z.of_nat (length (ir_path r))) = ir_path r) as ->.
  { rewrite Hdata, Hoff. apply slice_middle. }
  rewrite Hpath. rewrite Hentry.
  f_equal. rewrite length_app. lia.
Qed.

Lemma read_index_loop_records (recs : list index_record) :
  Forall ir_ok recs ->
  forall (fuel : nat) (pre tail : list byte) (es : list INDEXENTRY.t),
  (length recs <= fuel)%nat ->
  (length tail < 63)%nat ->
  read_index_loop fuel (pre ++ entry_region recs ++ tail) (Z.of_nat (length pre)) es
  = Some (inr (es ++ map ir_entry recs)).
Proof.
  induction 1 as [|r recs Hr Hrecs IH]; intros fuel pre tail es Hfuel Htail.
  - cbn [entry_region flat_map app map]. rewrite app_nil_r.
    destruct fuel; cbn [read_index_loop];
      (destruct (Z.ltb_spec (Z.of_nat (length pre) + 62) (Z.of_nat (length (pre ++ tail))));
       [rewrite length_app in *; lia | reflexivity]).
  - destruct fuel as [|fuel]; [cbn [length] in Hfuel; lia|].
    cbn [entry_region flat_map]. rewrite <- app_assoc.
    rewrite read_index_loop_record by exact Hr.
    replace (pre ++ ir_bytes r ++ flat_map ir_bytes recs ++ tail)
      with ((pre ++ ir_bytes r) ++ entry_region recs ++ tail)
      by (unfold entry_region; rewrite <- !app_assoc; reflexivity).
    rewrite IH by (cbn [length] in Hfuel; lia).
    rewrite <- app_assoc. reflexivity.
Qed.

Lemma entry_len_positive (path_len : Z) : 0 <= path_len -> 64 <= entry_len path_len.
Proof. intros H. unfold entry_len. Z.to_euclidean_division_equations. lia. Qed.

(** The loop ends within [fuel] iterations as soon as [fuel] covers the
    bytes that remain. *)
Lemma read_index_loop_total (fuel : nat) (entry_data : list byte) :
  forall (i : Z) (es : list INDEXENTRY.t),
  Z.of_nat (length entry_data) - i <= Z.of_nat fuel + 62 ->
  exists r, read_index_loop fuel entry_data i es = Some r.
Proof.
  induction fuel as [|fuel IH]; intros i es Hfuel.
  - cbn [read_index_loop].
    destruct (Z.ltb_spec (i + 62) (Z.of_nat (length entry_data))); [lia | eauto].
  - cbn [read_index_loop].
    destruct (Z.ltb_spec (i + 62) (Z.of_nat (length entry_data))); [|eauto].
    destruct (unpack_fields _) as [e|fields]; [eauto|].
    destruct (bytes_index entry_data NUL (i + 62)) as [e|path_end]; [eauto|].
    destruct (utf8_decode _) as [e|p]; [eauto|].
    apply IH.
    pose proof (entry_len_positive
                  (Z.of_nat (length (slice entry_data (i + 62) path_end)))). lia.
Qed.

(** [read_index] always ends. *)
Lemma read_index_total (st : fs) : exists r, read_index st = Some r.
Proof.
  unfold read_index. destruct (read_file st index_path) as [e|data].
  - destruct e; eauto.
  - unfold read_index_bytes.
    destruct (py_assert _ InvalidIndexChecksum); [eauto|].
    destruct (unpack_4sLL _) as [e|[[sig ver] num]]; [eauto|].
    destruct (py_assert _ (InvalidIndexSignature sig)); [eauto|].
    destruct (py_assert _ (UnknownIndexVersion ver)); [eauto|].
    destruct (read_index_loop_total (length (slice data 12 (-20))) (slice data 12 (-20)) 0 [])
      as [r ->]; [lia|].
    destruct r as [e|entries]; [eauto|].
    destruct (py_assert _ _); eauto.
Qed.

Lemma entry_region_length (recs : list index_record) :
  Forall ir_ok recs -> (length recs <= length (entry_region recs))%nat.
Proof.
  induction 1 as [|r recs (Hfields & _) _ IH]; [reflexivity|].
  unfold entry_region in *. cbn [flat_map length].
  rewrite length_app, (ir_bytes_length r Hfields). lia.
Qed.

Lemma slice_entry_data (header region trailer : list byte) :
  length header = 12%nat -> length trailer = 20%nat ->
  slice (header ++ region ++ trailer) 12 (-20) = region.
Proof.
  intros Hh Ht. unfold slice.
  rewrite (norm_index_nonneg _ 12), (norm_index_neg _ (-20)) by lia.
  rewrite !length_app, Hh, Ht.
  change (Z.to_nat 12) with 12%nat. change (Z.to_nat (- -20)) with 20%nat.
  replace (Nat.min 12 (12 + (length region + 20))) with 12%nat by lia.
  rewrite drop_app_length' by (symmetry; exact Hh).
  replace (12 + (length region + 20) - 20 - 12)%nat with (length region) by lia.
  apply take_app_length.
Qed.

Lemma sample_index_record_ok : ir_ok sample_index_record.
Proof.
  split; [|split; [|split]].
  - split; [|reflexivity]. vm_compute. repeat split; reflexivity.
  - nul_free.
  - vm_compute. reflexivity.
  - vm_compute. reflexivity.
Qed.

(** What the slices of [read_index] are on an index file: the bytes that
    are hashed, the trailer, the header and the entry region. *)
Lemma index_file_slices (recs : list index_record) :
  slice_to (index_file recs) (-20)
  = index_header (N.of_nat (length recs)) ++ entry_region recs
  /\ slice_from (index_file recs) (-20)
     = sha1_digest (index_header (N.of_nat (length recs)) ++ entry_region recs)
  /\ slice_to (index_file recs) 12 = index_header (N.of_nat (length recs))
  /\ slice (index_file recs) 12 (-20) = entry_region recs.
Proof.
  pose proof (index_header_length (N.of_nat (length recs))) as Hh.
  pose proof (sha1_digest_length
                (index_header (N.of_nat (length recs)) ++ entry_region recs)) as Hd.
  pose proof (index_file_length recs) as Hlen.
  assert (norm_index (length (index_file recs)) (-20)
          = length (index_header (N.of_nat (length recs)) ++ entry_region recs)) as Hcut.
  { rewrite norm_index_neg by lia. rewrite Hlen, length_app, Hh.
    change (Z.to_nat (- -20)) with 20%nat. lia. }
  split; [|split; [|split]].
  - unfold slice_to. rewrite Hcut. apply take_app_length.
  - unfold slice_from. rewrite Hcut. apply drop_app_length.
  - unfold slice_to. rewrite norm_index_nonneg by lia. rewrite Hlen.
    change (Z.to_nat 12) with 12%nat.
    replace (Nat.min 12 (32 + length (entry_region recs))) with 12%nat by lia.
    unfold index_file. rewrite <- app_assoc. apply take_app_length'. exact Hh.
  - unfold index_file. rewrite <- app_assoc. apply slice_entry_data; assumption.
Qed.

(** [struct.unpack] on the header of an index file returns the signature,
    the version and the number of entries. *)
Lemma unpack_index_header (n : N) :
  (n < 2 ^ 32)%N -> unpack_4sLL (index_header n) = inr (blit "DIRC", 2%N, n).
Proof.
  intros Hn. unfold unpack_4sLL. rewrite index_header_length. cbn [Nat.eqb].
  unfold ret. do 2 f_equal.
  change (take 4 (drop 8 (index_header n))) with (be_bytes 4 n).
  apply be_val_be_bytes_4, Hn.
Qed.

(** An entry region of well-formed records is empty or has 64 bytes or
    more. *)
Lemma entry_region_not_8 (recs : list index_record) :
  Forall ir_ok recs -> length (entry_region recs) <> 8%nat.
Proof.
  intros Hok. destruct Hok as [|r recs (Hfields & _) _]; [discriminate|].
  unfold entry_region. cbn [flat_map]. rewrite length_app, (ir_bytes_length r Hfields). lia.
Qed.

(** The loop only adds entries to the ones it has. *)
Lemma read_index_loop_extends (fuel : nat) (entry_data : list byte) :
  forall (i : Z) (es es' : list INDEXENTRY.t),
  read_index_loop fuel entry_data i es = Some (inr es') ->
  (i + 62 < Z.of_nat (length entry_data) -> (length es < length es')%nat)
  /\ (length es <= length es')%nat.
Proof.
  induction fuel as [|fuel IH]; intros i es es' H; cbn [read_index_loop] in H;
    destruct (Z.ltb_spec (i + 62) (Z.of_nat (length entry_data))) as [Hlt|Hge];
    try discriminate H;
    try (injection H as <-; split; [lia | reflexivity]).
  destruct (unpack_fields _) as [e|fields]; [discriminate H|].
  destruct (bytes_index entry_data NUL (i + 62)) as [e|path_end]; [discriminate H|].
  destruct (utf8_decode _) as [e|p]; [discriminate H|].
  apply IH in H as [_ H]. rewrite length_app in H. cbn [length] in H. lia.
Qed.

(** The loop stops, with the entries it has, exactly when fewer than 63
    bytes remain. *)
Lemma read_index_loop_stops (fuel : nat) (entry_data : list byte) (i : Z)
    (es : list INDEXENTRY.t) :
  read_index_loop fuel entry_data i es = Some (inr es)
  <-> Z.of_nat (length entry_data) - i < 63.
Proof.
  split.
  - intros H. apply read_index_loop_extends in H as [H _].
    destruct (Z.lt_ge_cases (i + 62) (Z.of_nat (length entry_data))) as [Hlt|Hge]; [|lia].
    specialize (H Hlt). lia.
  - intros H.
    destruct fuel; cbn [read_index_loop];
      (destruct (Z.ltb_spec (i + 62) (Z.of_nat (length entry_data))); [lia | reflexivity]).
Qed.

(** C5: the entry walk of [read_index] is written as the claim says, and
    no index file reaches it.  For the index file of any well-formed
    records (62 fixed big-endian bytes, a NUL-terminated path, padding up
    to [entry_len]): the trailer is the SHA-1 of the bytes before it, the
    header unpacks to DIRC, version 2 and the number of records, the
    bytes between the 12-byte header and the 20-byte trailer are the
    records, and the loop of lines 62 to 73 run on them returns their
    entries in order; yet [read_index] raises the checksum assertion on
    this file.  The loop itself rounds each record up to [entry_len],
    the least multiple of 8 with room for the fixed bytes, the path and
    one NUL, and it stops exactly when fewer than 63 bytes remain. *)
Theorem read_index_walk_unreached (st : fs) (recs : list index_record) :
  Forall ir_ok recs ->
  (N.of_nat (length recs) < 2 ^ 32)%N ->
  files st !! index_path = Some (index_file recs) ->
  slice_from (index_file recs) (-20) = sha1_digest (slice_to (index_file recs) (-20))
  /\ unpack_4sLL (slice_to (index_file recs) 12)
     = inr (blit "DIRC", 2%N, N.of_nat (length recs))
  /\ slice (index_file recs) 12 (-20) = entry_region recs
  /\ read_index_loop (length (entry_region recs)) (entry_region recs) 0 []
     = Some (inr (map ir_entry recs))
  /\ read_index st = Some (inl (AssertionError InvalidIndexChecksum))
  /\ (forall path_len : Z,
        0 <= path_len ->
        entry_len path_len mod 8 = 0
        /\ 62 + path_len + 1 <= entry_len path_len <= 62 + path_len + 8)
  /\ (forall (fuel : nat) (entry_data : list byte) (i : Z) (es : list INDEXENTRY.t),
        read_index_loop fuel entry_data i es = Some (inr es)
        <-> Z.of_nat (length entry_data) - i < 63).
Proof.
  intros Hok Hcount Hfile.
  destruct (index_file_slices recs) as (Hto & Hfrom & Hhead & Hregion).
  split; [rewrite Hto; exact Hfrom|].
  split; [rewrite Hhead; apply unpack_index_header, Hcount|].
  split; [exact Hregion|].
  split.
  { pose proof (read_index_loop_records recs Hok (length (entry_region recs)) [] [] []
                  (entry_region_length recs Hok)) as H.
    rewrite app_nil_r in H. apply H. cbn [length]. lia. }
  split.
  { rewrite (read_index_file st _ Hfile). apply read_index_bytes_checksum.
    rewrite index_file_length. pose proof (entry_region_not_8 recs Hok). lia. }
  split; [exact entry_len_spec | exact read_index_loop_stops].
Qed.

Lemma read_index_walk_unreached_witness :
  read_index_loop (length (entry_region [sample_index_record]))
    (entry_region [sample_index_record]) 0 []
  = Some (inr [sample_entry])
  /\ read_index (repo_with_index (index_file [sample_index_record]))
     = Some (inl (AssertionError InvalidIndexChecksum)).
Proof.
  destruct (read_index_walk_unreached (repo_with_index (index_file [sample_index_record]))
              [sample_index_record]) as (_ & _ & _ & Hloop & Hread & _).
  - repeat constructor; apply sample_index_record_ok.
  - vm_compute. reflexivity.
  - apply lookup_insert_eq.
  - split; [exact Hloop | exact Hread].
Defined.

(** ** The object store: looking objects up *)

(** The outcome of [find_object] when the directory of the prefix can be
    listed: not found without a match, the path with one match, the count
    with more. *)
Lemma find_object_listed (sha1_prefix : list N) (st : fs) (names : list (list N)) :
  (2 <= length sha1_prefix)%nat ->
  listdir st (shard_dir sha1_prefix) = inr names ->
  find_object sha1_prefix st =
    match List.filter (fun name => startswith name (slice_from sha1_prefix 2)) names with
    | [] => inl (ValueError (ObjectNotFound sha1_prefix))
    | [name] => inr (join (shard_dir sha1_prefix) [name])
    | objects => inl (ValueError (MultipleObjects (length objects) sha1_prefix))
    end.
Proof.
  intros Hlen Hls. unfold find_object.
  destruct (Nat.ltb_spec (length sha1_prefix) 2) as [|_]; [lia|].
  fold (shard_dir sha1_prefix). rewrite Hls. cbn [bind].
  destruct (List.filter _ names) as [|n1 [|n2 l]]; reflexivity.
Qed.

(** When the directory of the prefix does not exist, [find_object] raises
    the FileNotFoundError of [os.listdir], not a ValueError. *)
Lemma find_object_no_shard (sha1_prefix : list N) (st : fs) :
  (2 <= length sha1_prefix)%nat ->
  path_exists st (shard_dir sha1_prefix) = false ->
  find_object sha1_prefix st = inl (FileNotFoundError (shard_dir sha1_prefix)).
Proof.
  intros Hlen Hex. unfold find_object.
  destruct (Nat.ltb_spec (length sha1_prefix) 2) as [|_]; [lia|].
  fold (shard_dir sha1_prefix). unfold listdir.
  unfold path_exists in Hex. apply orb_false_iff in Hex as [-> ->]. reflexivity.
Qed.

(** C3: in a store that holds one blob, whose digest starts with b6fc,
    the prefix b6fc resolves to the object, and the prefix zz, which no
    stored digest matches, raises FileNotFoundError instead of the
    ValueError of an object that is not found. *)
Theorem find_object_missing_shard :
  read_object unstored (str "b6fc") hello_store = inr (str "blob", blit "hello")
  /\ find_object (str "zz") hello_store = inl (FileNotFoundError (str ".git/objects/zz"))
  /\ read_object unstored (str "zz") hello_store
     = inl (FileNotFoundError (str ".git/objects/zz"))
  /\ find_object (str "zz") hello_store <> inl (ValueError (ObjectNotFound (str "zz"))).
Proof. repeat split; try (vm_compute; reflexivity). vm_compute. discriminate. Qed.

(** ** The object store: writing objects *)

Lemma mkdir_files (p : list N) (st : fs) : files (snd (mkdir p st)) = files st.
Proof.
  unfold mkdir. destruct (path_exists st p); [reflexivity|].
  destruct (parent_error st p); reflexivity.
Qed.

Lemma mkdir_dirs (p : list N) (st : fs) : dirs st ⊆ dirs (snd (mkdir p st)).
Proof.
  unfold mkdir. destruct (path_exists st p); [reflexivity|].
  destruct (parent_error st p); cbn [snd dirs]; set_solver.
Qed.

(** Creating directories changes no file and removes no directory. *)
Lemma makedirs_fuel_keeps (fuel : nat) :
  forall (name : list N) (st : fs),
  files (snd (makedirs_fuel fuel name st)) = files st
  /\ dirs st ⊆ dirs (snd (makedirs_fuel fuel name st)).
Proof.
  induction fuel as [|fuel IHfuel]; intros name st; [split; reflexivity|].
  assert (forall st1, files st1 = files st -> dirs st ⊆ dirs st1 ->
            let r := match mkdir name st1 with
                     | (inl e, st2) => if isdir st2 name then (ret tt, st2) else (raise e, st2)
                     | r => r
                     end in
            files (snd r) = files st /\ dirs st ⊆ dirs (snd r)) as Hgo.
  { intros st1 Hf Hd. pose proof (mkdir_files name st1) as Hf1.
    pose proof (mkdir_dirs name st1) as Hd1.
    destruct (mkdir name st1) as [[e|u] st2]; cbn [snd] in *.
    - destruct (isdir st2 name); cbn [snd];
        (split; [congruence | by transitivity (dirs st1)]).
    - split; [congruence | by transitivity (dirs st1)]. }
  cbn [makedirs_fuel]. unfold makedirs_body.
  destruct (path_split name) as [head0 tail0].
  destruct (match tail0 with [] => path_split head0 | _ :: _ => (head0, tail0) end)
    as [head tail].
  destruct head as [|h head']; [apply Hgo; reflexivity|].
  destruct tail as [|t tail']; [apply Hgo; reflexivity|].
  destruct (path_exists st (h :: head')); [apply Hgo; reflexivity|].
  destruct (IHfuel (h :: head') st) as [Hf Hd].
  destruct (makedirs_fuel fuel (h :: head') st) as [[e|u] st1]; cbn [snd] in Hf, Hd.
  - destruct e; try (split; [exact Hf|exact Hd]).
    destruct (decide (t :: tail' = [46%N])); [split; [exact Hf|exact Hd]|].
    apply Hgo; assumption.
  - destruct (decide (t :: tail' = [46%N])); [split; [exact Hf|exact Hd]|].
    apply Hgo; assumption.
Qed.

Lemma take_while_length {A} (p : A -> bool) (l : list A) :
  (length (take_while p l) <= length l)%nat.
Proof.
  induction l as [|x l IH]; cbn [take_while length]; [lia|].
  destruct (p x); cbn [length]; lia.
Qed.

Lemma drop_while_length {A} (p : A -> bool) (l : list A) :
  (length (drop_while p l) <= length l)%nat.
Proof.
  induction l as [|x l IH]; cbn [drop_while length]; [lia|].
  destruct (p x); cbn [length]; lia.
Qed.

(** Head and tail of a path are parts of it. *)
Lemma path_split_length (p : list N) :
  (length (fst (path_split p)) + length (snd (path_split p)) <= length p)%nat.
Proof.
  unfold path_split. cbn [fst snd].
  set (tail := rev (take_while (fun c => negb (is_slash c)) (rev p))).
  assert (length tail <= length p)%nat as Htail.
  { unfold tail. rewrite length_rev.
    etransitivity; [apply take_while_length|]. rewrite length_rev. lia. }
  assert (length (take (length p - length tail) p) <= length p - length tail)%nat as Hhead
    by (rewrite length_take; lia).
  destruct (forallb is_slash _); [lia|].
  unfold rstrip_slash. rewrite length_rev.
  pose proof (drop_while_length is_slash (rev (take (length p - length tail) p))) as Hd.
  rewrite length_rev in Hd. lia.
Qed.

(** The fuel of [makedirs] is enough: more fuel changes nothing. *)
Lemma makedirs_fuel_enough (fuel : nat) :
  forall (name : list N) (st : fs),
  (length name < fuel)%nat ->
  makedirs_fuel (S fuel) name st = makedirs_fuel fuel name st.
Proof.
  induction fuel as [|fuel IHfuel]; intros name st Hlen; [lia|].
  change (makedirs_body (makedirs_fuel (S fuel)) name st
          = makedirs_body (makedirs_fuel fuel) name st).
  unfold makedirs_body.
  pose proof (path_split_length name) as H1.
  destruct (path_split name) as [head0 tail0]. cbn [fst snd] in H1.
  assert (forall head tail,
            (match tail0 with [] => path_split head0 | _ :: _ => (head0, tail0) end)
            = (head, tail) -> (length head + length tail <= length name)%nat) as H2.
  { intros head tail E. destruct tail0 as [|t0 tail0'].
    - pose proof (path_split_length head0) as H3. rewrite E in H3. cbn [fst snd] in H3. lia.
    - injection E as <- <-. exact H1. }
  destruct (match tail0 with [] => path_split head0 | _ :: _ => (head0, tail0) end)
    as [head tail].
  specialize (H2 head tail eq_refl).
  destruct head as [|h head']; [reflexivity|].
  destruct tail as [|t tail']; [reflexivity|].
  destruct (path_exists st (h :: head')); [reflexivity|].
  rewrite IHfuel by (cbn [length] in *; lia). reflexivity.
Qed.

Lemma makedirs_files (name : list N) (st : fs) :
  files (snd (makedirs name st)) = files st.
Proof. apply makedirs_fuel_keeps. Qed.


(** ** Text: ASCII headers *)

Lemma plain_char_not_space (c : N) : plain_char c -> is_space c = false.
Proof.
  unfold plain_char, is_space. intros H.
  rewrite (proj2 (N.leb_gt c 13)), (proj2 (N.leb_gt c 32)) by lia.
  rewrite (proj2 (N.leb_gt 0x2000 c)) by lia.
  rewrite (proj2 (N.eqb_neq c 0x85)), (proj2 (N.eqb_neq c 0xA0)),
    (proj2 (N.eqb_neq c 0x1680)), (proj2 (N.eqb_neq c 0x2028)),
    (proj2 (N.eqb_neq c 0x2029)), (proj2 (N.eqb_neq c 0x202F)),
    (proj2 (N.eqb_neq c 0x205F)), (proj2 (N.eqb_neq c 0x3000)) by lia.
  rewrite !andb_false_r. reflexivity.
Qed.

Lemma utf8_encode_ascii (s : list N) :
  Forall (fun c => c < 128)%N s -> utf8_encode s = inr (map byte_of_N s).
Proof.
  induction 1 as [|c s Hc _ IH]; [reflexivity|].
  cbn [utf8_encode map]. unfold utf8_char.
  destruct (N.ltb_spec c 128); [|lia]. rewrite IH. reflexivity.
Qed.

Lemma utf8_decode_ascii (s : list N) :
  Forall (fun c => c < 128)%N s -> utf8_decode (map byte_of_N s) = inr s.
Proof.
  induction 1 as [|c s Hc _ IH]; [reflexivity|].
  cbn [utf8_decode map]. rewrite byte_val_of_N.
  rewrite (N.mod_small c 256) by lia.
  destruct (N.ltb_spec c 128); [|lia]. rewrite IH. reflexivity.
Qed.

Lemma byte_of_N_not_NUL (s : list N) :
  Forall (fun c => 0 < c < 256)%N s -> NUL ∉ map byte_of_N s.
Proof.
  intros Hs Hin. apply list_elem_of_fmap in Hin as (c & Hc & Hin).
  rewrite Forall_forall in Hs. specialize (Hs c Hin).
  apply (f_equal byte_val) in Hc. rewrite byte_val_of_N, N.mod_small in Hc by lia.
  change (byte_val NUL) with 0%N in Hc. lia.
Qed.

Lemma split_run_word (s1 : list N) :
  Forall plain_char s1 ->
  forall (tok : list N) (c : N) (s2 : list N),
  is_space c = true ->
  split_run tok (s1 ++ c :: s2) =
    match rev tok ++ s1 with
    | [] => split_run [] s2
    | w => w :: split_run [] s2
    end.
Proof.
  induction 1 as [|d s1 Hd _ IH]; intros tok c s2 Hc.
  - cbn [app split_run]. rewrite Hc, app_nil_r.
    destruct tok as [|t tok]; [reflexivity|].
    destruct (rev (t :: tok)) eqn:E; [|reflexivity].
    apply (f_equal length) in E. rewrite length_rev in E. discriminate.
  - cbn [app split_run]. rewrite (plain_char_not_space d Hd), (IH (d :: tok) c s2 Hc).
    cbn [rev]. rewrite <- app_assoc. reflexivity.
Qed.

Lemma split_run_last (s : list N) :
  Forall plain_char s ->
  forall tok : list N,
  split_run tok s = match rev tok ++ s with [] => [] | w => [w] end.
Proof.
  induction 1 as [|d s Hd _ IH]; intros tok.
  - cbn [split_run]. rewrite app_nil_r.
    destruct tok as [|t tok]; [reflexivity|].
    destruct (rev (t :: tok)) eqn:E; [|reflexivity].
    apply (f_equal length) in E. rewrite length_rev in E. discriminate.
  - cbn [split_run]. rewrite (plain_char_not_space d Hd), (IH (d :: tok)).
    cbn [rev]. rewrite <- app_assoc. reflexivity.
Qed.

(** [split()] on two words with one space between them. *)
Lemma py_split_two (w1 w2 : list N) :
  Forall plain_char w1 -> Forall plain_char w2 -> w1 <> [] -> w2 <> [] ->
  py_split (w1 ++ str " " ++ w2) = [w1; w2].
Proof.
  intros H1 H2 N1 N2. unfold py_split. change (str " " ++ w2) with (32%N :: w2).
  rewrite (split_run_word w1 H1 [] 32%N w2 eq_refl). cbn [rev app].
  rewrite (split_run_last w2 H2 []). cbn [rev app].
  destruct w1; [congruence|]. destruct w2; [congruence|]. reflexivity.
Qed.

Lemma strip_plain (s : list N) : Forall plain_char s -> strip s = s.
Proof.
  intros Hs.
  assert (forall l, Forall plain_char l -> lstrip l = l) as Hl.
  { intros l Hl. destruct Hl as [|c l Hc _]; [reflexivity|].
    cbn [lstrip]. unfold is_c_space. unfold plain_char in Hc.
    rewrite (proj2 (N.leb_gt c 13)), (proj2 (N.eqb_neq c 32)) by lia.
    rewrite andb_false_r. reflexivity. }
  unfold strip. rewrite (Hl s Hs), Hl by (apply Forall_rev, Hs).
  apply rev_involutive.
Qed.

Lemma int_fold_plain (s : list N) : Forall plain_char s -> map int_fold s = s.
Proof.
  induction 1 as [|c s Hc _ IH]; [reflexivity|].
  cbn [map]. rewrite IH. unfold int_fold. unfold plain_char in Hc.
  destruct (N.ltb_spec c 127); [reflexivity | lia].
Qed.

Lemma digit_char_plain (c : N) : digit_char c -> plain_char c.
Proof. unfold digit_char, plain_char. lia. Qed.

Lemma int_digits_digit (acc : Z) (prev : bool) (m : N) (rest : list N) :
  (m < 10)%N ->
  int_digits 10 acc prev ((48 + m)%N :: rest) = int_digits 10 (acc * 10 + Z.of_N m) true rest.
Proof.
  intros Hm. cbn [int_digits].
  destruct (N.eqb_spec (48 + m) 95); [lia|]. unfold digit_value.
  destruct (N.leb_spec 48 (48 + m)); [|lia].
  destruct (N.leb_spec (48 + m) 57); [|lia]. cbn [andb].
  replace (Z.of_N (48 + m) - 48) with (Z.of_N m) by lia.
  destruct (Z.ltb_spec (Z.of_N m) 10); [reflexivity | lia].
Qed.

(** The digits that [dec_digits] puts in front of [acc] are decimal
    digits, and [int] reads them back as [n]. *)
Lemma dec_digits_S (fuel : nat) (n : N) (acc : list N) :
  dec_digits (S fuel) n acc =
    if (n <? 10)%N then (48 + n mod 10)%N :: acc
    else dec_digits fuel (n / 10)%N ((48 + n mod 10)%N :: acc).
Proof. reflexivity. Qed.

Lemma dec_digits_spec (fuel : nat) :
  forall (n : N) (acc : list N),
  (n < 2 ^ N.of_nat (S fuel))%N ->
  exists ds,
    dec_digits (S fuel) n acc = ds ++ acc /\ ds <> [] /\ Forall digit_char ds
    /\ forall (a : Z) (prev : bool) (rest : list N),
        int_digits 10 a prev (ds ++ rest)
        = int_digits 10 (a * 10 ^ Z.of_nat (length ds) + Z.of_N n) true rest.
Proof.
  assert (forall (n : N) (acc : list N), (n < 10)%N ->
            [(48 + n mod 10)%N] ++ acc = [(48 + n mod 10)%N] ++ acc
            /\ [(48 + n mod 10)%N] <> []
            /\ Forall digit_char [(48 + n mod 10)%N]
            /\ forall (a : Z) (prev : bool) (rest : list N),
                int_digits 10 a prev ([(48 + n mod 10)%N] ++ rest)
                = int_digits 10 (a * 10 ^ Z.of_nat (length [(48 + n mod 10)%N]) + Z.of_N n)
                    true rest) as Hone.
  { intros n acc Hlt. rewrite N.mod_small by exact Hlt.
    split; [reflexivity|]. split; [discriminate|].
    split; [constructor; [unfold digit_char; lia | constructor]|].
    intros a prev rest. cbn [app length]. rewrite int_digits_digit by exact Hlt.
    f_equal. }
  induction fuel as [|fuel IH]; intros n acc Hn.
  - rewrite dec_digits_S. change (2 ^ N.of_nat 1)%N with 2%N in Hn.
    destruct (N.ltb_spec n 10) as [Hlt|Hge]; [|lia].
    exists [(48 + n mod 10)%N]. apply Hone, Hlt.
  - rewrite dec_digits_S. destruct (N.ltb_spec n 10) as [Hlt|Hge].
    + exists [(48 + n mod 10)%N]. apply Hone, Hlt.
    + assert (n / 10 < 2 ^ N.of_nat (S fuel))%N as Hdiv.
      { rewrite (Nat2N.inj_succ (S fuel)), N.pow_succ_r' in Hn.
        apply N.Div0.div_lt_upper_bound. lia. }
      destruct (IH (n / 10)%N ((48 + n mod 10)%N :: acc) Hdiv) as (ds & Heq & Hne & Hds & Hval).
      exists (ds ++ [(48 + n mod 10)%N]).
      assert (n mod 10 < 10)%N as Hmod by (apply N.mod_lt; discriminate).
      split; [rewrite Heq, <- app_assoc; reflexivity|].
      split; [destruct ds; discriminate|].
      split.
      { apply Forall_app; split; [exact Hds|].
        constructor; [|constructor].
        unfold digit_char. set (m := (n mod 10)%N) in *. lia. }
      intros a prev rest. rewrite <- app_assoc. cbn [app].
      rewrite Hval, int_digits_digit by exact Hmod. f_equal.
      rewrite length_app. cbn [length]. rewrite Nat2Z.inj_add, Z.pow_add_r by lia.
      change (10 ^ Z.of_nat 1) with 10.
      rewrite N2Z.inj_div, N2Z.inj_mod. change (Z.of_N 10) with 10.
      pose proof (Z.div_mod (Z.of_N n) 10 ltac:(discriminate)). lia.
Qed.

Lemma format_nat_spec (n : nat) :
  format_nat n <> [] /\ Forall digit_char (format_nat n)
  /\ py_int 10 (format_nat n) = inr (Z.of_nat n).
Proof.
  unfold format_nat.
  destruct (dec_digits_spec (N.to_nat (N.log2 (N.of_nat n))) (N.of_nat n) [])
    as (ds & Heq & Hne & Hds & Hval).
  { rewrite Nat2N.inj_succ, N2Nat.id.
    destruct (N.of_nat n) as [|p] eqn:E; [reflexivity|].
    apply N.log2_spec. reflexivity. }
  rewrite app_nil_r in Heq. rewrite Heq.
  split; [exact Hne|]. split; [exact Hds|].
  assert (Forall plain_char ds) as Hplain
    by (eapply Forall_impl; [exact Hds | exact digit_char_plain]).
  unfold py_int. rewrite (int_fold_plain ds Hplain), (strip_plain ds Hplain).
  destruct ds as [|c t]; [congruence|].
  apply Forall_cons in Hds as [Hc Ht]. unfold digit_char in Hc.
  destruct (N.eqb_spec c 45); [lia|]. destruct (N.eqb_spec c 43); [lia|].
  assert (int_unsigned 10 (c :: t) = int_digits 10 0 false (c :: t)) as ->.
  { unfold int_unsigned. destruct t as [|c' r]; [reflexivity|].
    unfold int_prefix. cbn [Z.eqb Pos.eqb andb orb]. rewrite andb_false_r. reflexivity. }
  specialize (Hval 0 false []). rewrite app_nil_r in Hval. rewrite Hval.
  cbn [int_digits]. unfold ret. do 2 f_equal. lia.
Qed.

(** ** Digests and paths *)

Lemma hex_digit_char (n : N) : (n < 16)%N -> hex_char (hex_digit n).
Proof.
  intros H. unfold hex_char, hex_digit. destruct (N.ltb_spec n 10); lia.
Qed.

Lemma byte_val_bound (b : byte) : (byte_val b < 256)%N.
Proof. unfold byte_val. pose proof (Byte.to_N_bounded b). lia. Qed.

Lemma hex_chars (bs : list byte) : Forall hex_char (hex bs).
Proof.
  induction bs as [|b bs IH]; [constructor|].
  cbn [hex flat_map app]. pose proof (byte_val_bound b).
  constructor; [|constructor; [|exact IH]]; apply hex_digit_char.
  - apply N.Div0.div_lt_upper_bound. lia.
  - apply N.mod_lt. discriminate.
Qed.

Lemma hex_length (bs : list byte) : length (hex bs) = (2 * length bs)%nat.
Proof.
  induction bs as [|b bs IH]; [reflexivity|].
  cbn [hex flat_map app length]. unfold hex in IH. lia.
Qed.

(** A digest in hexadecimal: two characters, then 38 more. *)
Lemma sha1_hexdigest_shape (data : list byte) :
  exists (c0 c1 : N) (r : list N),
    sha1_hexdigest data = c0 :: c1 :: r /\ length r = 38%nat
    /\ hex_char c0 /\ hex_char c1 /\ Forall hex_char r.
Proof.
  pose proof (hex_chars (sha1_digest data)) as Hc.
  pose proof (hex_length (sha1_digest data)) as Hl.
  rewrite (sha1_digest_length data) in Hl.
  change (hex (sha1_digest data)) with (sha1_hexdigest data) in Hc, Hl.
  destruct (sha1_hexdigest data) as [|c0 [|c1 r]]; try discriminate.
  apply Forall_cons in Hc as [H0 Hc]. apply Forall_cons in Hc as [H1 Hc].
  exists c0, c1, r. cbn [length] in Hl. repeat split; try assumption. lia.
Qed.

Lemma hex_char_not_slash (c : N) : hex_char c -> is_slash c = false.
Proof.
  unfold hex_char, is_slash, slash. intros H. destruct (N.eqb_spec c 47); [lia|reflexivity].
Qed.

Lemma slice_to_2 {A} (a b : A) (r : list A) : slice_to (a :: b :: r) 2 = [a; b].
Proof.
  unfold slice_to. rewrite norm_index_nonneg by lia. cbn [length].
  change (Z.to_nat 2) with 2%nat. reflexivity.
Qed.

Lemma slice_from_2 {A} (a b : A) (r : list A) : slice_from (a :: b :: r) 2 = r.
Proof.
  unfold slice_from. rewrite norm_index_nonneg by lia. cbn [length].
  change (Z.to_nat 2) with 2%nat. reflexivity.
Qed.

(** Joining a component that does not start with a separator to a path
    that does not end with one. *)
Lemma join2_plain (a : list N) (x b0 : N) (b : list N) :
  is_slash x = false -> is_slash b0 = false ->
  join2 (a ++ [x]) (b0 :: b) = (a ++ [x]) ++ slash :: b0 :: b.
Proof.
  intros Hx Hb. unfold join2. cbn [starts_with_slash]. rewrite Hb.
  rewrite rev_unit. cbn [starts_with_slash]. rewrite Hx.
  destruct (a ++ [x]) eqn:E; [|reflexivity].
  apply (f_equal length) in E. rewrite length_app in E. cbn [length] in E. lia.
Qed.

Lemma paths_of_digest (c0 c1 r0 : N) (r : list N) :
  hex_char c0 -> hex_char c1 -> hex_char r0 ->
  shard_dir (c0 :: c1 :: r0 :: r) = objects_dir ++ [slash; c0; c1]
  /\ object_path (c0 :: c1 :: r0 :: r)
     = (objects_dir ++ [slash; c0; c1]) ++ slash :: r0 :: r.
Proof.
  intros H0 H1 Hr.
  assert (join2 (join2 (str ".git") (str "objects")) [c0; c1]
          = objects_dir ++ [slash; c0; c1]) as Hshard.
  { change (join2 (str ".git") (str "objects")) with (str ".git/object" ++ [115%N]).
    rewrite join2_plain by (try reflexivity; apply hex_char_not_slash, H0).
    reflexivity. }
  unfold shard_dir, object_path, join. cbn [fold_left].
  rewrite slice_to_2, slice_from_2, Hshard. split; [reflexivity|].
  change (objects_dir ++ [slash; c0; c1]) with ((objects_dir ++ [slash; c0]) ++ [c1]).
  apply join2_plain; apply hex_char_not_slash; assumption.
Qed.

Lemma take_while_app_stop {A} (p : A -> bool) (l : list A) (x : A) (r : list A) :
  Forall (fun y => p y = true) l -> p x = false ->
  take_while p (l ++ x :: r) = l.
Proof.
  intros Hl Hx. induction Hl as [|y l Hy _ IH]; cbn [app take_while].
  - rewrite Hx. reflexivity.
  - rewrite Hy, IH. reflexivity.
Qed.

(** Splitting a path at its last separator. *)
Lemma path_split_join (a : list N) (x : N) (b : list N) :
  is_slash x = false -> Forall (fun c => is_slash c = false) b ->
  path_split ((a ++ [x]) ++ slash :: b) = (a ++ [x], b).
Proof.
  intros Hx Hb. unfold path_split.
  assert (take_while (fun c => negb (is_slash c)) (rev ((a ++ [x]) ++ slash :: b)) = rev b)
    as Htail.
  { rewrite rev_app_distr. cbn [rev]. rewrite <- app_assoc. cbn [app].
    apply take_while_app_stop; [|reflexivity].
    apply Forall_rev. eapply Forall_impl; [exact Hb|].
    intros c Hc. cbn beta. rewrite Hc. reflexivity. }
  rewrite Htail, rev_involutive.
  assert (take (length ((a ++ [x]) ++ slash :: b) - length b) ((a ++ [x]) ++ slash :: b)
          = (a ++ [x]) ++ [slash]) as ->.
  { replace ((a ++ [x]) ++ slash :: b) with (((a ++ [x]) ++ [slash]) ++ b)
      by (rewrite <- !app_assoc; reflexivity).
    rewrite take_app_length' by (rewrite !length_app; cbn [length]; lia). reflexivity. }
  assert (forallb is_slash ((a ++ [x]) ++ [slash]) = false) as ->.
  { apply not_true_is_false. intros Hall. rewrite forallb_forall in Hall.
    specialize (Hall x). rewrite Hx in Hall.
    assert (In x ((a ++ [x]) ++ [slash])) as Hin
      by (apply in_or_app; left; apply in_or_app; right; left; reflexivity).
    specialize (Hall Hin). discriminate. }
  unfold rstrip_slash. rewrite rev_unit. cbn [drop_while].
  change (is_slash slash) with true. cbv iota. rewrite rev_unit. cbn [drop_while].
  rewrite Hx. rewrite <- rev_unit, rev_involutive. reflexivity.
Qed.

(** ** Directory listings *)

Lemma strip_prefix_app (d n : list N) : strip_prefix d (d ++ n) = Some n.
Proof.
  induction d as [|c d IH]; cbn [app strip_prefix]; [reflexivity|].
  rewrite N.eqb_refl. exact IH.
Qed.

Lemma strip_prefix_Some (d p n : list N) : strip_prefix d p = Some n -> p = d ++ n.
Proof.
  revert p. induction d as [|c d IH]; intros p H; cbn [strip_prefix] in H.
  - injection H as ->. reflexivity.
  - destruct p as [|c' p]; [discriminate|].
    destruct (N.eqb_spec c c') as [->|]; [|discriminate].
    cbn [app]. f_equal. apply IH, H.
Qed.

Lemma child_name_Some (d p n : list N) :
  child_name d p = Some n -> p = d ++ slash :: n /\ n <> [].
Proof.
  unfold child_name. destruct (strip_prefix (d ++ [slash]) p) as [m|] eqn:E; [|discriminate].
  apply strip_prefix_Some in E. destruct m as [|c m]; [discriminate|].
  destruct (forallb _ (c :: m)); [|discriminate].
  intros [= <-]. rewrite E, <- app_assoc. split; [reflexivity|discriminate].
Qed.

Lemma child_name_entry (d n : list N) :
  n <> [] -> Forall (fun c => is_slash c = false) n ->
  child_name d (d ++ slash :: n) = Some n.
Proof.
  intros Hne Hn. unfold child_name.
  replace (d ++ slash :: n) with ((d ++ [slash]) ++ n) by (rewrite <- app_assoc; reflexivity).
  rewrite strip_prefix_app. destruct n as [|c n]; [congruence|].
  assert (forallb (fun c => negb (is_slash c)) (c :: n) = true) as ->; [|reflexivity].
  apply forallb_forall. intros y Hy. rewrite Forall_forall in Hn.
  rewrite (Hn y) by (apply list_elem_of_In, Hy). reflexivity.
Qed.

Lemma elem_of_children (st : fs) (d n : list N) :
  n ∈ children st d <->
  (d ++ slash :: n ∈ dirs st \/ is_Some (files st !! (d ++ slash :: n)))
  /\ child_name d (d ++ slash :: n) = Some n.
Proof.
  unfold children. rewrite list_elem_of_omap. split.
  - intros (p & Hp & Hc). destruct (child_name_Some d p n Hc) as [-> _].
    split; [|exact Hc]. apply elem_of_elements, elem_of_union in Hp as [Hp|Hp];
      [left; exact Hp | right; apply elem_of_dom, Hp].
  - intros [Hin Hc]. exists (d ++ slash :: n). split; [|exact Hc].
    apply elem_of_elements, elem_of_union.
    destruct Hin as [Hin|Hin]; [left; exact Hin | right; apply elem_of_dom, Hin].
Qed.

Lemma NoDup_omap_inj {A B} (f : A -> option B) (l : list A) :
  (forall x y z, f x = Some z -> f y = Some z -> x = y) ->
  NoDup l -> NoDup (omap f l).
Proof.
  intros Hinj. induction 1 as [|x l Hx Hl IH]; [constructor|].
  cbn [omap list_omap]. destruct (f x) as [z|] eqn:E; [|exact IH].
  constructor; [|exact IH].
  intros Hin. apply list_elem_of_omap in Hin as (y & Hy & Hfy).
  rewrite (Hinj x y z E Hfy) in Hx. contradiction.
Qed.

Lemma NoDup_children (st : fs) (d : list N) : NoDup (children st d).
Proof.
  apply NoDup_omap_inj; [|apply NoDup_elements].
  intros x y z Hx Hy.
  destruct (child_name_Some d x z Hx) as [-> _].
  destruct (child_name_Some d y z Hy) as [-> _]. reflexivity.
Qed.

Lemma filter_none {A} (p : A -> bool) (l : list A) :
  (forall y, y ∈ l -> p y = false) -> List.filter p l = [].
Proof.
  induction l as [|a l IH]; intros H; [reflexivity|].
  cbn [List.filter]. rewrite (H a) by left. apply IH. intros y Hy. apply H. right. exact Hy.
Qed.

(** A list without duplicates in which [x] is the only element that
    satisfies [p] is filtered to [x] alone. *)
Lemma filter_unique {A} (p : A -> bool) (l : list A) (x : A) :
  NoDup l -> x ∈ l -> p x = true ->
  (forall y, y ∈ l -> p y = true -> y = x) ->
  List.filter p l = [x].
Proof.
  induction 1 as [|a l Ha Hl IH]; intros Hx Hpx Huniq.
  - apply elem_of_nil in Hx. contradiction.
  - cbn [List.filter]. apply elem_of_cons in Hx as [<-|Hx].
    + rewrite Hpx. f_equal. apply filter_none. intros y Hy.
      destruct (p y) eqn:E; [|reflexivity].
      rewrite (Huniq y) in Hy by (try right; assumption). contradiction.
    + destruct (p a) eqn:E.
      * rewrite (Huniq a) in Ha by (try left; assumption). contradiction.
      * apply IH; [exact Hx | exact Hpx |].
        intros y Hy. apply Huniq. right. exact Hy.
Qed.

Lemma startswith_refl (s : list N) : startswith s s = true.
Proof. induction s as [|c s IH]; [reflexivity|]. cbn [startswith]. rewrite N.eqb_refl. exact IH. Qed.

(** ** Writing an object into a repository *)

Lemma fs_eta (st : fs) : mkfs (dirs st) (files st) = st.
Proof. destruct st; reflexivity. Qed.

(** [makedirs] on a directory whose parent exists: the directory is
    created unless it is there already. *)
Lemma makedirs_child (st : fs) (a : list N) (x t0 : N) (tail : list N) :
  is_slash x = false -> Forall (fun c => is_slash c = false) (t0 :: tail) ->
  isdir st (a ++ [x]) = true ->
  isfile st ((a ++ [x]) ++ slash :: t0 :: tail) = false ->
  makedirs ((a ++ [x]) ++ slash :: t0 :: tail) st
  = (inr tt, mkfs ({[ (a ++ [x]) ++ slash :: t0 :: tail ]} ∪ dirs st) (files st)).
Proof.
  intros Hx Htail Hparent Hfile. set (sd := (a ++ [x]) ++ slash :: t0 :: tail) in *.
  assert (path_split sd = (a ++ [x], t0 :: tail)) as Hsplit
    by (apply path_split_join; assumption).
  unfold makedirs. cbn [makedirs_fuel]. unfold makedirs_body. rewrite Hsplit.
  destruct (a ++ [x]) as [|h head'] eqn:Ehead.
  { apply (f_equal length) in Ehead. rewrite length_app in Ehead. cbn [length] in Ehead. lia. }
  assert (path_exists st (h :: head') = true) as ->
    by (unfold path_exists; rewrite Hparent; reflexivity).
  unfold mkdir. destruct (path_exists st sd) eqn:Hex.
  - unfold path_exists in Hex. rewrite Hfile, orb_false_r in Hex. rewrite Hex.
    unfold ret. f_equal. rewrite <- (fs_eta st) at 1. f_equal.
    unfold isdir in Hex. apply bool_decide_eq_true in Hex.
    symmetry. apply subseteq_union_1_L, singleton_subseteq_l, Hex.
  - unfold parent_error, dirname. rewrite Hsplit. cbn [fst]. rewrite Hparent. reflexivity.
Qed.

Lemma write_file_new (st : fs) (path : list N) (content : list byte) :
  isdir st path = false -> dirname path <> [] -> isdir st (dirname path) = true ->
  write_file path content st = (inr tt, mkfs (dirs st) (<[path := content]> (files st))).
Proof.
  intros Hd Hne Hp. unfold write_file, parent_error. rewrite Hd, Hp.
  destruct (dirname path); [congruence|reflexivity].
Qed.

(** ** Writing an object and reading it back *)

Lemma header_plain (obj_type : list N) (n : nat) :
  Forall plain_char obj_type ->
  Forall (fun c => 0 < c < 128)%N (obj_type ++ str " " ++ format_nat n).
Proof.
  intros Ht. destruct (format_nat_spec n) as (_ & Hd & _).
  apply Forall_app; split; [|apply Forall_app; split].
  - eapply Forall_impl; [exact Ht|]. unfold plain_char. intros c Hc. cbn beta. lia.
  - constructor; [cbn; lia | constructor].
  - eapply Forall_impl; [exact Hd|]. unfold digit_char. intros c Hc. cbn beta. lia.
Qed.

Lemma full_data_plain (obj_type : list N) (data : list byte) :
  Forall plain_char obj_type -> full_data data obj_type = inr (framed obj_type data).
Proof.
  intros Ht. unfold full_data, framed. rewrite utf8_encode_ascii; [reflexivity|].
  eapply Forall_impl; [apply header_plain, Ht|]. intros c Hc. cbn beta in *. lia.
Qed.

(** What [read_object] makes of the stored form, once decompressed. *)
Lemma unframe_framed (obj_type : list N) (data : list byte) :
  Forall plain_char obj_type -> obj_type <> [] ->
  (let* null_index := bytes_index (framed obj_type data) NUL 0 in
   let header := slice_to (framed obj_type data) null_index in
   let* h := utf8_decode header in
   let* (obj_type', size_str) := unpack2 (py_split h) in
   let* size := py_int 10 size_str in
   let data' := slice_from (framed obj_type data) (null_index + 1) in
   let* _ := py_assert (size =? Z.of_nat (length data')) (ExpectedSize size (length data')) in
   ret (obj_type', data'))
  = inr (obj_type, data).
Proof.
  intros Ht Hne. set (text := obj_type ++ str " " ++ format_nat (length data)).
  pose proof (header_plain obj_type (length data) Ht) as Htext. fold text in Htext.
  destruct (format_nat_spec (length data)) as (Hdne & Hd & Hint).
  assert (NUL ∉ map byte_of_N text) as Hnul.
  { apply byte_of_N_not_NUL. eapply Forall_impl; [exact Htext|].
    intros c Hc. cbn beta in *. lia. }
  assert (bytes_index (framed obj_type data) NUL 0
          = inr (Z.of_nat (length (map byte_of_N text)))) as ->.
  { unfold bytes_index.
    pose proof (bytes_find_skip [] (map byte_of_N text) data NUL Hnul) as Hfind.
    cbn [app length] in Hfind. change (Z.of_nat 0) with 0 in Hfind.
    unfold framed. fold text. rewrite Hfind.
    destruct (Z.ltb_spec (0 + Z.of_nat (length (map byte_of_N text))) 0); [lia|].
    reflexivity. }
  cbn [bind].
  assert (slice_to (framed obj_type data) (Z.of_nat (length (map byte_of_N text)))
          = map byte_of_N text) as ->.
  { unfold slice_to, framed. fold text. rewrite norm_index_nonneg by lia.
    rewrite Nat2Z.id, length_app. cbn [length].
    replace (Nat.min _ _) with (length (map byte_of_N text)) by lia.
    apply take_app_length. }
  rewrite utf8_decode_ascii
    by (eapply Forall_impl; [exact Htext|]; intros c Hc; cbn beta in *; lia).
  cbn [bind]. unfold text.
  rewrite py_split_two; [| exact Ht
                          | eapply Forall_impl; [exact Hd | exact digit_char_plain]
                          | exact Hne | exact Hdne].
  cbn [unpack2 bind ret]. rewrite Hint. cbn [bind].
  assert (slice_from (framed obj_type data)
            (Z.of_nat (length (map byte_of_N (obj_type ++ str " " ++ format_nat (length data))))
             + 1) = data) as ->.
  { unfold slice_from, framed. fold text. rewrite norm_index_nonneg by lia.
    rewrite length_app. cbn [length].
    replace (Nat.min _ _) with (length (map byte_of_N text ++ [NUL]))
      by (rewrite length_app; cbn [length]; lia).
    replace (map byte_of_N text ++ NUL :: data) with ((map byte_of_N text ++ [NUL]) ++ data)
      by (rewrite <- app_assoc; reflexivity).
    apply drop_app_length. }
  unfold py_assert. rewrite Z.eqb_refl. reflexivity.
Qed.

(** The outcome of [hash_object] with [write=True] when neither path of
    the digest is taken by an entry of the wrong kind: the digest, and
    the store with the object added unless something is at its path. *)
Lemma hash_object_outcome (zlib_compress : list byte -> list byte) (st : fs)
    (obj_type : list N) (data : list byte) :
  Forall plain_char obj_type ->
  isdir st objects_dir = true ->
  isfile st (shard_dir (sha1_hexdigest (framed obj_type data))) = false ->
  hash_object zlib_compress data obj_type true st
  = (inr (sha1_hexdigest (framed obj_type data)),
     if path_exists st (object_path (sha1_hexdigest (framed obj_type data))) then st
     else store_add zlib_compress st (framed obj_type data)).
Proof.
  intros Ht Hobjects Hshardfile.
  unfold hash_object, store_add. rewrite (full_data_plain obj_type data Ht).
  set (full := framed obj_type data) in *.
  destruct (sha1_hexdigest_shape full) as (c0 & c1 & r & Hsha & Hlen & H0 & H1 & Hr).
  destruct r as [|r0 r]; [discriminate|]. apply Forall_cons in Hr as [Hr0 Hr].
  rewrite Hsha in *.
  destruct (paths_of_digest c0 c1 r0 r H0 H1 Hr0) as [Hshard Hpath].
  set (sd := shard_dir (c0 :: c1 :: r0 :: r)) in *.
  set (path := object_path (c0 :: c1 :: r0 :: r)) in *.
  assert (Forall (fun c => is_slash c = false) (r0 :: r)) as Hrest.
  { constructor; [apply hex_char_not_slash, Hr0|].
    eapply Forall_impl; [exact Hr | exact hex_char_not_slash]. }
  destruct (path_exists st path) eqn:Hex; cbn [negb]; [reflexivity|].
  assert (dirname path = sd) as Hdirname.
  { unfold dirname. rewrite Hpath, Hshard.
    change (objects_dir ++ [slash; c0; c1]) with ((objects_dir ++ [slash; c0]) ++ [c1]).
    rewrite path_split_join; [reflexivity | apply hex_char_not_slash, H1 | exact Hrest]. }
  rewrite Hdirname.
  assert (makedirs sd st = (inr tt, mkfs ({[sd]} ∪ dirs st) (files st))) as ->.
  { rewrite Hshard.
    change (objects_dir ++ [slash; c0; c1])
      with ((str ".git/object" ++ [115%N]) ++ slash :: c0 :: [c1]).
    apply makedirs_child.
    - reflexivity.
    - constructor; [apply hex_char_not_slash, H0|].
      constructor; [apply hex_char_not_slash, H1|constructor].
    - exact Hobjects.
    - change ((str ".git/object" ++ [115%N]) ++ slash :: c0 :: [c1])
        with (objects_dir ++ [slash; c0; c1]).
      rewrite <- Hshard. exact Hshardfile. }
  assert (path <> sd) as Hneq.
  { rewrite Hpath, Hshard. intros E. apply (f_equal length) in E.
    rewrite !length_app in E. cbn [length] in E. lia. }
  rewrite write_file_new; [reflexivity| | |].
  - unfold isdir. cbn [dirs]. apply bool_decide_eq_false. intros Hin.
    apply elem_of_union in Hin as [Hin|Hin].
    + apply elem_of_singleton in Hin. contradiction.
    + unfold path_exists in Hex. apply orb_false_iff in Hex as [Hd _].
      unfold isdir in Hd. apply bool_decide_eq_false in Hd. contradiction.
  - rewrite Hdirname, Hshard. discriminate.
  - rewrite Hdirname. unfold isdir. cbn [dirs]. apply bool_decide_eq_true, elem_of_union.
    left. apply elem_of_singleton. reflexivity.
Qed.

Section RoundTrip.

Variable zlib_compress : list byte -> list byte.
Variable zlib_decompress : list byte -> result (list byte).

(** Decompression undoes compression. *)
Hypothesis zlib_roundtrip : forall x, zlib_decompress (zlib_compress x) = inr x.

(** Reading an object that is stored, unambiguously, under its digest. *)
Lemma read_object_stored (st : fs) (obj_type : list N) (data : list byte) :
  Forall plain_char obj_type -> obj_type <> [] ->
  isdir st (shard_dir (sha1_hexdigest (framed obj_type data))) = true ->
  files st !! object_path (sha1_hexdigest (framed obj_type data))
    = Some (zlib_compress (framed obj_type data)) ->
  unambiguous st (sha1_hexdigest (framed obj_type data)) ->
  read_object zlib_decompress (sha1_hexdigest (framed obj_type data)) st
  = inr (obj_type, data).
Proof.
  intros Ht Hne Hdir Hfile Hunamb.
  destruct (sha1_hexdigest_shape (framed obj_type data))
    as (c0 & c1 & r & Hsha & Hlen & H0 & H1 & Hr).
  destruct r as [|r0 r]; [discriminate|]. apply Forall_cons in Hr as [Hr0 Hr].
  rewrite Hsha in *.
  destruct (paths_of_digest c0 c1 r0 r H0 H1 Hr0) as [Hshard Hpath].
  assert (Forall (fun c => is_slash c = false) (r0 :: r)) as Hrest.
  { constructor; [apply hex_char_not_slash, Hr0|].
    eapply Forall_impl; [exact Hr | exact hex_char_not_slash]. }
  unfold read_object.
  assert (find_object (c0 :: c1 :: r0 :: r) st = inr (object_path (c0 :: c1 :: r0 :: r))) as ->.
  { rewrite (find_object_listed _ st (children st (shard_dir (c0 :: c1 :: r0 :: r))));
      [|cbn [length]; lia | unfold listdir; rewrite Hdir; reflexivity].
    rewrite (filter_unique _ _ (slice_from (c0 :: c1 :: r0 :: r) 2)).
    - rewrite slice_from_2, Hshard, Hpath. unfold join. cbn [fold_left].
      change (objects_dir ++ [slash; c0; c1]) with ((objects_dir ++ [slash; c0]) ++ [c1]).
      apply f_equal, join2_plain; apply hex_char_not_slash; assumption.
    - apply NoDup_children.
    - rewrite slice_from_2. apply elem_of_children.
      rewrite Hshard. split; [right; rewrite <- Hpath, Hfile; eauto|].
      apply child_name_entry; [discriminate | exact Hrest].
    - apply startswith_refl.
    - exact Hunamb. }
  cbn [bind]. unfold read_file. rewrite Hfile. cbn [bind ret].
  rewrite zlib_roundtrip. cbn [bind].
  apply unframe_framed; assumption.
Qed.

(** Writing an object into a store that can take it. *)
Lemma hash_object_stores (st : fs) (obj_type : list N) (data : list byte) :
  Forall plain_char obj_type ->
  store_ready zlib_compress st (framed obj_type data) ->
  exists st',
    hash_object zlib_compress data obj_type true st
    = (inr (sha1_hexdigest (framed obj_type data)), st')
    /\ isdir st' (shard_dir (sha1_hexdigest (framed obj_type data))) = true
    /\ files st' !! object_path (sha1_hexdigest (framed obj_type data))
       = Some (zlib_compress (framed obj_type data))
    /\ unambiguous st' (sha1_hexdigest (framed obj_type data)).
Proof.
  intros Ht (Hobjects & Hshardfile & Hpathdir & Htrust & Hunamb).
  rewrite (hash_object_outcome zlib_compress st obj_type data Ht Hobjects Hshardfile).
  eexists. split; [reflexivity|].
  set (full := framed obj_type data) in *.
  destruct (sha1_hexdigest_shape full) as (c0 & c1 & r & Hsha & Hlen & H0 & H1 & Hr).
  destruct r as [|r0 r]; [discriminate|]. apply Forall_cons in Hr as [Hr0 Hr].
  destruct (paths_of_digest c0 c1 r0 r H0 H1 Hr0) as [Hshard Hpath].
  destruct (path_exists st (object_path (sha1_hexdigest full))) eqn:Hex.
  - unfold path_exists in Hex. rewrite Hpathdir in Hex. cbn [orb] in Hex.
    unfold isfile in Hex. apply bool_decide_eq_true in Hex as [content Hc].
    destruct (Htrust content Hc) as [-> Hd].
    split; [exact Hd|]. split; [exact Hc | exact Hunamb].
  - unfold store_add. cbn [dirs files]. split; [|split].
    + unfold isdir. cbn [dirs]. apply bool_decide_eq_true, elem_of_union. left.
      apply elem_of_singleton. reflexivity.
    + apply lookup_insert_eq.
    + unfold unambiguous in *. rewrite Hsha in *. rewrite slice_from_2 in *.
      rewrite Hshard, Hpath in *.
      intros name Hname Hstart.
      apply elem_of_children in Hname as [Hin Hchild]. cbn [dirs files] in Hin.
      destruct (decide ((objects_dir ++ [slash; c0; c1]) ++ slash :: name
                        = (objects_dir ++ [slash; c0; c1]) ++ slash :: r0 :: r)) as [E|E].
      { apply app_inv_head in E. congruence. }
      apply Hunamb; [|exact Hstart].
      apply elem_of_children. split; [|exact Hchild].
      destruct Hin as [Hin|Hin].
      * apply elem_of_union in Hin as [Hin|Hin]; [|left; exact Hin].
        apply elem_of_singleton in Hin. apply (f_equal length) in Hin.
        rewrite length_app in Hin. cbn [length] in Hin. lia.
      * right. rewrite lookup_insert_ne in Hin by congruence. exact Hin.
Qed.

End RoundTrip.

Lemma object_types_plain (obj_type : list N) :
  obj_type ∈ object_types -> Forall plain_char obj_type /\ obj_type <> [].
Proof.
  unfold object_types. intros H.
  repeat (apply elem_of_cons in H as [->|H]);
    [| | |apply elem_of_nil in H; contradiction];
    (split; [|discriminate]); repeat constructor; unfold plain_char; cbn; lia.
Qed.

(** Writing and reading back, for every type made of printable ASCII
    characters other than the space. *)
Lemma write_then_read
    (zlib_compress : list byte -> list byte)
    (zlib_decompress : list byte -> result (list byte))
    (st : fs) (obj_type : list N) (data : list byte) :
  (forall x, zlib_decompress (zlib_compress x) = inr x) ->
  Forall plain_char obj_type -> obj_type <> [] ->
  store_ready zlib_compress st (framed obj_type data) ->
  exists sha1 st',
    hash_object zlib_compress data obj_type true st = (inr sha1, st')
    /\ read_object zlib_decompress sha1 st' = inr (obj_type, data).
Proof.
  intros Hrt Hplain Hne Hready.
  destruct (hash_object_stores zlib_compress st obj_type data Hplain Hready)
    as (st' & Hwrite & Hdir & Hfile & Hunamb).
  exists (sha1_hexdigest (framed obj_type data)), st'. split; [exact Hwrite|].
  apply (read_object_stored zlib_compress zlib_decompress Hrt); assumption.
Qed.

(** C1: for every payload and every type among blob, tree and commit, in
    a store that can take the object, [hash_object] with [write=True]
    returns a digest, and [read_object] on that digest then returns the
    type and the payload. *)
Theorem hash_object_read_object
    (zlib_compress : list byte -> list byte)
    (zlib_decompress : list byte -> result (list byte))
    (zlib_roundtrip : forall x, zlib_decompress (zlib_compress x) = inr x)
    (st : fs) (obj_type : list N) (data : list byte) :
  obj_type ∈ object_types ->
  store_ready zlib_compress st (framed obj_type data) ->
  exists sha1 st',
    hash_object zlib_compress data obj_type true st = (inr sha1, st')
    /\ read_object zlib_decompress sha1 st' = inr (obj_type, data).
Proof.
  intros Htype Hready. destruct (object_types_plain obj_type Htype) as [Hplain Hne].
  exact (write_then_read zlib_compress zlib_decompress st obj_type data
           zlib_roundtrip Hplain Hne Hready).
Qed.

(** C4: a call of [hash_object] with [write=True] that returns a digest
    leaves a store on which the same call returns the same digest and
    changes nothing.  When something exists at the path of the digest,
    [objects/digest[0:2]/digest[2:]], the call itself changes nothing;
    otherwise it adds one file, at that path, and touches no other file -
    so two calls leave exactly one file for the object.  And the call does
    return a digest in every store that can take the object. *)
Theorem hash_object_idempotent (zlib_compress : list byte -> list byte)
    (data : list byte) (obj_type : list N) (st : fs) :
  (forall (sha1 : list N) (st' : fs),
      hash_object zlib_compress data obj_type true st = (inr sha1, st') ->
      hash_object zlib_compress data obj_type true st' = (inr sha1, st')
      /\ (path_exists st (object_path sha1) = true -> st' = st)
      /\ (path_exists st (object_path sha1) = false ->
          files st !! object_path sha1 = None
          /\ (exists content, files st' = <[object_path sha1 := content]> (files st))
          /\ size (files st') = S (size (files st))))
  /\ (obj_type ∈ object_types ->
      store_ready zlib_compress st (framed obj_type data) ->
      exists sha1 st', hash_object zlib_compress data obj_type true st = (inr sha1, st')).
Proof.
  split.
  2:{ intros Htype Hready. destruct (object_types_plain obj_type Htype) as [Hplain _].
      destruct (hash_object_stores zlib_compress st obj_type data Hplain Hready)
        as (st' & Hwrite & _).
      eauto. }
  intros sha1 st'.
  unfold hash_object. destruct (full_data data obj_type) as [e|fd]; [discriminate|].
  destruct (path_exists st (object_path (sha1_hexdigest fd))) eqn:Hex; cbn [negb].
  - intros [= <- <-]. rewrite Hex. cbn [negb].
    split; [reflexivity|]. split; [reflexivity | discriminate].
  - pose proof (makedirs_files (dirname (object_path (sha1_hexdigest fd))) st) as Hfiles.
    destruct (makedirs _ st) as [[e|u] st1]; [discriminate|]. cbn [snd] in Hfiles.
    unfold write_file.
    destruct (isdir st1 _); [discriminate|].
    destruct (parent_error st1 _); [discriminate|].
    unfold ret. cbv iota beta. intros [= <- <-].
    assert (files st !! object_path (sha1_hexdigest fd) = None) as Hnone.
    { unfold path_exists in Hex. apply orb_false_iff in Hex as [_ Hf].
      unfold isfile in Hf. apply bool_decide_eq_false in Hf.
      destruct (files st !! _) eqn:E; [exfalso; apply Hf; eauto | reflexivity]. }
    split; [|split; [congruence|]].
    + assert (path_exists
                (mkfs (dirs st1) (<[object_path (sha1_hexdigest fd) := zlib_compress fd]>
                        (files st1)))
                (object_path (sha1_hexdigest fd)) = true) as ->; [|reflexivity].
      unfold path_exists, isfile. cbn [files]. rewrite lookup_insert_eq.
      rewrite (bool_decide_eq_true_2 _ (mk_is_Some _ _ eq_refl)). apply orb_true_r.
    + intros _. cbn [files]. rewrite Hfiles. split; [exact Hnone|].
      split; [eauto|]. apply map_size_insert_None, Hnone.
Qed.

(** Nothing lies below the objects directory of a new repository. *)
Lemma fresh_repo_objects_empty (x : N) (rest : list N) :
  ~ (objects_dir ++ slash :: x :: rest ∈ dirs fresh_repo
     \/ is_Some (files fresh_repo !! (objects_dir ++ slash :: x :: rest))).
Proof.
  intros [H|H].
  - unfold fresh_repo in H. cbn [dirs] in H.
    repeat (apply elem_of_union in H as [H|H]);
      apply elem_of_singleton in H; vm_compute in H; discriminate.
  - unfold fresh_repo in H. cbn [files] in H.
    rewrite lookup_singleton_ne in H; [destruct H; discriminate|].
    intros E. vm_compute in E. discriminate.
Qed.

(** A new repository can take every object. *)
Lemma fresh_repo_ready (zlib_compress : list byte -> list byte) (full : list byte) :
  store_ready zlib_compress fresh_repo full.
Proof.
  destruct (sha1_hexdigest_shape full) as (c0 & c1 & r & Hsha & Hlen & H0 & H1 & Hr).
  destruct r as [|r0 r]; [discriminate|]. apply Forall_cons in Hr as [Hr0 Hr].
  destruct (paths_of_digest c0 c1 r0 r H0 H1 Hr0) as [Hshard Hpath].
  unfold store_ready, unambiguous. rewrite Hsha, Hshard, Hpath.
  split; [vm_compute; reflexivity|].
  split; [|split; [|split]].
  - unfold isfile. apply bool_decide_eq_false. intros H.
    apply (fresh_repo_objects_empty c0 [c1]). right. exact H.
  - unfold isdir. apply bool_decide_eq_false. intros H.
    apply (fresh_repo_objects_empty c0 (c1 :: slash :: r0 :: r)). left.
    rewrite <- app_assoc in H. exact H.
  - intros content H. exfalso.
    apply (fresh_repo_objects_empty c0 (c1 :: slash :: r0 :: r)). right.
    rewrite <- app_assoc in H. cbn [app] in H. rewrite H. eauto.
  - intros name Hname _. exfalso. apply elem_of_children in Hname as [Hname _].
    apply (fresh_repo_objects_empty c0 (c1 :: slash :: name)).
    rewrite <- app_assoc in Hname. exact Hname.
Qed.

(** In a new repository every object that is written is read back. *)
Lemma hash_object_read_object_fresh
    (zlib_compress : list byte -> list byte)
    (zlib_decompress : list byte -> result (list byte)) :
  (forall x, zlib_decompress (zlib_compress x) = inr x) ->
  forall (obj_type : list N) (data : list byte),
  obj_type ∈ object_types ->
  exists sha1 st',
    hash_object zlib_compress data obj_type true fresh_repo = (inr sha1, st')
    /\ read_object zlib_decompress sha1 st' = inr (obj_type, data).
Proof.
  intros Hrt obj_type data Htype.
  destruct (object_types_plain obj_type Htype) as [Hplain Hne].
  apply write_then_read; [exact Hrt | exact Hplain | exact Hne | apply fresh_repo_ready].
Qed.

Lemma hash_object_read_object_witness :
  exists sha1 st',
    hash_object stored (blit "hello") (str "blob") true fresh_repo = (inr sha1, st')
    /\ read_object unstored sha1 st' = inr (str "blob", blit "hello").
Proof.
  apply (hash_object_read_object stored unstored).
  - intros x. reflexivity.
  - left.
  - apply fresh_repo_ready.
Defined.

Lemma hash_object_idempotent_witness :
  hash_object stored (blit "hello") (str "blob") true hello_store
  = (inr (str "b6fc4c620b67d95f953a5c1c1230aaab5db5a1b0"), hello_store)
  /\ size (files hello_store) = S (size (files fresh_repo)).
Proof.
  destruct (proj1 (hash_object_idempotent stored (blit "hello") (str "blob") fresh_repo)
              (str "b6fc4c620b67d95f953a5c1c1230aaab5db5a1b0") hello_store)
    as (Hagain & _ & Hnew).
  - vm_compute. reflexivity.
  - split; [exact Hagain|]. apply Hnew. vm_compute. reflexivity.
Defined.

(** ** The stores that the program builds *)

(** The two paths of a digest, relative to the objects directory. *)
Lemma digest_paths (full : list byte) :
  exists (c0 c1 r0 : N) (r : list N),
    sha1_hexdigest full = c0 :: c1 :: r0 :: r /\ length r = 37%nat
    /\ shard_dir (sha1_hexdigest full) = objects_dir ++ slash :: [c0; c1]
    /\ object_path (sha1_hexdigest full)
       = objects_dir ++ slash :: c0 :: c1 :: slash :: r0 :: r.
Proof.
  destruct (sha1_hexdigest_shape full) as (c0 & c1 & r & Hsha & Hlen & H0 & H1 & Hr).
  destruct r as [|r0 r]; [discriminate|]. apply Forall_cons in Hr as [Hr0 Hr].
  destruct (paths_of_digest c0 c1 r0 r H0 H1 Hr0) as [Hshard Hpath].
  exists c0, c1, r0, r. rewrite Hsha, Hshard, Hpath, <- app_assoc.
  cbn [length] in Hlen. repeat split. lia.
Qed.

Lemma startswith_same_length (s p : list N) :
  startswith s p = true -> length s = length p -> s = p.
Proof.
  revert s. induction p as [|c p IH]; intros s H Hlen.
  - destruct s; [reflexivity | discriminate].
  - destruct s as [|d s]; [discriminate|]. cbn [startswith] in H.
    apply andb_true_iff in H as [Hc H]. apply N.eqb_eq in Hc as ->.
    f_equal. apply IH; [exact H | cbn [length] in Hlen; lia].
Qed.

Section Stores.

Variable zlib_compress : list byte -> list byte.

(** A new repository has the layout of an object store. *)
Lemma store_inv_fresh : store_inv zlib_compress fresh_repo.
Proof.
  split; [vm_compute; reflexivity|].
  intros rel Hin. exfalso. destruct rel as [|x rel].
  - destruct Hin as [Hin|Hin].
    + unfold fresh_repo in Hin. cbn [dirs] in Hin.
      repeat (apply elem_of_union in Hin as [Hin|Hin]);
        apply elem_of_singleton in Hin; vm_compute in Hin; discriminate.
    + unfold fresh_repo in Hin. cbn [files] in Hin.
      rewrite lookup_singleton_ne in Hin; [destruct Hin; discriminate|].
      intros E. vm_compute in E. discriminate.
  - exact (fresh_repo_objects_empty x rel Hin).
Qed.

(** In an object store the directory of a digest is no regular file and
    the path of its object is no directory. *)
Lemma store_inv_clear (st : fs) (full : list byte) :
  store_inv zlib_compress st ->
  isfile st (shard_dir (sha1_hexdigest full)) = false
  /\ isdir st (object_path (sha1_hexdigest full)) = false.
Proof.
  intros [_ Hinv].
  destruct (digest_paths full) as (c0 & c1 & r0 & r & Hsha & Hlen & Hshard & Hpath).
  rewrite Hshard, Hpath. split.
  - unfold isfile. apply bool_decide_eq_false. intros Hfile.
    destruct (Hinv [c0; c1] (or_intror Hfile)) as [(_ & _ & Hnone)|(full' & Heq & _)].
    + rewrite Hnone in Hfile. destruct Hfile; discriminate.
    + destruct (digest_paths full') as (d0 & d1 & q0 & q & _ & _ & _ & Hpath').
      rewrite Hpath' in Heq. apply app_inv_head in Heq. discriminate.
  - unfold isdir. apply bool_decide_eq_false. intros Hdir.
    destruct (Hinv _ (or_introl Hdir)) as [(Hlen2 & _)|(full' & _ & _ & Hnot & _)].
    + cbn [length] in Hlen2. lia.
    + contradiction.
Qed.

(** An object store can take every object whose digest does not collide
    with the digest of another stored object. *)
Lemma store_inv_ready (st : fs) (full : list byte) :
  store_inv zlib_compress st -> no_collision zlib_compress st full ->
  store_ready zlib_compress st full.
Proof.
  intros Hinv Hcoll. destruct (store_inv_clear st full Hinv) as [Hshardfile Hpathdir].
  destruct Hinv as [Hobjects Hinv].
  split; [exact Hobjects|]. split; [exact Hshardfile|]. split; [exact Hpathdir|].
  destruct (digest_paths full) as (c0 & c1 & r0 & r & Hsha & Hlen & Hshard & Hpath).
  split.
  - intros content Hc. rewrite Hpath in Hc.
    destruct (Hinv _ (or_intror (mk_is_Some _ _ Hc)))
      as [(_ & _ & Hnone)|(full' & Heq & Hfile & _ & Hdir)]; [congruence|].
    assert (sha1_hexdigest full' = sha1_hexdigest full) as Hsame.
    { destruct (digest_paths full') as (d0 & d1 & q0 & q & Hsha' & _ & _ & Hpath').
      rewrite Hpath' in Heq. apply app_inv_head in Heq.
      rewrite Hsha, Hsha'. congruence. }
    rewrite Hc in Hfile. injection Hfile as ->.
    split.
    + apply Hcoll; [exact Hsame|]. rewrite Hpath. exact Hc.
    + rewrite <- Hsame. unfold isdir. apply bool_decide_eq_true. exact Hdir.
  - unfold unambiguous. rewrite Hshard, Hsha, slice_from_2.
    intros name Hname Hstart. apply elem_of_children in Hname as [Hin _].
    rewrite <- app_assoc in Hin. cbn [app] in Hin.
    destruct (Hinv _ Hin) as [(Hlen2 & _)|(full' & Heq & _)].
    + cbn [length] in Hlen2. lia.
    + destruct (digest_paths full') as (d0 & d1 & q0 & q & _ & Hlen' & _ & Hpath').
      rewrite Hpath' in Heq. apply app_inv_head in Heq.
      injection Heq as _ _ Hname.
      apply startswith_same_length; [exact Hstart|].
      rewrite Hname. cbn [length]. lia.
Qed.

(** Adding an object keeps the layout of the store. *)
Lemma store_inv_add (st : fs) (full : list byte) :
  store_inv zlib_compress st ->
  path_exists st (object_path (sha1_hexdigest full)) = false ->
  store_inv zlib_compress (store_add zlib_compress st full).
Proof.
  intros Hinv Hex. destruct (store_inv_clear st full Hinv) as [Hshardfile _].
  destruct Hinv as [Hobjects Hinv].
  destruct (digest_paths full) as (c0 & c1 & r0 & r & Hsha & Hlen & Hshard & Hpath).
  unfold path_exists in Hex. apply orb_false_iff in Hex as [Hpd Hpf].
  unfold isdir in Hpd. apply bool_decide_eq_false in Hpd.
  unfold isfile in Hpf, Hshardfile.
  apply bool_decide_eq_false in Hpf. apply bool_decide_eq_false in Hshardfile.
  assert (files st !! object_path (sha1_hexdigest full) = None) as Hpnone
    by (destruct (files st !! object_path (sha1_hexdigest full)) eqn:E;
        [exfalso; apply Hpf; eauto | reflexivity]).
  assert (files st !! shard_dir (sha1_hexdigest full) = None) as Hsnone
    by (destruct (files st !! shard_dir (sha1_hexdigest full)) eqn:E;
        [exfalso; apply Hshardfile; eauto | reflexivity]).
  assert (object_path (sha1_hexdigest full) <> shard_dir (sha1_hexdigest full)) as Hneq.
  { rewrite Hpath, Hshard. intros E. apply app_inv_head in E. discriminate. }
  unfold store_add. split.
  - unfold isdir in *. cbn [dirs]. apply bool_decide_eq_true, elem_of_union. right.
    apply bool_decide_eq_true in Hobjects. exact Hobjects.
  - cbn [dirs files]. intros rel Hin.
    destruct (decide (objects_dir ++ slash :: rel = object_path (sha1_hexdigest full)))
      as [Eobj|Eobj].
    { right. exists full. rewrite Eobj.
      split; [reflexivity|]. split; [apply lookup_insert_eq|]. split.
      - intros Hd. apply elem_of_union in Hd as [Hd|Hd]; [|contradiction].
        apply elem_of_singleton in Hd. contradiction.
      - apply elem_of_union. left. apply elem_of_singleton. reflexivity. }
    rewrite lookup_insert_ne in Hin |- * by congruence.
    destruct (decide (objects_dir ++ slash :: rel = shard_dir (sha1_hexdigest full)))
      as [Eshard|Eshard].
    { left. rewrite Eshard. split; [|split].
      - rewrite Hshard in Eshard. apply app_inv_head in Eshard. injection Eshard as ->.
        reflexivity.
      - apply elem_of_union. left. apply elem_of_singleton. reflexivity.
      - exact Hsnone. }
    assert (objects_dir ++ slash :: rel ∈ dirs st
            \/ is_Some (files st !! (objects_dir ++ slash :: rel))) as Hold.
    { destruct Hin as [Hin|Hin]; [|right; exact Hin].
      apply elem_of_union in Hin as [Hin|Hin]; [|left; exact Hin].
      apply elem_of_singleton in Hin. contradiction. }
    destruct (Hinv rel Hold) as [(Hlen2 & Hd & Hnone)|(full' & Heq & Hfile & Hnot & Hdir)].
    + left. split; [exact Hlen2|]. split; [|exact Hnone].
      apply elem_of_union. right. exact Hd.
    + right. exists full'. split; [exact Heq|]. split; [exact Hfile|]. split.
      * intros Hd. apply elem_of_union in Hd as [Hd|Hd]; [|contradiction].
        apply elem_of_singleton in Hd. contradiction.
      * apply elem_of_union. right. exact Hdir.
Qed.

(** [hash_object] keeps the layout of the store. *)
Lemma store_inv_hash_object (st st' : fs) (data : list byte) (obj_type : list N)
    (r : result (list N)) :
  store_inv zlib_compress st ->
  obj_type ∈ object_types ->
  hash_object zlib_compress data obj_type true st = (r, st') ->
  store_inv zlib_compress st'.
Proof.
  intros Hinv Htype Hcall. destruct (object_types_plain obj_type Htype) as [Hplain _].
  destruct (store_inv_clear st (framed obj_type data) Hinv) as [Hshardfile _].
  rewrite (hash_object_outcome zlib_compress st obj_type data Hplain (proj1 Hinv) Hshardfile)
    in Hcall.
  injection Hcall as _ <-.
  destruct (path_exists st (object_path (sha1_hexdigest (framed obj_type data)))) eqn:Hex;
    [exact Hinv|]. apply store_inv_add; assumption.
Qed.

(** Every store that the program builds has the layout of an object
    store. *)
Lemma written_store_inv (st : fs) : written zlib_compress st -> store_inv zlib_compress st.
Proof.
  induction 1 as [|st st' data obj_type r _ IH Htype Hcall]; [apply store_inv_fresh|].
  exact (store_inv_hash_object st st' data obj_type r IH Htype Hcall).
Qed.

End Stores.

(** X15: in every store that calls of [hash_object] have made of a new
    repository, an object whose digest does not collide with the digest of
    another stored object is read back as it was written. *)
Lemma hash_object_read_object_written
    (zlib_compress : list byte -> list byte)
    (zlib_decompress : list byte -> result (list byte)) (st : fs)
    (obj_type : list N) (data : list byte) :
  (forall x, zlib_decompress (zlib_compress x) = inr x) ->
  written zlib_compress st ->
  obj_type ∈ object_types ->
  no_collision zlib_compress st (framed obj_type data) ->
  exists sha1 st',
    hash_object zlib_compress data obj_type true st = (inr sha1, st')
    /\ read_object zlib_decompress sha1 st' = inr (obj_type, data).
Proof.
  intros Hrt Hst Htype Hcoll.
  destruct (object_types_plain obj_type Htype) as [Hplain Hne].
  apply write_then_read; [exact Hrt | exact Hplain | exact Hne |].
  apply store_inv_ready; [apply written_store_inv, Hst | exact Hcoll].
Qed.

(** Two blobs written one after the other are both read back, by digest
    and by a prefix of the digest. *)
Example two_blobs :
  let st := snd (hash_object stored (blit "world") (str "blob") true hello_store) in
  read_object unstored (str "b6fc4c620b67d95f953a5c1c1230aaab5db5a1b0") st
  = inr (str "blob", blit "hello")
  /\ read_object unstored (str "04fea06420ca60892f73becee3614f6d023a4b7f") st
     = inr (str "blob", blit "world")
  /\ read_object unstored (str "04fe") st = inr (str "blob", blit "world").
Proof. repeat split; vm_compute; reflexivity. Qed.

(** * The commands, the store and the readers: further properties *)

(** ** The index reader: what it returns and what it raises *)

Lemma slice_length_40 (data : list byte) :
  length data = 40%nat -> length (slice data 12 (-20)) = 8%nat.
Proof.
  intros H. unfold slice. rewrite (norm_index_nonneg _ 12), (norm_index_neg _ (-20)) by lia.
  rewrite length_take, length_drop. rewrite H. reflexivity.
Qed.

(** X2: [read_index] never returns an entry: whatever the working directory
    holds, the call returns the empty list or raises.  The checksum
    assertion only lets files of 40 bytes through, whose entry region has 8
    bytes, too few for one iteration of the loop. *)
Theorem read_index_returns_no_entry (st : fs) :
  read_index st = Some (inr []) \/ exists e, read_index st = Some (inl e).
Proof.
  unfold read_index. destruct (read_file st index_path) as [e|data].
  { destruct e; eauto. }
  destruct (decide (length data = 40%nat)) as [Hlen|Hlen].
  2:{ right. rewrite read_index_bytes_checksum by exact Hlen. eauto. }
  unfold read_index_bytes.
  destruct (py_assert _ InvalidIndexChecksum); [eauto|].
  destruct (unpack_4sLL _) as [e|[[signature version] num_entries]]; [eauto|].
  destruct (py_assert _ (InvalidIndexSignature signature)); [eauto|].
  destruct (py_assert _ (UnknownIndexVersion version)); [eauto|].
  rewrite (slice_length_40 data Hlen).
  cbn [read_index_loop].
  destruct (Z.ltb_spec (0 + 62) (Z.of_nat (length (slice data 12 (-20))))) as [H|_].
  { rewrite slice_length_40 in H by exact Hlen. lia. }
  unfold ret at 1 3. cbv iota beta. cbn [length].
  match goal with |- context [py_assert ?c ?a] => destruct (py_assert c a) end; eauto.
Qed.

(** [bytes.decode()] raises nothing but UnicodeDecodeError. *)
Lemma utf8_decode_raises (n : nat) :
  forall (bs : list byte) (e : exn),
  (length bs <= n)%nat -> utf8_decode bs = inl e -> e = UnicodeDecodeError.
Proof.
  induction n as [|n IH]; intros bs e Hlen H.
  - destruct bs; [discriminate | cbn [length] in Hlen; lia].
  - assert (forall r : list byte, (length r <= n)%nat ->
              forall (c : N), (let* s := utf8_decode r in ret (c :: s)) = inl e ->
              e = UnicodeDecodeError) as Hrec.
    { intros r Hr c Hc. destruct (utf8_decode r) as [e'|s] eqn:E; [|discriminate].
      cbn [bind] in Hc. injection Hc as <-. exact (IH r e' Hr E). }
    destruct bs as [|b0 r0]; [discriminate|]. cbn [utf8_decode] in H.
    cbn [length] in Hlen.
    repeat match type of H with
    | (if ?c then _ else _) = _ => destruct c
    | raise _ = inl _ => injection H as <-; reflexivity
    | match ?r with [] => _ | _ :: _ => _ end = _ => destruct r; cbn [length] in Hlen
    | bind _ _ = _ => apply Hrec in H; [exact H | lia]
    end.
Qed.

Lemma slice_length_62 (data : list byte) (i : Z) :
  0 <= i -> i + 62 < Z.of_nat (length data) -> length (slice data i (i + 62)) = 62%nat.
Proof.
  intros Hi H. unfold slice. rewrite !norm_index_nonneg by lia.
  rewrite length_take, length_drop. lia.
Qed.

(** X3: the entry loop of [read_index] raises nothing but the ValueError of
    [bytes.index] (no NUL after the fixed fields) and UnicodeDecodeError (a
    path that is not UTF-8).  [struct.unpack] never fails in it: the loop
    condition leaves at least 62 bytes for the fixed fields. *)
Theorem read_index_loop_raises (fuel : nat) (entry_data : list byte) :
  forall (i : Z) (es : list INDEXENTRY.t) (e : exn),
  0 <= i ->
  read_index_loop fuel entry_data i es = Some (inl e) ->
  e = ValueError SubsectionNotFound \/ e = UnicodeDecodeError.
Proof.
  induction fuel as [|fuel IH]; intros i es e Hi H; cbn [read_index_loop] in H.
  - destruct (i + 62 <? _); discriminate.
  - destruct (Z.ltb_spec (i + 62) (Z.of_nat (length entry_data))) as [Hlt|_]; [|discriminate].
    unfold unpack_fields in H. rewrite slice_length_62 in H by assumption.
    cbn [Nat.eqb] in H. unfold ret at 1 in H. cbv iota beta in H.
    unfold bytes_index in H.
    destruct (bytes_find entry_data NUL (i + 62) <? 0).
    { injection H as <-. left. reflexivity. }
    unfold ret at 1 in H. cbv iota beta in H.
    destruct (utf8_decode _) as [e'|p] eqn:E.
    { injection H as <-. right. eapply utf8_decode_raises; [reflexivity | exact E]. }
    apply IH in H; [exact H|].
    pose proof (entry_len_positive (Z.of_nat (length (slice entry_data (i + 62)
                  (bytes_find entry_data NUL (i + 62)))))). lia.
Qed.

Lemma read_index_loop_raises_witness :
  read_index_loop 1 (repeat x01 63) 0 [] = Some (inl (ValueError SubsectionNotFound))
  /\ (ValueError SubsectionNotFound = ValueError SubsectionNotFound
      \/ ValueError SubsectionNotFound = UnicodeDecodeError).
Proof.
  assert (read_index_loop 1 (repeat x01 63) 0 [] = Some (inl (ValueError SubsectionNotFound)))
    as H by (vm_compute; reflexivity).
  split; [exact H|].
  apply (read_index_loop_raises 1 (repeat x01 63) 0 []); [lia | exact H].
Defined.

(** X4: when at least 63 bytes remain but no NUL follows the 62 fixed bytes
    of a record, the entry loop raises the ValueError of [bytes.index]
    (subsection not found): a path that runs to the end of the entry region
    is an error, not a last entry. *)
Theorem read_index_loop_unterminated (fuel : nat) (entry_data : list byte) (i : Z)
    (es : list INDEXENTRY.t) :
  0 <= i -> i + 62 < Z.of_nat (length entry_data) ->
  NUL ∉ slice_from entry_data (i + 62) ->
  read_index_loop (S fuel) entry_data i es = Some (inl (ValueError SubsectionNotFound)).
Proof.
  intros Hi Hlt Hnul. cbn [read_index_loop].
  destruct (Z.ltb_spec (i + 62) (Z.of_nat (length entry_data))) as [_|?]; [|lia].
  unfold unpack_fields. rewrite slice_length_62 by assumption.
  cbn [Nat.eqb]. unfold ret at 1. cbv iota beta.
  unfold bytes_index, bytes_find. unfold slice_from in Hnul.
  rewrite find_at_none by exact Hnul. reflexivity.
Qed.

Lemma read_index_loop_unterminated_witness :
  read_index_loop 1 (repeat x01 62 ++ blit "README") 0 []
  = Some (inl (ValueError SubsectionNotFound)).
Proof.
  apply (read_index_loop_unterminated 0 (repeat x01 62 ++ blit "README") 0 []).
  - lia.
  - vm_compute. reflexivity.
  - intros H. apply list_elem_of_In in H. vm_compute in H. intuition discriminate.
Defined.

(** ** Paths and directories *)

Lemma makedirs_fuel_ge (fuel : nat) (name : list N) (st : fs) :
  (length name < fuel)%nat -> makedirs_fuel fuel name st = makedirs name st.
Proof.
  unfold makedirs. intros H.
  replace fuel with (S (length name) + (fuel - S (length name)))%nat by lia.
  induction (fuel - S (length name))%nat as [|k IH].
  - rewrite Nat.add_0_r. reflexivity.
  - rewrite <- plus_n_Sm. rewrite makedirs_fuel_enough by lia. exact IH.
Qed.

Lemma path_split_name (n : list N) :
  Forall (fun c => is_slash c = false) n -> path_split n = ([], n).
Proof.
  intros Hn. unfold path_split.
  assert (take_while (fun c => negb (is_slash c)) (rev n) = rev n) as ->.
  { apply Forall_rev in Hn. induction Hn as [|c l Hc Hl IH]; [reflexivity|].
    cbn [take_while]. rewrite Hc. cbn [negb]. rewrite IH. reflexivity. }
  rewrite rev_involutive, Nat.sub_diag. reflexivity.
Qed.

Lemma not_exists_lookup (st : fs) (p : list N) :
  path_exists st p = false -> (p ∉ dirs st) /\ files st !! p = None.
Proof.
  unfold path_exists, isdir, isfile. intros H. apply orb_false_iff in H as [Hd Hf].
  apply bool_decide_eq_false in Hd, Hf. split; [exact Hd|].
  destruct (files st !! p); [exfalso; apply Hf; eauto | reflexivity].
Qed.

Lemma path_exists_add (st : fs) (d p : list N) :
  p <> d -> path_exists (mkfs ({[ d ]} ∪ dirs st) (files st)) p = path_exists st p.
Proof.
  intros Hne. unfold path_exists, isdir, isfile. cbn [dirs files]. f_equal.
  apply bool_decide_ext. rewrite elem_of_union, elem_of_singleton. intuition.
Qed.

Lemma isdir_add (ds : gset (list N)) (fm : gmap (list N) (list byte)) (d : list N) :
  isdir (mkfs ({[ d ]} ∪ ds) fm) d = true.
Proof.
  unfold isdir. cbn [dirs]. apply bool_decide_eq_true, elem_of_union. left.
  apply elem_of_singleton. reflexivity.
Qed.

Lemma isdir_union (ds : gset (list N)) (fm : gmap (list N) (list byte)) (d p : list N) :
  isdir (mkfs ({[ d ]} ∪ ds) fm) p = bool_decide (p = d) || isdir (mkfs ds fm) p.
Proof.
  unfold isdir. cbn [dirs].
  destruct (decide (p = d)) as [->|Hne].
  - rewrite (bool_decide_eq_true_2 (d = d)) by reflexivity. cbn [orb].
    apply bool_decide_eq_true, elem_of_union. left. apply elem_of_singleton. reflexivity.
  - rewrite (bool_decide_eq_false_2 (p = d)) by exact Hne. cbn [orb].
    apply bool_decide_ext. rewrite elem_of_union, elem_of_singleton. tauto.
Qed.

Lemma isdir_files (ds : gset (list N)) (fm fm' : gmap (list N) (list byte)) (p : list N) :
  isdir (mkfs ds fm) p = isdir (mkfs ds fm') p.
Proof. reflexivity. Qed.

Lemma entry_name_last (n : list N) :
  entry_name n -> exists a x, n = a ++ [x] /\ is_slash x = false.
Proof.
  intros [Hne Hn]. destruct (exists_last Hne) as (a & x & ->). exists a, x.
  split; [reflexivity|]. apply Forall_app in Hn as [_ Hx].
  apply Forall_cons in Hx as [Hx _]. exact Hx.
Qed.

Lemma ends_plain_app (p : list N) (a : list N) (x : N) :
  is_slash x = false -> ends_plain (p ++ a ++ [x]).
Proof. intros Hx. exists (p ++ a), x. rewrite <- app_assoc. split; [reflexivity | exact Hx]. Qed.

(** [mkdir] on a path that is free, below a directory that exists. *)
Lemma mkdir_child (st : fs) (a : list N) (x : N) (b : list N) :
  is_slash x = false -> Forall (fun c => is_slash c = false) b ->
  isdir st (a ++ [x]) = true ->
  path_exists st ((a ++ [x]) ++ slash :: b) = false ->
  mkdir ((a ++ [x]) ++ slash :: b) st
  = (inr tt, mkfs ({[ (a ++ [x]) ++ slash :: b ]} ∪ dirs st) (files st)).
Proof.
  intros Hx Hb Hdir Hex. unfold mkdir. rewrite Hex.
  unfold parent_error, dirname. rewrite path_split_join by assumption. cbn [fst].
  rewrite Hdir. destruct (a ++ [x]) eqn:E; [|reflexivity].
  apply (f_equal length) in E. rewrite length_app in E. cbn [length] in E. lia.
Qed.

Lemma mkdir_in (st : fs) (parent name : list N) :
  ends_plain parent -> Forall (fun c => is_slash c = false) name ->
  isdir st parent = true ->
  path_exists st (parent ++ slash :: name) = false ->
  mkdir (parent ++ slash :: name) st
  = (inr tt, mkfs ({[ parent ++ slash :: name ]} ∪ dirs st) (files st)).
Proof.
  intros (a & x & -> & Hx) Hname Hdir Hex. apply mkdir_child; assumption.
Qed.

Lemma write_file_in (st : fs) (parent name : list N) (content : list byte) :
  ends_plain parent -> Forall (fun c => is_slash c = false) name ->
  isdir st parent = true ->
  isdir st (parent ++ slash :: name) = false ->
  write_file (parent ++ slash :: name) content st
  = (inr tt, mkfs (dirs st) (<[ parent ++ slash :: name := content ]> (files st))).
Proof.
  intros (a & x & -> & Hx) Hname Hdir Hex.
  assert (dirname ((a ++ [x]) ++ slash :: name) = a ++ [x]) as E
    by (unfold dirname; rewrite path_split_join by assumption; reflexivity).
  apply write_file_new; [exact Hex | | rewrite E; exact Hdir].
  rewrite E. intros E'. apply (f_equal length) in E'. rewrite length_app in E'.
  cbn [length] in E'. lia.
Qed.

Lemma write_file_dirs (path : list N) (content : list byte) (st : fs) :
  dirs (snd (write_file path content st)) = dirs st.
Proof.
  unfold write_file. destruct (isdir st path); [reflexivity|].
  destruct (parent_error st path); reflexivity.
Qed.

Lemma write_file_keeps (path : list N) (content : list byte) (st : fs) :
  files st !! path = None ->
  dirs (snd (write_file path content st)) = dirs st
  /\ files st ⊆ files (snd (write_file path content st)).
Proof.
  intros Hnone. unfold write_file. destruct (isdir st path); [split; reflexivity|].
  destruct (parent_error st path); [split; reflexivity|].
  cbn [snd dirs files]. split; [reflexivity|]. apply insert_subseteq, Hnone.
Qed.

Lemma below_rel (repo rel : list N) : below repo (repo ++ slash :: rel).
Proof. right. exists rel. reflexivity. Qed.

Lemma app_tail_neq {A} (l t1 t2 : list A) : t1 <> t2 -> l ++ t1 <> l ++ t2.
Proof. intros Hne E. apply app_inv_head in E. contradiction. Qed.

Lemma app_neq_self {A} (l : list A) (x : A) (t : list A) : l ++ x :: t <> l.
Proof.
  intros E. apply (f_equal length) in E. rewrite length_app in E. cbn [length] in E. lia.
Qed.

Lemma vacant_empty_dir (d : list N) : vacant empty_dir d.
Proof.
  intros p _. unfold path_exists, isdir, isfile, empty_dir. cbn [dirs files].
  rewrite lookup_empty. apply orb_false_iff.
  split; apply bool_decide_eq_false; [apply not_elem_of_empty | apply is_Some_None].
Qed.

(** [makedirs] on a name in the working directory. *)
Lemma makedirs_top (st : fs) (n : list N) :
  entry_name n -> path_exists st n = false ->
  makedirs n st = (inr tt, mkfs ({[ n ]} ∪ dirs st) (files st)).
Proof.
  intros [Hne Hn] Hex. unfold makedirs. cbn [makedirs_fuel]. unfold makedirs_body.
  rewrite (path_split_name n Hn). destruct n as [|n0 n]; [congruence|].
  unfold mkdir. rewrite Hex. unfold parent_error, dirname.
  rewrite (path_split_name (n0 :: n) Hn). reflexivity.
Qed.

(** [makedirs] on a directory whose parent is missing: the parent is made
    first. *)
Lemma makedirs_missing_parent (st st1 : fs) (a : list N) (x t0 : N) (tail : list N) :
  is_slash x = false -> Forall (fun c => is_slash c = false) (t0 :: tail) ->
  t0 :: tail <> [46%N] ->
  path_exists st (a ++ [x]) = false ->
  makedirs (a ++ [x]) st = (inr tt, st1) ->
  isdir st1 (a ++ [x]) = true ->
  path_exists st1 ((a ++ [x]) ++ slash :: t0 :: tail) = false ->
  makedirs ((a ++ [x]) ++ slash :: t0 :: tail) st
  = (inr tt, mkfs ({[ (a ++ [x]) ++ slash :: t0 :: tail ]} ∪ dirs st1) (files st1)).
Proof.
  intros Hx Htail Hdot Hmissing Hparent Hdir Hex.
  set (sd := (a ++ [x]) ++ slash :: t0 :: tail) in *.
  assert (path_split sd = (a ++ [x], t0 :: tail)) as Hsplit
    by (apply path_split_join; assumption).
  unfold makedirs. cbn [makedirs_fuel]. unfold makedirs_body. rewrite Hsplit.
  destruct (a ++ [x]) as [|h head'] eqn:Ehead.
  { apply (f_equal length) in Ehead. rewrite length_app in Ehead. cbn [length] in Ehead. lia. }
  rewrite Hmissing.
  rewrite makedirs_fuel_ge, Hparent.
  2:{ unfold sd. rewrite length_app. cbn [length]. lia. }
  rewrite decide_False by exact Hdot.
  unfold mkdir. rewrite Hex. unfold parent_error, dirname. rewrite Hsplit. cbn [fst].
  rewrite Hdir. reflexivity.
Qed.

(** ** init *)

(** The paths that [init] joins. *)
Lemma join_git (repo name : list N) :
  entry_name repo -> name <> [] -> starts_with_slash name = false ->
  join repo [str ".git"] = repo ++ str "/.git"
  /\ join repo [str ".git"; name] = repo ++ str "/.git/" ++ name.
Proof.
  intros Hrepo Hne Hname. destruct (entry_name_last repo Hrepo) as (a & x & Erepo & Hx).
  assert (join2 repo (str ".git") = repo ++ str "/.git") as Egit.
  { rewrite Erepo. apply join2_plain; [exact Hx | reflexivity]. }
  split; [exact Egit|].
  unfold join. cbn [fold_left]. rewrite Egit.
  destruct name as [|n0 n]; [congruence|]. cbn [starts_with_slash] in Hname.
  replace (repo ++ str "/.git") with ((repo ++ str "/.gi") ++ [116%N])
    by (rewrite <- app_assoc; reflexivity).
  rewrite join2_plain by (reflexivity || assumption).
  rewrite <- !app_assoc. reflexivity.
Qed.

(** Two paths of the repository that differ. *)
Ltac other_path :=
  first [ apply app_neq_self
        | apply not_eq_sym, app_neq_self
        | rewrite <- ?app_assoc; apply app_tail_neq; discriminate ].

(** [init] on a name at which, and below which, nothing exists. *)
Lemma init_vacant (repo : list N) (st : fs) :
  entry_name repo -> vacant st repo ->
  init repo st
  = (inr tt, initialized repo st, [Print (str "initialized empty repository: " ++ repo)]).
Proof.
  intros Hrepo Hvac.
  assert (forall rel, path_exists st (repo ++ slash :: rel) = false) as Hfree
    by (intros rel; apply Hvac, below_rel).
  destruct (join_git repo (str "objects") Hrepo ltac:(discriminate) eq_refl) as [Egit Eobjects].
  destruct (join_git repo (str "refs") Hrepo ltac:(discriminate) eq_refl) as [_ Erefs].
  destruct (join_git repo (str "refs/heads") Hrepo ltac:(discriminate) eq_refl) as [_ Eheads].
  destruct (join_git repo (str "HEAD") Hrepo ltac:(discriminate) eq_refl) as [_ EHEAD].
  unfold init, and_then. cbn [for_each]. unfold and_then.
  rewrite Egit, Eobjects, Erefs, Eheads, EHEAD.
  assert (mkdir repo st = (inr tt, mkfs ({[ repo ]} ∪ dirs st) (files st))) as ->.
  { unfold mkdir. rewrite (Hvac repo) by (left; reflexivity).
    unfold parent_error, dirname. rewrite path_split_name by apply Hrepo. reflexivity. }
  set (st1 := mkfs ({[ repo ]} ∪ dirs st) (files st)).
  assert (mkdir (repo ++ str "/.git") st1
          = (inr tt, mkfs ({[ repo ++ str "/.git" ]} ∪ dirs st1) (files st1))) as ->.
  { apply (mkdir_in st1 repo (str ".git")).
    - apply entry_name_last, Hrepo.
    - repeat constructor.
    - apply isdir_add.
    - unfold st1. rewrite path_exists_add by other_path. apply Hfree. }
  set (st2 := mkfs ({[ repo ++ str "/.git" ]} ∪ dirs st1) (files st1)).
  assert (mkdir (repo ++ str "/.git/" ++ str "objects") st2
          = (inr tt, mkfs ({[ repo ++ str "/.git/objects" ]} ∪ dirs st2) (files st2))) as ->.
  { change (str "/.git/" ++ str "objects") with (str "/.git/objects").
    replace (repo ++ str "/.git/objects") with ((repo ++ str "/.git") ++ slash :: str "objects")
      by (rewrite <- app_assoc; reflexivity).
    apply (mkdir_in st2 (repo ++ str "/.git") (str "objects")).
    - apply (ends_plain_app repo (str "/.gi")). reflexivity.
    - repeat constructor.
    - apply isdir_add.
    - rewrite <- app_assoc. unfold st2. rewrite path_exists_add by other_path.
      unfold st1. rewrite path_exists_add by other_path. apply Hfree. }
  set (st3 := mkfs ({[ repo ++ str "/.git/objects" ]} ∪ dirs st2) (files st2)).
  assert (mkdir (repo ++ str "/.git/" ++ str "refs") st3
          = (inr tt, mkfs ({[ repo ++ str "/.git/refs" ]} ∪ dirs st3) (files st3))) as ->.
  { change (str "/.git/" ++ str "refs") with (str "/.git/refs").
    replace (repo ++ str "/.git/refs") with ((repo ++ str "/.git") ++ slash :: str "refs")
      by (rewrite <- app_assoc; reflexivity).
    apply (mkdir_in st3 (repo ++ str "/.git") (str "refs")).
    - apply (ends_plain_app repo (str "/.gi")). reflexivity.
    - repeat constructor.
    - unfold isdir, st3, st2. cbn [dirs]. apply bool_decide_eq_true.
      rewrite !elem_of_union, !elem_of_singleton. tauto.
    - rewrite <- app_assoc. unfold st3. rewrite path_exists_add by other_path.
      unfold st2. rewrite path_exists_add by other_path.
      unfold st1. rewrite path_exists_add by other_path. apply Hfree. }
  set (st4 := mkfs ({[ repo ++ str "/.git/refs" ]} ∪ dirs st3) (files st3)).
  assert (mkdir (repo ++ str "/.git/" ++ str "refs/heads") st4
          = (inr tt, mkfs ({[ repo ++ str "/.git/refs/heads" ]} ∪ dirs st4) (files st4))) as ->.
  { change (str "/.git/" ++ str "refs/heads") with (str "/.git/refs/heads").
    replace (repo ++ str "/.git/refs/heads") with ((repo ++ str "/.git/refs") ++ slash :: str "heads")
      by (rewrite <- app_assoc; reflexivity).
    apply (mkdir_in st4 (repo ++ str "/.git/refs") (str "heads")).
    - apply (ends_plain_app repo (str "/.git/ref")). reflexivity.
    - repeat constructor.
    - apply isdir_add.
    - rewrite <- app_assoc. unfold st4. rewrite path_exists_add by other_path.
      unfold st3. rewrite path_exists_add by other_path.
      unfold st2. rewrite path_exists_add by other_path.
      unfold st1. rewrite path_exists_add by other_path. apply Hfree. }
  set (st5 := mkfs ({[ repo ++ str "/.git/refs/heads" ]} ∪ dirs st4) (files st4)).
  assert (write_file (repo ++ str "/.git/" ++ str "HEAD") (blit "ref: regs/heads/master") st5
          = (inr tt, initialized repo st)) as ->; [|reflexivity].
  change (str "/.git/" ++ str "HEAD") with (str "/.git/HEAD"). unfold initialized.
  replace (repo ++ str "/.git/HEAD") with ((repo ++ str "/.git") ++ slash :: str "HEAD")
    by (rewrite <- app_assoc; reflexivity).
  rewrite (write_file_in st5 (repo ++ str "/.git") (str "HEAD")).
  - reflexivity.
  - apply (ends_plain_app repo (str "/.gi")). reflexivity.
  - repeat constructor.
  - unfold isdir, st5, st4, st3, st2. cbn [dirs]. apply bool_decide_eq_true.
    rewrite !elem_of_union, !elem_of_singleton. tauto.
  - rewrite <- app_assoc.
    assert (path_exists st5 (repo ++ str "/.git/HEAD") = false) as Hex.
    { unfold st5. rewrite path_exists_add by other_path.
      unfold st4. rewrite path_exists_add by other_path.
      unfold st3. rewrite path_exists_add by other_path.
      unfold st2. rewrite path_exists_add by other_path.
      unfold st1. rewrite path_exists_add by other_path. apply Hfree. }
    unfold path_exists in Hex. apply orb_false_iff in Hex as [Hd _]. exact Hd.
Qed.

Lemma bool_decide_inside (repo rel t : list N) :
  bool_decide (repo ++ slash :: rel = repo ++ slash :: t) = bool_decide (rel = t).
Proof.
  apply bool_decide_ext. split; [|intros ->; reflexivity].
  intros E. apply app_inv_head in E. congruence.
Qed.

(** The directories of a new repository. *)
Lemma isdir_fresh_repo (rel : list N) :
  isdir fresh_repo rel
  = bool_decide (rel = str ".git/refs/heads")
    || (bool_decide (rel = str ".git/refs")
        || (bool_decide (rel = str ".git/objects") || bool_decide (rel = str ".git"))).
Proof.
  unfold isdir, fresh_repo. cbn [dirs].
  destruct (decide (rel = str ".git/refs/heads")) as [->|H1]; [vm_compute; reflexivity|].
  destruct (decide (rel = str ".git/refs")) as [->|H2]; [vm_compute; reflexivity|].
  destruct (decide (rel = str ".git/objects")) as [->|H3]; [vm_compute; reflexivity|].
  destruct (decide (rel = str ".git")) as [->|H4]; [vm_compute; reflexivity|].
  rewrite (bool_decide_eq_false_2 (rel = str ".git/refs/heads")) by exact H1.
  rewrite (bool_decide_eq_false_2 (rel = str ".git/refs")) by exact H2.
  rewrite (bool_decide_eq_false_2 (rel = str ".git/objects")) by exact H3.
  rewrite (bool_decide_eq_false_2 (rel = str ".git")) by exact H4.
  apply bool_decide_eq_false.
  rewrite !elem_of_union, !elem_of_singleton. tauto.
Qed.

Lemma plain_name_entry (n : list N) : plain_name n = true -> entry_name n.
Proof.
  unfold plain_name. rewrite !andb_true_iff, negb_true_iff, bool_decide_eq_false.
  intros [[[[Hne _] _] Hchars] _]. split; [exact Hne|].
  apply Forall_forall. intros c Hc. apply list_elem_of_In in Hc.
  apply (proj1 (forallb_forall _ _) Hchars) in Hc.
  rewrite !andb_true_iff, negb_true_iff in Hc. apply Hc.
Qed.

(** X5: [init(repo)], for a plain name (ASCII, no separator, neither [.]
    nor [..]) at which and below which nothing exists, in a working
    directory recorded in plain paths, returns and prints its message;
    the directory [repo] then exists, what lies below it is exactly a new
    repository - the directories [.git], [.git/objects], [.git/refs],
    [.git/refs/heads] and the file [.git/HEAD], which holds
    [ref: regs/heads/master] as the source writes it - and nothing
    outside [repo] has changed.  Paths are named by their plain
    spelling. *)
Theorem init_creates_repository (repo : list N) (st : fs) :
  plain_name repo = true -> canonical st -> vacant st repo ->
  exists st',
    init repo st = (inr tt, st', [Print (str "initialized empty repository: " ++ repo)])
    /\ isdir st' repo = true
    /\ (forall rel, canonical_path rel = true ->
          isdir st' (repo ++ slash :: rel) = isdir fresh_repo rel
          /\ files st' !! (repo ++ slash :: rel) = files fresh_repo !! rel)
    /\ (forall p, canonical_path p = true -> ~ below repo p ->
          isdir st' p = isdir st p /\ files st' !! p = files st !! p).
Proof.
  intros Hrepo%plain_name_entry _ Hvac. exists (initialized repo st).
  split; [apply init_vacant; assumption|].
  assert (forall rel, isdir st (repo ++ slash :: rel) = false
                      /\ files st !! (repo ++ slash :: rel) = None) as Hfree.
  { intros rel. pose proof (Hvac _ (below_rel repo rel)) as H.
    split; [|apply not_exists_lookup, H].
    unfold path_exists in H. apply orb_false_iff in H as [H _]. exact H. }
  unfold initialized. split; [|split].
  - rewrite !isdir_union. rewrite (bool_decide_eq_true_2 (repo = repo)) by reflexivity.
    rewrite !orb_true_r. reflexivity.
  - intros rel _. destruct (Hfree rel) as [Hd Hf]. split.
    + rewrite !isdir_union.
      change (str "/.git/refs/heads") with (slash :: str ".git/refs/heads").
      change (str "/.git/refs") with (slash :: str ".git/refs").
      change (str "/.git/objects") with (slash :: str ".git/objects").
      change (str "/.git") with (slash :: str ".git").
      rewrite !bool_decide_inside.
      rewrite (bool_decide_eq_false_2 (repo ++ slash :: rel = repo)) by apply app_neq_self.
      rewrite (isdir_files (dirs st) _ (files st)), fs_eta, Hd, isdir_fresh_repo.
      destruct (bool_decide (rel = str ".git/refs/heads")),
        (bool_decide (rel = str ".git/refs")), (bool_decide (rel = str ".git/objects")),
        (bool_decide (rel = str ".git")); reflexivity.
    + cbn [files]. change (str "/.git/HEAD") with (slash :: str ".git/HEAD").
      unfold fresh_repo. cbn [files].
      destruct (decide (rel = str ".git/HEAD")) as [->|Hne].
      * rewrite lookup_insert_eq, lookup_singleton_eq. reflexivity.
      * rewrite lookup_insert_ne by (intros E; apply app_inv_head in E; congruence).
        rewrite lookup_singleton_ne by congruence. exact Hf.
  - intros p _ Hp.
    assert (forall rel, p <> repo ++ slash :: rel) as Hout
      by (intros rel ->; apply Hp, below_rel).
    split.
    + rewrite !isdir_union.
      change (str "/.git/refs/heads") with (slash :: str ".git/refs/heads").
      change (str "/.git/refs") with (slash :: str ".git/refs").
      change (str "/.git/objects") with (slash :: str ".git/objects").
      change (str "/.git") with (slash :: str ".git").
      rewrite !(bool_decide_eq_false_2 (p = repo ++ slash :: _)) by apply Hout.
      rewrite (bool_decide_eq_false_2 (p = repo)) by (intros ->; apply Hp; left; reflexivity).
      reflexivity.
    + cbn [files]. change (str "/.git/HEAD") with (slash :: str ".git/HEAD").
      apply lookup_insert_ne. apply not_eq_sym, Hout.
Qed.

Lemma init_creates_repository_witness :
  exists st',
    init (str "proj") empty_dir
    = (inr tt, st', [Print (str "initialized empty repository: " ++ str "proj")])
    /\ isdir st' (str "proj") = true
    /\ (forall rel, canonical_path rel = true ->
          isdir st' (str "proj" ++ slash :: rel) = isdir fresh_repo rel
          /\ files st' !! (str "proj" ++ slash :: rel) = files fresh_repo !! rel)
    /\ (forall p, canonical_path p = true -> ~ below (str "proj") p ->
          isdir st' p = isdir empty_dir p /\ files st' !! p = files empty_dir !! p).
Proof.
  apply (init_creates_repository (str "proj") empty_dir).
  - reflexivity.
  - vm_compute. reflexivity.
  - apply vacant_empty_dir.
Defined.

(** X6: [init] on a path that exists raises FileExistsError, prints nothing
    and leaves the working directory as it was; in particular a call of
    [init] that has returned cannot be repeated. *)
Theorem init_refused (repo : list N) (st : fs) :
  (path_exists st repo = true -> init repo st = (inl (FileExistsError repo), st, []))
  /\ forall (st' : fs) (out : list output),
       init repo st = (inr tt, st', out) ->
       init repo st' = (inl (FileExistsError repo), st', []).
Proof.
  assert (forall s, path_exists s repo = true ->
            init repo s = (inl (FileExistsError repo), s, [])) as Hexists.
  { intros s H. unfold init, and_then, mkdir. rewrite H. reflexivity. }
  split; [apply Hexists|].
  intros st' out H. apply Hexists.
  unfold init, and_then in H. cbn [for_each] in H. unfold and_then in H.
  assert (forall p s, mkdir p s = (inr tt, snd (mkdir p s)) -> p ∈ dirs (snd (mkdir p s)))
    as Hmade.
  { intros p s. unfold mkdir. destruct (path_exists s p); [discriminate|].
    destruct (parent_error s p); [discriminate|]. intros _. cbn [snd dirs].
    apply elem_of_union. left. apply elem_of_singleton. reflexivity. }
  pose proof (Hmade repo st) as Hrepo.
  destruct (mkdir repo st) as [[e|[]] st1]; [discriminate|].
  specialize (Hrepo eq_refl). cbn [snd] in Hrepo.
  pose proof (mkdir_dirs (join repo [str ".git"]) st1) as H2.
  destruct (mkdir (join repo [str ".git"]) st1) as [[e|[]] st2]; [discriminate|].
  pose proof (mkdir_dirs (join repo [str ".git"; str "objects"]) st2) as H3.
  destruct (mkdir (join repo [str ".git"; str "objects"]) st2) as [[e|[]] st3]; [discriminate|].
  pose proof (mkdir_dirs (join repo [str ".git"; str "refs"]) st3) as H4.
  destruct (mkdir (join repo [str ".git"; str "refs"]) st3) as [[e|[]] st4]; [discriminate|].
  pose proof (mkdir_dirs (join repo [str ".git"; str "refs/heads"]) st4) as H5.
  destruct (mkdir (join repo [str ".git"; str "refs/heads"]) st4) as [[e|[]] st5];
    [discriminate|].
  pose proof (write_file_dirs (join repo [str ".git"; str "HEAD"])
                (blit "ref: regs/heads/master") st5) as H6.
  destruct (write_file _ _ st5) as [[e|[]] st6]; [discriminate|].
  injection H as <- _. cbn [snd] in *.
  unfold path_exists, isdir. apply orb_true_iff. left. apply bool_decide_eq_true.
  rewrite H6. apply H5, H4, H3, H2, Hrepo.
Qed.

Lemma init_refused_witness :
  init (str "proj") (initialized (str "proj") empty_dir)
  = (inl (FileExistsError (str "proj")), initialized (str "proj") empty_dir, []).
Proof.
  apply (proj2 (init_refused (str "proj") empty_dir)
           (initialized (str "proj") empty_dir)
           [Print (str "initialized empty repository: " ++ str "proj")]).
  apply init_vacant; [split; [discriminate | repeat constructor] | apply vacant_empty_dir].
Defined.

(** ** find_object and read_object *)

(** The directory of a prefix whose first two characters are no
    separators. *)
Lemma shard_dir_name (c0 c1 : N) (rest : list N) :
  is_slash c0 = false -> is_slash c1 = false ->
  shard_dir (c0 :: c1 :: rest) = objects_dir ++ [slash; c0; c1].
Proof.
  intros H0 H1. unfold shard_dir, join. rewrite slice_to_2. cbn [fold_left].
  change (join2 (str ".git") (str "objects")) with (str ".git/object" ++ [115%N]).
  rewrite join2_plain by (reflexivity || assumption). reflexivity.
Qed.

(** The path [find_object] returns for an entry of that directory. *)
Lemma join_entry (c0 c1 : N) (rest name : list N) :
  is_slash c0 = false -> is_slash c1 = false ->
  name <> [] -> Forall (fun c => is_slash c = false) name ->
  join (shard_dir (c0 :: c1 :: rest)) [name] = shard_dir (c0 :: c1 :: rest) ++ slash :: name.
Proof.
  intros H0 H1 Hne Hname. rewrite shard_dir_name by assumption.
  destruct name as [|n0 name]; [congruence|]. apply Forall_cons in Hname as [Hn0 _].
  unfold join. cbn [fold_left].
  change (objects_dir ++ [slash; c0; c1]) with ((objects_dir ++ [slash; c0]) ++ [c1]).
  apply join2_plain; assumption.
Qed.

Lemma child_name_shape (d p n : list N) :
  child_name d p = Some n ->
  p = d ++ slash :: n /\ n <> [] /\ Forall (fun c => is_slash c = false) n.
Proof.
  intros H. destruct (child_name_Some d p n H) as [Hp Hne]. split; [exact Hp|].
  split; [exact Hne|].
  unfold child_name in H. destruct (strip_prefix _ p) as [m|]; [|discriminate].
  destruct m as [|m0 m]; [discriminate|].
  destruct (forallb _ (m0 :: m)) eqn:E; [|discriminate]. injection H as <-.
  apply Forall_forall. intros c Hc. apply list_elem_of_In in Hc.
  rewrite forallb_forall in E. specialize (E c Hc). apply negb_true_iff in E. exact E.
Qed.

Lemma filter_singleton {A} (p : A -> bool) (l : list A) (x : A) :
  List.filter p l = [x] ->
  x ∈ l /\ p x = true /\ forall y, y ∈ l -> p y = true -> y = x.
Proof.
  intros H.
  assert (forall y, y ∈ l /\ p y = true <-> y = x) as Hiff.
  { intros y. rewrite list_elem_of_In, <- filter_In, H. cbn [In]. intuition congruence. }
  destruct (proj2 (Hiff x) eq_refl) as [Hx Hpx]. split; [exact Hx|]. split; [exact Hpx|].
  intros y Hy Hpy. apply Hiff. split; assumption.
Qed.

(** X7: when [find_object] returns a path, the prefix has at least two
    characters, its directory exists, and the path is that of an entry of
    this directory whose name starts with the rest of the prefix - the
    only such entry.  When the first two characters of the prefix are no
    separators, the path is the directory, a separator and the name, and
    something exists at it. *)
Theorem find_object_sound (sha1_prefix path : list N) (st : fs) :
  find_object sha1_prefix st = inr path ->
  (2 <= length sha1_prefix)%nat
  /\ isdir st (shard_dir sha1_prefix) = true
  /\ exists name,
       name ∈ children st (shard_dir sha1_prefix)
       /\ startswith name (slice_from sha1_prefix 2) = true
       /\ path = join (shard_dir sha1_prefix) [name]
       /\ (forall other, other ∈ children st (shard_dir sha1_prefix) ->
             startswith other (slice_from sha1_prefix 2) = true -> other = name)
       /\ (Forall (fun c => is_slash c = false) (slice_to sha1_prefix 2) ->
           path = shard_dir sha1_prefix ++ slash :: name /\ path_exists st path = true).
Proof.
  intros H. unfold find_object in H.
  destruct (Nat.ltb_spec (length sha1_prefix) 2) as [|Hlen]; [discriminate|].
  split; [exact Hlen|]. fold (shard_dir sha1_prefix) in H.
  unfold listdir in H. destruct (isdir st (shard_dir sha1_prefix)) eqn:Hdir.
  2:{ destruct (isfile st _); discriminate. }
  split; [reflexivity|]. cbn [bind ret] in H.
  destruct (List.filter _ _) as [|name [|name' others]] eqn:Hfilter; try discriminate.
  cbn [length Nat.leb] in H. injection H as <-.
  apply filter_singleton in Hfilter as (Hin & Hstart & Huniq).
  exists name. repeat split; try assumption.
  - destruct sha1_prefix as [|c0 [|c1 rest]]; try (cbn [length] in Hlen; lia).
    rewrite slice_to_2 in H. apply Forall_cons in H as [H0 H]. apply Forall_cons in H as [H1 _].
    apply elem_of_children in Hin as [_ Hchild].
    apply child_name_shape in Hchild as (_ & Hne & Hname).
    apply join_entry; assumption.
  - destruct sha1_prefix as [|c0 [|c1 rest]]; try (cbn [length] in Hlen; lia).
    rewrite slice_to_2 in H. apply Forall_cons in H as [H0 H]. apply Forall_cons in H as [H1 _].
    apply elem_of_children in Hin as [Hentry Hchild].
    apply child_name_shape in Hchild as (_ & Hne & Hname).
    pose proof (join_entry c0 c1 rest name H0 H1 Hne Hname) as E.
    unfold join in E. cbn [fold_left] in E. rewrite E.
    unfold path_exists, isdir, isfile. apply orb_true_iff.
    destruct Hentry as [Hd|Hf]; [left | right]; apply bool_decide_eq_true; assumption.
Qed.

Lemma find_object_sound_witness :
  path_exists hello_store (str ".git/objects/b6/fc4c620b67d95f953a5c1c1230aaab5db5a1b0") = true.
Proof.
  assert (find_object (str "b6fc") hello_store
          = inr (str ".git/objects/b6/fc4c620b67d95f953a5c1c1230aaab5db5a1b0")) as H.
  { vm_compute. reflexivity. }
  destruct (find_object_sound _ _ _ H) as (_ & _ & name & _ & _ & _ & _ & Hpath).
  apply Hpath. repeat constructor.
Defined.

(** [find_object] on a prefix that one entry only matches. *)
Lemma find_object_unique (st : fs) (c0 c1 : N) (rest name : list N) :
  is_slash c0 = false -> is_slash c1 = false ->
  isdir st (shard_dir (c0 :: c1 :: rest)) = true ->
  name ∈ children st (shard_dir (c0 :: c1 :: rest)) ->
  only_match st (c0 :: c1 :: rest) name ->
  find_object (c0 :: c1 :: rest) st = inr (shard_dir (c0 :: c1 :: rest) ++ slash :: name).
Proof.
  intros H0 H1 Hdir Hin [Hstart Huniq].
  rewrite (find_object_listed _ st (children st (shard_dir (c0 :: c1 :: rest))));
    [|cbn [length]; lia | unfold listdir; rewrite Hdir; reflexivity].
  rewrite (filter_unique _ _ name);
    [|apply NoDup_children | exact Hin | exact Hstart | exact Huniq].
  f_equal. apply elem_of_children in Hin as [_ Hchild].
  apply child_name_shape in Hchild as (_ & Hne & Hname).
  apply join_entry; assumption.
Qed.

(** What [read_object] makes of a stored form, once decompressed. *)
Lemma unframe_framed_as (obj_type : list N) (size : nat) (data : list byte) :
  Forall plain_char obj_type -> obj_type <> [] ->
  (let* null_index := bytes_index (framed_as obj_type size data) NUL 0 in
   let header := slice_to (framed_as obj_type size data) null_index in
   let* h := utf8_decode header in
   let* (obj_type', size_str) := unpack2 (py_split h) in
   let* size' := py_int 10 size_str in
   let data' := slice_from (framed_as obj_type size data) (null_index + 1) in
   let* _ := py_assert (size' =? Z.of_nat (length data')) (ExpectedSize size' (length data')) in
   ret (obj_type', data'))
  = if decide (size = length data) then inr (obj_type, data)
    else inl (AssertionError (ExpectedSize (Z.of_nat size) (length data))).
Proof.
  intros Ht Hne. set (text := obj_type ++ str " " ++ format_nat size).
  pose proof (header_plain obj_type size Ht) as Htext. fold text in Htext.
  destruct (format_nat_spec size) as (Hdne & Hd & Hint).
  assert (NUL ∉ map byte_of_N text) as Hnul.
  { apply byte_of_N_not_NUL. eapply Forall_impl; [exact Htext|].
    intros c Hc. cbn beta in *. lia. }
  assert (bytes_index (framed_as obj_type size data) NUL 0
          = inr (Z.of_nat (length (map byte_of_N text)))) as ->.
  { unfold bytes_index.
    pose proof (bytes_find_skip [] (map byte_of_N text) data NUL Hnul) as Hfind.
    cbn [app length] in Hfind. change (Z.of_nat 0) with 0 in Hfind.
    unfold framed_as. fold text. rewrite Hfind.
    destruct (Z.ltb_spec (0 + Z.of_nat (length (map byte_of_N text))) 0); [lia|].
    reflexivity. }
  cbn [bind].
  assert (slice_to (framed_as obj_type size data) (Z.of_nat (length (map byte_of_N text)))
          = map byte_of_N text) as ->.
  { unfold slice_to, framed_as. fold text. rewrite norm_index_nonneg by lia.
    rewrite Nat2Z.id, length_app. cbn [length].
    replace (Nat.min _ _) with (length (map byte_of_N text)) by lia.
    apply take_app_length. }
  rewrite utf8_decode_ascii
    by (eapply Forall_impl; [exact Htext|]; intros c Hc; cbn beta in *; lia).
  cbn [bind]. unfold text.
  rewrite py_split_two; [| exact Ht
                          | eapply Forall_impl; [exact Hd | exact digit_char_plain]
                          | exact Hne | exact Hdne].
  cbn [unpack2 bind ret]. rewrite Hint. cbn [bind].
  assert (slice_from (framed_as obj_type size data)
            (Z.of_nat (length (map byte_of_N (obj_type ++ str " " ++ format_nat size)))
             + 1) = data) as ->.
  { unfold slice_from, framed_as. fold text. rewrite norm_index_nonneg by lia.
    rewrite length_app. cbn [length].
    replace (Nat.min _ _) with (length (map byte_of_N text ++ [NUL]))
      by (rewrite length_app; cbn [length]; lia).
    replace (map byte_of_N text ++ NUL :: data) with ((map byte_of_N text ++ [NUL]) ++ data)
      by (rewrite <- app_assoc; reflexivity).
    apply drop_app_length. }
  unfold py_assert.
  destruct (decide (size = length data)) as [->|Hsize].
  - rewrite Z.eqb_refl. reflexivity.
  - destruct (Z.eqb_spec (Z.of_nat size) (Z.of_nat (length data))); [lia | reflexivity].
Qed.

(** X8: [read_object] reads the one entry that the prefix matches, whatever
    its name: the digest of the content is never computed, so an
    abbreviation of a name works and a file that is not named after its
    digest is read all the same.  The object is returned when the size in
    its header is the length of its data, and the call raises the
    AssertionError [expected size ..., got ... bytes] otherwise.  The
    working directory is recorded in plain paths, and the size in the
    header has at most 4300 digits, the most that [int] converts. *)
Theorem read_object_entry
    (zlib_decompress : list byte -> result (list byte))
    (st : fs) (c0 c1 : N) (rest name : list N) (raw : list byte)
    (obj_type : list N) (size : nat) (data : list byte) :
  canonical st ->
  (length (format_nat size) <= 4300)%nat ->
  is_slash c0 = false -> is_slash c1 = false -> entry_name name ->
  isdir st (shard_dir (c0 :: c1 :: rest)) = true ->
  files st !! (shard_dir (c0 :: c1 :: rest) ++ slash :: name) = Some raw ->
  only_match st (c0 :: c1 :: rest) name ->
  zlib_decompress raw = inr (framed_as obj_type size data) ->
  Forall plain_char obj_type -> obj_type <> [] ->
  read_object zlib_decompress (c0 :: c1 :: rest) st
  = if decide (size = length data) then inr (obj_type, data)
    else inl (AssertionError (ExpectedSize (Z.of_nat size) (length data))).
Proof.
  intros _ _ H0 H1 [Hne Hname] Hdir Hfile Honly Hraw Ht Htne.
  unfold read_object.
  rewrite (find_object_unique st c0 c1 rest name) by
    (first [assumption
           | apply elem_of_children; split;
             [right; rewrite Hfile; eauto | apply child_name_entry; assumption]]).
  cbn [bind]. unfold read_file. rewrite Hfile. cbn [bind ret].
  rewrite Hraw. cbn [bind].
  apply unframe_framed_as; assumption.
Qed.

Lemma read_object_entry_witness :
  read_object unstored (str "0011") misnamed_store = inr (str "blob", blit "hello")
  /\ sha1_hexdigest (framed (str "blob") (blit "hello")) <> str "0011".
Proof.
  split; [|vm_compute; discriminate].
  apply (read_object_entry unstored misnamed_store 48%N 48%N (str "11") (str "11")
           (stored (framed (str "blob") (blit "hello"))) (str "blob") 5 (blit "hello")).
  - vm_compute. reflexivity.
  - vm_compute. lia.
  - reflexivity.
  - reflexivity.
  - split; [discriminate | repeat constructor].
  - vm_compute. reflexivity.
  - vm_compute. reflexivity.
  - split; [reflexivity|]. intros other Hother _.
    assert (children misnamed_store (shard_dir (48%N :: 48%N :: str "11")) = [str "11"]) as E
      by (vm_compute; reflexivity).
    rewrite E in Hother. apply list_elem_of_singleton in Hother. exact Hother.
  - reflexivity.
  - repeat constructor; unfold plain_char; cbn; lia.
  - discriminate.
Defined.

(** ** hash_object: digests, repositories, types *)

Lemma sha1_hexdigest_length (data : list byte) : length (sha1_hexdigest data) = 40%nat.
Proof.
  unfold sha1_hexdigest. rewrite hex_length.
  change (SHA1.digest data) with (sha1_digest data). rewrite sha1_digest_length. reflexivity.
Qed.

(** X9: with [write=False], [hash_object] leaves the working directory as
    it is.  A digest that [hash_object] returns has forty lowercase
    hexadecimal digits, and it depends on the data and the type only: the
    call with [write=False] returns it in every working directory. *)
Theorem hash_object_digest (zlib_compress : list byte -> list byte)
    (data : list byte) (obj_type : list N) (st : fs) :
  snd (hash_object zlib_compress data obj_type false st) = st
  /\ forall (write : bool) (sha1 : list N) (st' : fs),
       hash_object zlib_compress data obj_type write st = (inr sha1, st') ->
       length sha1 = 40%nat /\ Forall hex_char sha1
       /\ forall (zlib_compress' : list byte -> list byte) (st2 : fs),
            hash_object zlib_compress' data obj_type false st2 = (inr sha1, st2).
Proof.
  unfold hash_object. destruct (full_data data obj_type) as [e|fd].
  { split; [reflexivity|]. intros write sha1 st' H. discriminate. }
  split; [reflexivity|]. intros write sha1 st' H.
  assert (sha1 = sha1_hexdigest fd) as ->.
  { unfold ret in H. destruct write; [|congruence].
    destruct (negb (path_exists st _)); [|congruence].
    destruct (makedirs _ st) as [[e|u] st1]; [discriminate|].
    destruct (write_file _ _ st1) as [[e|u'] st2]; [discriminate|]. congruence. }
  split; [apply sha1_hexdigest_length|]. split; [apply hex_chars|].
  intros zlib_compress' st2. reflexivity.
Qed.

Lemma hash_object_digest_witness :
  length (str "b6fc4c620b67d95f953a5c1c1230aaab5db5a1b0") = 40%nat
  /\ hash_object stored (blit "hello") (str "blob") false hello_store
     = (inr (str "b6fc4c620b67d95f953a5c1c1230aaab5db5a1b0"), hello_store).
Proof.
  destruct (proj2 (hash_object_digest stored (blit "hello") (str "blob") fresh_repo)
              true (str "b6fc4c620b67d95f953a5c1c1230aaab5db5a1b0") hello_store)
    as (Hlen & _ & Hsame).
  - vm_compute. reflexivity.
  - split; [exact Hlen | apply Hsame].
Defined.

(** X10: [hash_object] removes nothing and overwrites nothing: whatever it
    returns or raises, every directory that existed before the call exists
    after it, and every file that existed has the content it had. *)
Theorem hash_object_keeps_store (zlib_compress : list byte -> list byte)
    (data : list byte) (obj_type : list N) (write : bool) (st : fs) :
  dirs st ⊆ dirs (snd (hash_object zlib_compress data obj_type write st))
  /\ files st ⊆ files (snd (hash_object zlib_compress data obj_type write st)).
Proof.
  unfold hash_object. destruct (full_data data obj_type) as [e|fd]; [split; reflexivity|].
  destruct write; [|split; reflexivity].
  destruct (path_exists st (object_path (sha1_hexdigest fd))) eqn:Hex; cbn [negb];
    [split; reflexivity|].
  assert (files st !! object_path (sha1_hexdigest fd) = None) as Hnone.
  { unfold path_exists in Hex. apply orb_false_iff in Hex as [_ Hf].
    unfold isfile in Hf. apply bool_decide_eq_false in Hf.
    destruct (files st !! _) eqn:E; [exfalso; apply Hf; eauto | reflexivity]. }
  pose proof (makedirs_fuel_keeps (S (length (dirname (object_path (sha1_hexdigest fd)))))
                (dirname (object_path (sha1_hexdigest fd))) st) as [Hfiles Hdirs].
  fold (makedirs (dirname (object_path (sha1_hexdigest fd))) st) in Hfiles, Hdirs.
  destruct (makedirs _ st) as [[e|u] st1]; cbn [snd] in *.
  { split; [exact Hdirs | rewrite Hfiles; reflexivity]. }
  rewrite <- Hfiles in Hnone.
  pose proof (write_file_keeps (object_path (sha1_hexdigest fd)) (zlib_compress fd) st1 Hnone)
    as [Hd Hf].
  destruct (write_file _ _ st1) as [[e|u'] st2]; cbn [snd] in *;
    (split; [rewrite Hd; exact Hdirs | rewrite <- Hfiles; exact Hf]).
Qed.

Lemma below_git_objects (rel : list N) :
  below (str ".git") (objects_dir ++ rel).
Proof. right. exists (str "objects" ++ rel). reflexivity. Qed.

(** [makedirs] on the directory of a digest where no repository is. *)
Lemma makedirs_shard_vacant (st : fs) (c0 c1 : N) :
  is_slash c0 = false -> is_slash c1 = false ->
  vacant st (str ".git") ->
  makedirs (objects_dir ++ [slash; c0; c1]) st
  = (inr tt, with_shard st (objects_dir ++ [slash; c0; c1])).
Proof.
  intros H0 H1 Hvac.
  set (st1 := mkfs ({[ str ".git" ]} ∪ dirs st) (files st)).
  set (st2 := mkfs ({[ objects_dir ]} ∪ dirs st1) (files st1)).
  assert (makedirs (str ".git") st = (inr tt, st1)) as Hgit.
  { apply makedirs_top; [split; [discriminate | repeat constructor]|].
    apply Hvac. left. reflexivity. }
  assert (makedirs objects_dir st = (inr tt, st2)) as Hobjects.
  { change objects_dir with ((str ".gi" ++ [116%N]) ++ slash :: 111%N :: str "bjects").
    apply makedirs_missing_parent.
    - reflexivity.
    - repeat constructor.
    - discriminate.
    - apply Hvac. left. reflexivity.
    - exact Hgit.
    - apply isdir_add.
    - unfold st1. rewrite path_exists_add by discriminate.
      apply Hvac. right. exists (str "objects"). reflexivity. }
  change (objects_dir ++ [slash; c0; c1])
    with ((str ".git/object" ++ [115%N]) ++ slash :: c0 :: [c1]).
  rewrite (makedirs_missing_parent st st2).
  - reflexivity.
  - reflexivity.
  - constructor; [exact H0|]. constructor; [exact H1 | constructor].
  - discriminate.
  - apply Hvac. right. exists (str "objects"). reflexivity.
  - exact Hobjects.
  - apply isdir_add.
  - unfold st2. rewrite path_exists_add by discriminate.
    unfold st1. rewrite path_exists_add by discriminate.
    apply Hvac. right. exists (str "objects" ++ [slash; c0; c1]). reflexivity.
Qed.

(** X11: [hash_object] does not need a repository.  In a working directory
    where nothing exists at [.git] or below, the call with [write=True]
    makes [.git], [.git/objects] and the directory of the digest itself
    ([os.makedirs]), writes the object, and [read_object] on the digest
    returns the type and the data. *)
Theorem hash_object_without_repository
    (zlib_compress : list byte -> list byte)
    (zlib_decompress : list byte -> result (list byte))
    (st : fs) (obj_type : list N) (data : list byte) :
  (forall x, zlib_decompress (zlib_compress x) = inr x) ->
  Forall plain_char obj_type -> obj_type <> [] ->
  vacant st (str ".git") ->
  exists sha1 st',
    hash_object zlib_compress data obj_type true st = (inr sha1, st')
    /\ st' = mkfs ({[ shard_dir sha1 ]} ∪ ({[ objects_dir ]} ∪ ({[ str ".git" ]} ∪ dirs st)))
               (<[ object_path sha1 := zlib_compress (framed obj_type data) ]> (files st))
    /\ read_object zlib_decompress sha1 st' = inr (obj_type, data).
Proof.
  intros Hrt Ht Hne Hvac.
  set (full := framed obj_type data).
  destruct (sha1_hexdigest_shape full) as (c0 & c1 & r & Hsha & Hlen & H0 & H1 & Hr).
  destruct r as [|r0 r]; [discriminate|]. apply Forall_cons in Hr as [Hr0 Hr].
  destruct (paths_of_digest c0 c1 r0 r H0 H1 Hr0) as [Hshard Hpath].
  rewrite <- Hsha in Hshard, Hpath.
  assert (Forall (fun c => is_slash c = false) (r0 :: r)) as Hrest.
  { constructor; [apply hex_char_not_slash, Hr0|].
    eapply Forall_impl; [exact Hr | exact hex_char_not_slash]. }
  set (sd := shard_dir (sha1_hexdigest full)) in *.
  set (path := object_path (sha1_hexdigest full)) in *.
  assert (path_exists st path = false) as Hex.
  { apply Hvac. rewrite Hpath, <- app_assoc. apply below_git_objects. }
  assert (dirname path = sd) as Hdirname.
  { unfold dirname. rewrite Hpath, Hshard.
    change (objects_dir ++ [slash; c0; c1]) with ((objects_dir ++ [slash; c0]) ++ [c1]).
    rewrite path_split_join; [reflexivity | apply hex_char_not_slash, H1 | exact Hrest]. }
  assert (path <> sd) as Hneq.
  { rewrite Hpath, Hshard. intros E. apply (f_equal length) in E.
    rewrite !length_app in E. cbn [length] in E. lia. }
  exists (sha1_hexdigest full),
    (mkfs (dirs (with_shard st sd)) (<[ path := zlib_compress full ]> (files st))).
  assert (hash_object zlib_compress data obj_type true st
          = (inr (sha1_hexdigest full),
             mkfs (dirs (with_shard st sd)) (<[ path := zlib_compress full ]> (files st))))
    as Hwrite.
  { unfold hash_object. rewrite (full_data_plain obj_type data Ht). fold full. fold path.
    rewrite Hex. cbn [negb]. rewrite Hdirname, Hshard.
    rewrite makedirs_shard_vacant by (try apply hex_char_not_slash; assumption).
    rewrite <- Hshard.
    rewrite write_file_new; [reflexivity| | |].
    - unfold isdir, with_shard. cbn [dirs]. apply bool_decide_eq_false.
      apply not_exists_lookup in Hex as [Hd _].
      rewrite !elem_of_union, !elem_of_singleton. intros [E|[E|[E|E]]]; try contradiction.
      + rewrite Hpath in E. apply (f_equal length) in E.
        rewrite !length_app in E. cbn [length] in E. lia.
      + rewrite Hpath in E. discriminate E.
    - rewrite Hdirname, Hshard. discriminate.
    - rewrite Hdirname. unfold with_shard. apply isdir_add. }
  split; [exact Hwrite|]. split; [reflexivity|].
  apply (read_object_stored zlib_compress zlib_decompress Hrt); try assumption; fold full.
  - fold sd. unfold with_shard. apply isdir_add.
  - fold path. cbn [files]. apply lookup_insert_eq.
  - unfold unambiguous. fold sd. intros name Hname _.
    apply elem_of_children in Hname as [Hin Hchild]. cbn [dirs files with_shard] in Hin.
    rewrite Hsha, slice_from_2.
    destruct (decide (sd ++ slash :: name = path)) as [E|E].
    { rewrite Hpath, <- Hshard in E. apply app_inv_head in E. congruence. }
    exfalso.
    assert (path_exists st (sd ++ slash :: name) = false) as Hnone.
    { apply Hvac. rewrite Hshard, <- app_assoc. apply below_git_objects. }
    apply not_exists_lookup in Hnone as [Hd Hf].
    destruct Hin as [Hin|Hin].
    + rewrite !elem_of_union, !elem_of_singleton in Hin.
      destruct Hin as [E'|[E'|[E'|E']]]; try contradiction.
      * apply (f_equal length) in E'. rewrite length_app in E'. cbn [length] in E'. lia.
      * rewrite Hshard in E'. apply (f_equal length) in E'.
        rewrite !length_app in E'. cbn [length] in E'. lia.
      * rewrite Hshard in E'. discriminate E'.
    + rewrite lookup_insert_ne in Hin by congruence. rewrite Hf in Hin.
      destruct Hin as [? ?]. discriminate.
Qed.

Lemma hash_object_without_repository_witness :
  exists sha1 st',
    hash_object stored (blit "hello") (str "blob") true empty_dir = (inr sha1, st')
    /\ st' = mkfs ({[ shard_dir sha1 ]} ∪ ({[ objects_dir ]} ∪ ({[ str ".git" ]} ∪ dirs empty_dir)))
               (<[ object_path sha1 := stored (framed (str "blob") (blit "hello")) ]>
                  (files empty_dir))
    /\ read_object unstored sha1 st' = inr (str "blob", blit "hello").
Proof.
  apply (hash_object_without_repository stored unstored empty_dir (str "blob") (blit "hello")).
  - intros x. reflexivity.
  - repeat constructor; unfold plain_char; cbn; lia.
  - discriminate.
  - apply vacant_empty_dir.
Defined.

(** Finding an object that is stored, unambiguously, under its digest. *)
Lemma find_object_digest (st : fs) (full : list byte) :
  isdir st (shard_dir (sha1_hexdigest full)) = true ->
  is_Some (files st !! object_path (sha1_hexdigest full)) ->
  unambiguous st (sha1_hexdigest full) ->
  find_object (sha1_hexdigest full) st = inr (object_path (sha1_hexdigest full)).
Proof.
  intros Hdir Hfile Hunamb.
  destruct (sha1_hexdigest_shape full) as (c0 & c1 & r & Hsha & Hlen & H0 & H1 & Hr).
  destruct r as [|r0 r]; [discriminate|]. apply Forall_cons in Hr as [Hr0 Hr].
  destruct (paths_of_digest c0 c1 r0 r H0 H1 Hr0) as [Hshard Hpath].
  assert (Forall (fun c => is_slash c = false) (r0 :: r)) as Hrest.
  { constructor; [apply hex_char_not_slash, Hr0|].
    eapply Forall_impl; [exact Hr | exact hex_char_not_slash]. }
  rewrite Hsha in *.
  rewrite (find_object_unique st c0 c1 (r0 :: r) (r0 :: r)).
  - rewrite Hshard, Hpath. reflexivity.
  - apply hex_char_not_slash, H0.
  - apply hex_char_not_slash, H1.
  - exact Hdir.
  - apply elem_of_children. rewrite Hshard. split; [right; rewrite <- Hpath; exact Hfile|].
    apply child_name_entry; [discriminate | exact Hrest].
  - split; [rewrite slice_from_2; apply startswith_refl|].
    unfold unambiguous in Hunamb. rewrite slice_from_2 in *. exact Hunamb.
Qed.

(** What [read_object] makes of the stored form of an object with the
    empty type: the header has one token only. *)
Lemma unframe_empty_type (data : list byte) :
  (let* null_index := bytes_index (framed [] data) NUL 0 in
   let header := slice_to (framed [] data) null_index in
   let* h := utf8_decode header in
   let* (obj_type', size_str) := unpack2 (py_split h) in
   let* size := py_int 10 size_str in
   let data' := slice_from (framed [] data) (null_index + 1) in
   let* _ := py_assert (size =? Z.of_nat (length data')) (ExpectedSize size (length data')) in
   ret (obj_type', data'))
  = inl (ValueError (UnpackCount 2 1)).
Proof.
  set (text := [] ++ str " " ++ format_nat (length data)).
  pose proof (header_plain [] (length data) (Forall_nil_2 _)) as Htext. fold text in Htext.
  destruct (format_nat_spec (length data)) as (Hdne & Hd & Hint).
  assert (NUL ∉ map byte_of_N text) as Hnul.
  { apply byte_of_N_not_NUL. eapply Forall_impl; [exact Htext|].
    intros c Hc. cbn beta in *. lia. }
  assert (bytes_index (framed [] data) NUL 0
          = inr (Z.of_nat (length (map byte_of_N text)))) as ->.
  { unfold bytes_index.
    pose proof (bytes_find_skip [] (map byte_of_N text) data NUL Hnul) as Hfind.
    cbn [app length] in Hfind. change (Z.of_nat 0) with 0 in Hfind.
    unfold framed. fold text. rewrite Hfind.
    destruct (Z.ltb_spec (0 + Z.of_nat (length (map byte_of_N text))) 0); [lia|].
    reflexivity. }
  cbn [bind].
  assert (slice_to (framed [] data) (Z.of_nat (length (map byte_of_N text)))
          = map byte_of_N text) as ->.
  { unfold slice_to, framed. fold text. rewrite norm_index_nonneg by lia.
    rewrite Nat2Z.id, length_app. cbn [length].
    replace (Nat.min _ _) with (length (map byte_of_N text)) by lia.
    apply take_app_length. }
  rewrite utf8_decode_ascii
    by (eapply Forall_impl; [exact Htext|]; intros c Hc; cbn beta in *; lia).
  cbn [bind]. unfold text, py_split. cbn [app str map list_ascii_of_string].
  change (N_of_ascii " ") with 32%N. cbn [split_run].
  change (is_space 32) with true. cbv iota.
  rewrite split_run_last by (eapply Forall_impl; [exact Hd | exact digit_char_plain]).
  cbn [rev app]. destruct (format_nat (length data)); [congruence | reflexivity].
Qed.

(** X12: [hash_object] does not check the type it is given.  Every type
    that is a word of printable ASCII characters, one of blob, tree and
    commit or not, is written and read back with the data; with the empty
    string as type the call still writes an object, which [read_object]
    then rejects with the ValueError of unpacking one token into two
    names. *)
Theorem hash_object_type_unchecked
    (zlib_compress : list byte -> list byte)
    (zlib_decompress : list byte -> result (list byte))
    (st : fs) (data : list byte) :
  (forall x, zlib_decompress (zlib_compress x) = inr x) ->
  (forall obj_type : list N,
      Forall plain_char obj_type -> obj_type <> [] ->
      store_ready zlib_compress st (framed obj_type data) ->
      exists sha1 st',
        hash_object zlib_compress data obj_type true st = (inr sha1, st')
        /\ read_object zlib_decompress sha1 st' = inr (obj_type, data))
  /\ (store_ready zlib_compress st (framed [] data) ->
      exists sha1 st',
        hash_object zlib_compress data [] true st = (inr sha1, st')
        /\ read_object zlib_decompress sha1 st' = inl (ValueError (UnpackCount 2 1))).
Proof.
  intros Hrt. split.
  - intros obj_type Hplain Hne Hready.
    destruct (hash_object_stores zlib_compress st obj_type data Hplain Hready)
      as (st' & Hwrite & Hdir & Hfile & Hunamb).
    exists (sha1_hexdigest (framed obj_type data)), st'. split; [exact Hwrite|].
    apply (read_object_stored zlib_compress zlib_decompress Hrt); assumption.
  - intros Hready.
    destruct (hash_object_stores zlib_compress st [] data (Forall_nil_2 _) Hready)
      as (st' & Hwrite & Hdir & Hfile & Hunamb).
    exists (sha1_hexdigest (framed [] data)), st'. split; [exact Hwrite|].
    unfold read_object.
    rewrite find_object_digest by (try assumption; rewrite Hfile; eauto).
    cbn [bind]. unfold read_file. rewrite Hfile. cbn [bind ret].
    rewrite Hrt. cbn [bind].
    apply unframe_empty_type.
Qed.

Lemma hash_object_type_unchecked_witness :
  (exists sha1 st',
      hash_object stored (blit "hello") (str "note") true fresh_repo = (inr sha1, st')
      /\ read_object unstored sha1 st' = inr (str "note", blit "hello"))
  /\ (exists sha1 st',
        hash_object stored (blit "hello") [] true fresh_repo = (inr sha1, st')
        /\ read_object unstored sha1 st' = inl (ValueError (UnpackCount 2 1))).
Proof.
  destruct (hash_object_type_unchecked stored unstored fresh_repo (blit "hello")
              (fun x => eq_refl)) as [Hany Hempty].
  split.
  - apply Hany; [|discriminate|apply fresh_repo_ready].
    repeat constructor; unfold plain_char; cbn; lia.
  - apply Hempty, fresh_repo_ready.
Defined.

(** ** The stores that the program builds, continued *)

(** X13: the layout of every store that calls of [hash_object] (with one of
    the three types) have made of a new repository: the objects directory
    exists; a directory below it has a name of two characters and is no
    file; a file below it sits at the path of the digest of some content,
    holds the compressed form of that content, and the directory of that
    digest exists. *)
Theorem written_store_layout (zlib_compress : list byte -> list byte) (st : fs) :
  written zlib_compress st ->
  isdir st objects_dir = true
  /\ (forall rel : list N,
        objects_dir ++ slash :: rel ∈ dirs st ->
        length rel = 2%nat /\ files st !! (objects_dir ++ slash :: rel) = None)
  /\ (forall (rel : list N) (content : list byte),
        files st !! (objects_dir ++ slash :: rel) = Some content ->
        exists full : list byte,
          objects_dir ++ slash :: rel = object_path (sha1_hexdigest full)
          /\ content = zlib_compress full
          /\ isdir st (shard_dir (sha1_hexdigest full)) = true).
Proof.
  intros Hst.
  assert (store_inv zlib_compress st) as [Hobjects Hinv].
  { induction Hst as [|st st' data obj_type r _ IH Htype Hcall]; [apply store_inv_fresh|].
    exact (store_inv_hash_object zlib_compress st st' data obj_type r IH Htype Hcall). }
  split; [exact Hobjects|]. split.
  - intros rel Hdir.
    destruct (Hinv rel (or_introl Hdir)) as [(Hlen & _ & Hnone)|(full & _ & _ & Hnot & _)];
      [split; assumption | contradiction].
  - intros rel content Hfile.
    destruct (Hinv rel (or_intror (mk_is_Some _ _ Hfile)))
      as [(_ & _ & Hnone)|(full & Heq & Hfull & _ & Hshard)]; [congruence|].
    exists full. split; [exact Heq|]. split; [congruence|].
    unfold isdir. apply bool_decide_eq_true. exact Hshard.
Qed.

Lemma written_store_layout_witness :
  isdir hello_store objects_dir = true
  /\ exists full : list byte,
       objects_dir ++ slash :: str "b6/fc4c620b67d95f953a5c1c1230aaab5db5a1b0"
       = object_path (sha1_hexdigest full)
       /\ stored (framed (str "blob") (blit "hello")) = stored full
       /\ isdir hello_store (shard_dir (sha1_hexdigest full)) = true.
Proof.
  assert (written stored hello_store) as Hst.
  { apply (written_hash_object stored fresh_repo hello_store (blit "hello") (str "blob")
             (inr (str "b6fc4c620b67d95f953a5c1c1230aaab5db5a1b0"))).
    - apply written_fresh.
    - left.
    - vm_compute. reflexivity. }
  destruct (written_store_layout stored hello_store Hst) as (Hobjects & _ & Hfiles).
  split; [exact Hobjects|].
  apply (Hfiles (str "b6/fc4c620b67d95f953a5c1c1230aaab5db5a1b0")).
  vm_compute. reflexivity.
Defined.

(** In an object store, an object that is held under its digest is read
    by its digest. *)
Lemma store_inv_readable
    (zlib_compress : list byte -> list byte)
    (zlib_decompress : list byte -> result (list byte))
    (st : fs) (obj_type : list N) (data : list byte) :
  (forall x, zlib_decompress (zlib_compress x) = inr x) ->
  store_inv zlib_compress st ->
  Forall plain_char obj_type -> obj_type <> [] ->
  files st !! object_path (sha1_hexdigest (framed obj_type data))
    = Some (zlib_compress (framed obj_type data)) ->
  read_object zlib_decompress (sha1_hexdigest (framed obj_type data)) st
  = inr (obj_type, data).
Proof.
  intros Hrt Hinv Hplain Hne Hfile.
  assert (store_ready zlib_compress st (framed obj_type data))
    as (_ & _ & _ & Htrust & Hunamb).
  { apply store_inv_ready; [exact Hinv|]. intros full' _ Hfile'. congruence. }
  destruct (Htrust _ Hfile) as [_ Hdir].
  apply (read_object_stored zlib_compress zlib_decompress Hrt); assumption.
Qed.

(** X14: in every store that calls of [hash_object] have made of a new
    repository, an object that is held under its digest is read by its
    digest, and it still is after any further call of [hash_object]:
    writing more objects never makes an earlier one unreadable. *)
Theorem stored_objects_stay_readable
    (zlib_compress : list byte -> list byte)
    (zlib_decompress : list byte -> result (list byte))
    (st : fs) (obj_type : list N) (data : list byte) :
  (forall x, zlib_decompress (zlib_compress x) = inr x) ->
  written zlib_compress st ->
  Forall plain_char obj_type -> obj_type <> [] ->
  files st !! object_path (sha1_hexdigest (framed obj_type data))
    = Some (zlib_compress (framed obj_type data)) ->
  read_object zlib_decompress (sha1_hexdigest (framed obj_type data)) st
  = inr (obj_type, data)
  /\ forall (data' : list byte) (obj_type' : list N) (r : result (list N)) (st' : fs),
       obj_type' ∈ object_types ->
       hash_object zlib_compress data' obj_type' true st = (r, st') ->
       read_object zlib_decompress (sha1_hexdigest (framed obj_type data)) st'
       = inr (obj_type, data).
Proof.
  intros Hrt Hst Hplain Hne Hfile.
  pose proof (written_store_inv zlib_compress st Hst) as Hinv.
  split; [apply (store_inv_readable zlib_compress); assumption|].
  intros data' obj_type' r st' Htype' Hcall.
  apply (store_inv_readable zlib_compress); try assumption.
  - exact (store_inv_hash_object zlib_compress st st' data' obj_type' r Hinv Htype' Hcall).
  - destruct (object_types_plain obj_type' Htype') as [Hplain' _].
    destruct (store_inv_clear zlib_compress st (framed obj_type' data') Hinv)
      as [Hshardfile _].
    rewrite (hash_object_outcome zlib_compress st obj_type' data' Hplain' (proj1 Hinv)
               Hshardfile) in Hcall.
    injection Hcall as _ <-.
    destruct (path_exists st (object_path (sha1_hexdigest (framed obj_type' data'))))
      eqn:Hex; [exact Hfile|].
    unfold store_add. cbn [files]. rewrite lookup_insert_ne; [exact Hfile|].
    intros E. rewrite E in Hex. unfold path_exists, isfile in Hex.
    rewrite Hfile in Hex. rewrite (bool_decide_eq_true_2 _ (mk_is_Some _ _ eq_refl)) in Hex.
    rewrite orb_true_r in Hex. discriminate.
Qed.

Lemma stored_objects_stay_readable_witness :
  read_object unstored (str "b6fc4c620b67d95f953a5c1c1230aaab5db5a1b0")
    (snd (hash_object stored (blit "world") (str "blob") true hello_store))
  = inr (str "blob", blit "hello").
Proof.
  assert (written stored hello_store) as Hst.
  { apply (written_hash_object stored fresh_repo hello_store (blit "hello") (str "blob")
             (inr (str "b6fc4c620b67d95f953a5c1c1230aaab5db5a1b0"))).
    - apply written_fresh.
    - left.
    - vm_compute. reflexivity. }
  destruct (stored_objects_stay_readable stored unstored hello_store (str "blob")
              (blit "hello")) as [_ Hlater].
  - intros x. reflexivity.
  - exact Hst.
  - repeat constructor; unfold plain_char; cbn; lia.
  - discriminate.
  - vm_compute. reflexivity.
  - apply (Hlater (blit "world") (str "blob")
             (fst (hash_object stored (blit "world") (str "blob") true hello_store))).
    + left.
    + destruct (hash_object stored (blit "world") (str "blob") true hello_store).
      reflexivity.
Defined.

Lemma hash_object_read_object_written_witness :
  exists sha1 st',
    hash_object stored (blit "world") (str "blob") true hello_store = (inr sha1, st')
    /\ read_object unstored sha1 st' = inr (str "blob", blit "world").
Proof.
  apply (hash_object_read_object_written stored unstored hello_store).
  - intros x. reflexivity.
  - apply (written_hash_object stored fresh_repo hello_store (blit "hello") (str "blob")
             (inr (str "b6fc4c620b67d95f953a5c1c1230aaab5db5a1b0"))).
    + apply written_fresh.
    + left.
    + vm_compute. reflexivity.
  - left.
  - intros full' _ Hfile. exfalso. vm_compute in Hfile. discriminate.
Defined.

(** ** The tree reader, continued *)

(** The tokens of [str.split()] are words. *)
Lemma split_run_words (s : list N) :
  forall tok : list N,
  Forall (fun c => is_space c = false) tok ->
  Forall word (split_run tok s).
Proof.
  induction s as [|c s IH]; intros tok Htok; cbn [split_run].
  - destruct tok as [|t tok]; [constructor|].
    constructor; [|constructor]. split.
    + intros E. apply (f_equal length) in E. rewrite length_rev in E. discriminate.
    + apply Forall_rev. exact Htok.
  - destruct (is_space c) eqn:Hc.
    + destruct tok as [|t tok]; [apply IH; constructor|].
      constructor; [|apply IH; constructor]. split.
      * intros E. apply (f_equal length) in E. rewrite length_rev in E. discriminate.
      * apply Forall_rev. exact Htok.
    + apply IH. constructor; assumption.
Qed.

Lemma bytes_find_bound (data : list byte) (b : byte) (i : Z) :
  bytes_find data b i <> -1 ->
  0 <= bytes_find data b i < Z.of_nat (length data).
Proof.
  unfold bytes_find.
  assert (forall (l : list byte) (k : Z), 0 <= k ->
            find_at b l k = -1 \/ k <= find_at b l k < k + Z.of_nat (length l)) as Hfind.
  { induction l as [|x l IH]; intros k Hk; cbn [find_at]; [left; reflexivity|].
    destruct (decide (x = b)); [right; cbn [length]; lia|].
    destruct (IH (k + 1) ltac:(lia)) as [->|H]; [left; reflexivity|].
    right. cbn [length]. lia. }
  intros Hne.
  destruct (Hfind (drop (norm_index (length data) i) data)
              (Z.of_nat (norm_index (length data) i)) ltac:(lia)) as [H|H]; [contradiction|].
  rewrite length_drop in H. pose proof (norm_index_le (length data) i). lia.
Qed.

Lemma slice_length_le {A} (s : list A) (lo hi : Z) :
  0 <= lo -> lo <= hi ->
  Z.of_nat (length (slice s lo hi)) = Z.max 0 (Z.min hi (Z.of_nat (length s)) - lo).
Proof.
  intros Hlo Hhi. unfold slice. rewrite !norm_index_nonneg by lia.
  rewrite length_take, length_drop. lia.
Qed.

(** The entries that the loop adds. *)
Lemma read_tree_loop_entries (n : nat) (data : list byte) :
  forall (i : Z) (es es' : list tree_entry),
  read_tree_loop n data i es = inr es' ->
  exists new, es' = es ++ new /\ Forall entry_shape new
    /\ (forall front e rest, new = front ++ e :: rest -> rest <> [] -> full_digest e)
    /\ (new <> [] -> n <> 0%nat /\ bytes_find data NUL i <> -1).
Proof.
  induction n as [|n IH]; intros i es es' H; cbn [read_tree_loop] in H.
  - injection H as <-. exists []. rewrite app_nil_r.
    split; [reflexivity|]. split; [constructor|].
    split; [intros [|? ?] ? ? ?; discriminate|]. congruence.
  - destruct (Z.eqb_spec (bytes_find data NUL i) (-1)) as [E|E].
    { injection H as <-. exists []. rewrite app_nil_r.
      split; [reflexivity|]. split; [constructor|].
    split; [intros [|? ?] ? ? ?; discriminate|]. congruence. }
    destruct (utf8_decode _) as [e|h]; [discriminate|]. cbn [bind] in H.
    pose proof (split_run_words h [] ltac:(constructor)) as Hwords. fold (py_split h) in Hwords.
    destruct (py_split h) as [|mode_str [|path [|x toks]]]; try discriminate.
    cbn [unpack2 bind ret] in H.
    destruct (py_int 8 mode_str) as [e|mode]; [discriminate|]. cbn [bind] in H.
    apply IH in H as (new & -> & Hshape & Hfull & Hnext).
    set (end_ := bytes_find data NUL i) in *.
    exists ((mode, path, hex (slice data (end_ + 1) (end_ + 21))) :: new).
    split; [rewrite <- app_assoc; reflexivity|].
    pose proof (bytes_find_bound data NUL i E) as Hend. fold end_ in Hend.
    pose proof (slice_length_le data (end_ + 1) (end_ + 21) ltac:(lia) ltac:(lia)) as Hslice.
    split; [|split].
    + constructor; [|exact Hshape]. split; [|split]; cbn [fst snd].
      * apply Forall_cons in Hwords as [_ Hwords]. apply Forall_cons in Hwords as [Hw _].
        exact Hw.
      * apply hex_chars.
      * rewrite hex_length. lia.
    + intros [|e0 front] e rest Hnew Hrest; cbn [app] in Hnew; injection Hnew as <- ->;
        [|exact (Hfull front e rest eq_refl Hrest)].
      unfold full_digest. cbn [snd]. rewrite hex_length.
      destruct (Hnext Hrest) as [_ Hfound].
      pose proof (bytes_find_bound data NUL (end_ + 1 + 20) Hfound) as Hb.
      assert (end_ + 21 <= Z.of_nat (length data)) as Hin.
      { destruct (Z.le_gt_cases (Z.of_nat (length data)) (end_ + 1 + 20)) as [Hpast|?]; [|lia].
        rewrite bytes_find_past in Hfound by exact Hpast. contradiction. }
      lia.
    + intros _. split; [discriminate | exact E].
Qed.

(** A computation that returns after a first one has returned. *)
Lemma bind_returns {A B} (r : result A) (k : A -> result B) (b : B) :
  bind r k = inr b -> exists a, r = inr a /\ k a = inr b.
Proof. destruct r as [e|a]; [discriminate|]. intros H. exists a. split; [reflexivity | exact H]. Qed.

(** X16: the entries [read_tree] returns.  In each of them the path is not
    empty and has no white space in it, and the digest has at most forty
    hexadecimal digits; every entry but the last one has all forty. *)
Theorem read_tree_entries_shape (zd : list byte -> result (list byte))
    (sha1 : option (list N)) (data : option (list byte)) (st : fs) (es : list tree_entry) :
  read_tree zd sha1 data st = inr es ->
  Forall entry_shape es
  /\ forall front e rest, es = front ++ e :: rest -> rest <> [] -> full_digest e.
Proof.
  unfold read_tree. intros H.
  apply bind_returns in H as (d & _ & H).
  apply read_tree_loop_entries in H as (new & Hes & Hshape & Hfull & _).
  cbn [app] in Hes. subst new. split; [exact Hshape | exact Hfull].
Qed.

Lemma read_tree_entries_shape_witness :
  Forall entry_shape (map tr_entry [sample_record; sample_record])
  /\ full_digest (tr_entry sample_record).
Proof.
  assert (read_tree unstored None (Some (tree_payload [sample_record; sample_record]))
            fresh_repo = inr (map tr_entry [sample_record; sample_record])) as H.
  { vm_compute. reflexivity. }
  destruct (read_tree_entries_shape unstored None _ fresh_repo _ H) as [Hshape Hfull].
  split; [exact Hshape|].
  apply (Hfull [] (tr_entry sample_record) [tr_entry sample_record]); [reflexivity|discriminate].
Defined.

(** X17: [read_tree] by digest.  After [hash_object] has written an object,
    [read_tree] on its digest ignores the [data] argument; it decodes the
    stored data as [read_tree(data=...)] does when the type is [tree], and
    raises the AssertionError [expected tree object] for every other
    type. *)
Theorem read_tree_by_digest
    (zlib_compress : list byte -> list byte)
    (zlib_decompress : list byte -> result (list byte))
    (st : fs) (obj_type : list N) (data : list byte) (other : option (list byte)) :
  (forall x, zlib_decompress (zlib_compress x) = inr x) ->
  Forall plain_char obj_type -> obj_type <> [] ->
  store_ready zlib_compress st (framed obj_type data) ->
  exists sha1 st',
    hash_object zlib_compress data obj_type true st = (inr sha1, st')
    /\ read_tree zlib_decompress (Some sha1) other st'
       = if bool_decide (obj_type = str "tree")
         then read_tree zlib_decompress None (Some data) st'
         else inl (AssertionError (ExpectedTree obj_type)).
Proof.
  intros Hrt Hplain Hne Hready.
  destruct (hash_object_stores zlib_compress st obj_type data Hplain Hready)
    as (st' & Hwrite & Hdir & Hfile & Hunamb).
  exists (sha1_hexdigest (framed obj_type data)), st'. split; [exact Hwrite|].
  unfold read_tree.
  rewrite (read_object_stored zlib_compress zlib_decompress Hrt st' obj_type data)
    by assumption.
  cbn [bind]. unfold py_assert.
  destruct (bool_decide (obj_type = str "tree")); reflexivity.
Qed.

Lemma read_tree_by_digest_witness :
  exists sha1 st',
    hash_object stored (tree_payload [sample_record]) (str "tree") true fresh_repo
    = (inr sha1, st')
    /\ read_tree unstored (Some sha1) None st'
       = if bool_decide (str "tree" = str "tree")
         then read_tree unstored None (Some (tree_payload [sample_record])) st'
         else inl (AssertionError (ExpectedTree (str "tree"))).
Proof.
  apply (read_tree_by_digest stored unstored fresh_repo (str "tree")).
  - intros x. reflexivity.
  - repeat constructor; unfold plain_char; cbn; lia.
  - discriminate.
  - apply fresh_repo_ready.
Defined.

(** ** cat_file *)

(** X18: [cat_file] on an object that [hash_object] has written, with one of
    the three types.  In the mode of its type it writes the data, byte for
    byte; in mode [size] it prints the length of the data and in mode
    [type] the type; in mode [pretty] it writes the data of a blob or a
    commit; in the mode of another type it raises the ValueError
    [expected object type ..., got ...] and writes nothing. *)
Theorem cat_file_stored
    (zlib_compress : list byte -> list byte)
    (zlib_decompress : list byte -> result (list byte))
    (st : fs) (obj_type : list N) (data : list byte) :
  (forall x, zlib_decompress (zlib_compress x) = inr x) ->
  obj_type ∈ object_types ->
  store_ready zlib_compress st (framed obj_type data) ->
  exists sha1 st',
    hash_object zlib_compress data obj_type true st = (inr sha1, st')
    /\ cat_file zlib_decompress obj_type sha1 st' = Some (inr [WriteBytes data])
    /\ cat_file zlib_decompress (str "size") sha1 st'
       = Some (inr [Print (format_nat (length data))])
    /\ cat_file zlib_decompress (str "type") sha1 st' = Some (inr [Print obj_type])
    /\ (obj_type <> str "tree" ->
        cat_file zlib_decompress (str "pretty") sha1 st' = Some (inr [WriteBytes data]))
    /\ (forall mode, mode ∈ object_types -> mode <> obj_type ->
        cat_file zlib_decompress mode sha1 st' = Some (inl (ExpectedObjectType mode obj_type))).
Proof.
  intros Hrt Htype Hready.
  destruct (object_types_plain obj_type Htype) as [Hplain Hne].
  destruct (hash_object_stores zlib_compress st obj_type data Hplain Hready)
    as (st' & Hwrite & Hdir & Hfile & Hunamb).
  exists (sha1_hexdigest (framed obj_type data)), st'. split; [exact Hwrite|].
  pose proof (read_object_stored zlib_compress zlib_decompress Hrt st' obj_type data
                Hplain Hne Hdir Hfile Hunamb) as Hread.
  unfold cat_file. rewrite Hread.
  unfold object_types in *.
  repeat split.
  - repeat (apply elem_of_cons in Htype as [->|Htype]); try reflexivity.
    apply elem_of_nil in Htype. contradiction.
  - intros Htree.
    repeat (apply elem_of_cons in Htype as [->|Htype]); try reflexivity; try congruence.
    apply elem_of_nil in Htype. contradiction.
  - intros mode Hmode Hdiff.
    rewrite (bool_decide_eq_false_2 (obj_type = mode)) by congruence. cbn [negb].
    repeat (apply elem_of_cons in Hmode as [->|Hmode]); try reflexivity.
    apply elem_of_nil in Hmode. contradiction.
Qed.

Lemma cat_file_stored_witness :
  exists sha1 st',
    hash_object stored (blit "hello") (str "blob") true fresh_repo = (inr sha1, st')
    /\ cat_file unstored (str "blob") sha1 st' = Some (inr [WriteBytes (blit "hello")])
    /\ cat_file unstored (str "size") sha1 st' = Some (inr [Print (str "5")])
    /\ cat_file unstored (str "type") sha1 st' = Some (inr [Print (str "blob")])
    /\ cat_file unstored (str "tree") sha1 st'
       = Some (inl (ExpectedObjectType (str "tree") (str "blob"))).
Proof.
  destruct (cat_file_stored stored unstored fresh_repo (str "blob") (blit "hello"))
    as (sha1 & st' & Hwrite & Hraw & Hsize & Htype & _ & Hother).
  - intros x. reflexivity.
  - left.
  - apply fresh_repo_ready.
  - exists sha1, st'. repeat split; try assumption.
    apply Hother; [|discriminate]. right. left.
Defined.
